(** * CoinGecko capstone pipeline: merge engine, ranking adapters, cleaner

    A shallow embedding of the two scripts of the repository,

      - [code/merge_raw_by_coingecko_rank.py]: ranking acquisition (API
        path with retries, scraping fallback), file inventory, row merge;
      - [code/clean_coingecko_data.py]: the ranking snapshot cleaner,

    followed by the properties established about them.

    Conventions.  Python [str] values are [string]s (UTF-8 bytes, so that
    byte-wise comparison is code-point comparison); the methods of
    [str] that depend on the Unicode tables are parameters
    ([StrMethods]).  [None] is kept apart
    from every string ([pyval]).  A [dict] is a [gmap]; Python dict
    equality ignores insertion order, as [gmap] equality does.  Exceptions
    are values of [exn] carried by [result].  Network replies are read
    from an oracle and every request and sleep is logged in a trace. *)

From Stdlib Require Import ZArith String Ascii List Permutation Sorted.
From Stdlib Require Import OrderedTypeEx.
From stdpp Require Import gmap strings list pretty.

Local Open Scope string_scope.
Local Open Scope list_scope.
Local Open Scope Z_scope.

(* ===================================================================== *)
(** * Definitions *)
(* ===================================================================== *)

(* --------------------------------------------------------------------- *)
(** ** Python values, exceptions and strings *)
(* --------------------------------------------------------------------- *)

(** Exceptions the two scripts can meet.  [NetworkError] stands for the
    three classes caught together by [except (HTTPError, URLError,
    TimeoutError)]; [OtherError] for anything else [urlopen] or [read]
    may raise (which no handler of the scripts catches). *)
Inductive exn :=
| FileNotFoundError
| RuntimeError
| NetworkError
| JSONDecodeError
| AttributeError
| TypeError
| ValueError
| KeyError
| OtherError.

Inductive result (A : Type) :=
| Ok (a : A)
| Raise (e : exn).
Arguments Ok {A} a.
Arguments Raise {A} e.

Definition rbind {A B} (r : result A) (k : A -> result B) : result B :=
  match r with
  | Ok a => k a
  | Raise e => Raise e
  end.

(** [mapR f l]: apply a fallible function from left to right, the first
    exception wins. *)
Fixpoint mapR {A B} (f : A -> result B) (l : list A) : result (list B) :=
  match l with
  | [] => Ok []
  | x :: xs => rbind (f x) (fun y => rbind (mapR f xs) (fun ys => Ok (y :: ys)))
  end.

(** A value that is either [None] or a [str]. *)
Inductive pyval :=
| PyNone
| PyStr (s : string).

Definition ascii_code (c : ascii) : Z := Z.of_N (N_of_ascii c).

(** [str.lower()] and [str.strip()] follow the Unicode character
    database (case mappings, the final sigma, the white space of
    [str.isspace]).  They are library methods the model does not look
    into: the definitions and the properties below are stated for
    whatever functions the library provides. *)
Class StrMethods := {
  lower : string -> string;
  strip : string -> string
}.

(** [s[:-n]] for a positive [n]: all but the last [n] characters. *)
Definition drop_last (n : nat) (s : string) : string :=
  substring 0 (String.length s - n) s.

Definition ends_with (suffix s : string) : bool :=
  String.eqb (substring (String.length s - String.length suffix)
                        (String.length suffix) s) suffix.

(** *** [int(str)]

    Decimal literals as [int] reads them from a [str]: optional
    surrounding blanks, an optional sign, digits that may be grouped by
    single underscores, at most 4300 digits.  Digits and blanks outside
    ASCII are not recognised by this model. *)
Definition digit_of (c : ascii) : option Z :=
  if (48 <=? ascii_code c) && (ascii_code c <=? 57)
  then Some (ascii_code c - 48) else None.

Definition is_int_space (c : ascii) : bool :=
  ((9 <=? ascii_code c) && (ascii_code c <=? 13)) || (ascii_code c =? 32).

Fixpoint int_lstrip (s : string) : string :=
  match s with
  | EmptyString => EmptyString
  | String c r => if is_int_space c then int_lstrip r else s
  end.

Fixpoint int_rstrip (s : string) : string :=
  match s with
  | EmptyString => EmptyString
  | String c r =>
      match int_rstrip r with
      | EmptyString => if is_int_space c then EmptyString else String c EmptyString
      | r' => String c r'
      end
  end.

(** [int_digits acc n s]: [s] is what follows a digit; [acc] is the value
    and [n] the number of digits read so far. *)
Fixpoint int_digits (acc : Z) (n : nat) (s : string) : option Z :=
  match s with
  | EmptyString => if (4300 <? n)%nat then None else Some acc
  | String c r =>
      match digit_of c with
      | Some d => int_digits (10 * acc + d) (S n) r
      | None =>
          if Ascii.eqb c "_" then
            match r with
            | String c' r' =>
                match digit_of c' with
                | Some d => int_digits (10 * acc + d) (S n) r'
                | None => None
                end
            | EmptyString => None
            end
          else None
      end
  end.

Definition int_unsigned (s : string) : option Z :=
  match s with
  | String c r =>
      match digit_of c with
      | Some d => int_digits d 1 r
      | None => None
      end
  | EmptyString => None
  end.

Definition py_int_str (s : string) : option Z :=
  match int_rstrip (int_lstrip s) with
  | String "+" r => int_unsigned r
  | String "-" r => Z.opp <$> int_unsigned r
  | t => int_unsigned t
  end.

(** [int(v)] for [v] a [str] or [None]. *)
Definition py_int (v : pyval) : result Z :=
  match v with
  | PyNone => Raise TypeError
  | PyStr s =>
      match py_int_str s with
      | Some z => Ok z
      | None => Raise ValueError
      end
  end.

(** The result monad, used for pure code that may raise; the notation
    [x ← m; k] is stdpp's. *)
Global Instance result_ret : MRet result := @Ok.
Global Instance result_bind : MBind result := fun A B k r => rbind r k.

(** A stable sort: [x] is put before the first element it does not
    exceed, so equal elements keep the order of the input.  Python
    guarantees the stability of [sorted] and [list.sort]; for a total
    preorder the stable sorted arrangement of a list is unique. *)
Fixpoint insert_sorted {A} (leb : A -> A -> bool) (x : A) (l : list A) : list A :=
  match l with
  | [] => [x]
  | y :: r => if leb x y then x :: l else y :: insert_sorted leb x r
  end.

Definition stable_sort {A} (leb : A -> A -> bool) (l : list A) : list A :=
  foldr (insert_sorted leb) [] l.

(** [range(a, b)] for integers. *)
Definition py_range (a b : Z) : list Z :=
  map (fun i => a + Z.of_nat i) (seq 0 (Z.to_nat (b - a))).

(* --------------------------------------------------------------------- *)
(** ** The network and the trace *)
(* --------------------------------------------------------------------- *)

(** One entry of the ranking map: the four-key [dict] built by both
    adapters and by the placeholder of [build_merged_rows]. *)
Record RankedCoin := {
  coin_id : string;
  coin_name : string;
  coin_symbol : string;
  coin_rank : string
}.

Global Instance RankedCoin_eq_dec : EqDecision RankedCoin.
Proof. solve_decision. Defined.

(** A JSON value as [json.loads] returns it, as far as [str()] and
    [is None] can tell.  Floats, arrays and objects are carried by the
    text [str()] gives for them. *)
Inductive jvalue :=
| JNull
| JBool (b : bool)
| JInt (z : Z)
| JStr (s : string)
| JRepr (repr : string).

Definition py_str (v : jvalue) : string :=
  match v with
  | JNull => "None"
  | JBool true => "True"
  | JBool false => "False"
  | JInt z => pretty z
  | JStr s => s
  | JRepr r => r
  end.

(** A JSON object of the markets listing, read through [row.get] at the
    four keys the adapter uses; [None] is an absent key. *)
Record json_row := {
  j_symbol : option jvalue;
  j_market_cap_rank : option jvalue;
  j_id : option jvalue;
  j_name : option jvalue
}.

(** What [json.loads(payload)] gives:
    [JInvalid]: the text is not JSON;
    [JFalsy]: a falsy value other than the empty array;
    [JRows rows]: an array of objects;
    [JNotIterable]: a truthy number or [true], on which
    [for row in data] raises [TypeError];
    [JNotObjects]: an object, a string, or an array holding something
    else than objects, on which [row.get] raises [AttributeError]. *)
Inductive json_doc :=
| JInvalid
| JFalsy
| JRows (rows : list json_row)
| JNotIterable
| JNotObjects.

(** One [<tr>...</tr>] fragment found by [row_pattern], read through the
    three searches: the captured group of each, [None] when the pattern
    does not match. *)
Record tr_match := {
  rank_group : option string;
  symbol_group : option string;
  name_group : option string
}.

(** A response body is a text.  The program reads it only through
    [json.loads] (primary path) and through the regular expressions
    (fallback path); a body is represented by what these readers give. *)
Record body := {
  as_json : json_doc;
  as_html : list tr_match
}.

Inductive reply :=
| Body (b : body)
| NetFail
| OtherFail.

Inductive request :=
| ApiGet (page per_page : Z)
| WebGet (page : Z).

(** Output of the run, as handed to [csv.DictWriter] and [print]. *)
Inductive event :=
| Request (r : request)
| Sleep (ms : Z)
| WriteCsv (header : list string) (rows : list (list string))
| PrintSummary (files rows : nat) (unmatched : list string).

(** [served]: how many requests were answered so far; the next one gets
    the reply the oracle holds at that index. *)
Record world := {
  served : nat;
  trace : list event
}.

Definition M (A : Type) : Type := world -> result A * world.

Definition ret {A} (a : A) : M A := fun w => (Ok a, w).
Definition raise {A} (e : exn) : M A := fun w => (Raise e, w).
Definition lift {A} (r : result A) : M A := fun w => (r, w).
Definition bind {A B} (m : M A) (k : A -> M B) : M B :=
  fun w =>
    match m w with
    | (Ok a, w') => k a w'
    | (Raise e, w') => (Raise e, w')
    end.

(** [try: m  except NetworkError: h]. *)
Definition except_network {A} (m : M A) (h : M A) : M A :=
  fun w =>
    match m w with
    | (Raise NetworkError, w') => h w'
    | r => r
    end.

Global Instance M_ret : MRet M := @ret.
Global Instance M_bind : MBind M := fun A B k m => bind m k.

Definition emit (e : event) : M unit :=
  fun w => (Ok tt, {| served := served w; trace := trace w ++ [e] |}).

(** [time.sleep(seconds)], the duration kept in milliseconds. *)
Definition sleep (ms : Z) : M unit := emit (Sleep ms).

Definition empty_world : world := {| served := 0; trace := [] |}.

Abbreviation ranking := (gmap string RankedCoin).

(* --------------------------------------------------------------------- *)
(** ** Ranking acquisition ([merge_raw_by_coingecko_rank.py], l. 21-131) *)
(* --------------------------------------------------------------------- *)

Section Acquisition.

(** The replies of the remote hosts, in the order the requests are
    made. *)
Variable net : nat -> reply.

(** [html.unescape], a library function the model does not look into. *)
Variable unescape : string -> string.

Context `{Str : StrMethods}.

(** [_request_text(url)]: one network call. *)
Definition _request_text (req : request) : M body :=
  fun w =>
    let w' := {| served := S (served w); trace := trace w ++ [Request req] |} in
    match net (served w) with
    | Body b => (Ok b, w')
    | NetFail => (Raise NetworkError, w')
    | OtherFail => (Raise OtherError, w')
    end.

(** The retry loop [for attempt in range(3)] of one page (l. 48-56);
    the result is the final value of [payload]. *)
Fixpoint request_attempts (req : request) (attempts : list Z) : M (option body) :=
  match attempts with
  | [] => ret None
  | attempt :: rest =>
      fun w =>
        match _request_text req w with
        | (Ok payload, w') => (Ok (Some payload), w')
        | (Raise NetworkError, w') =>
            if attempt =? 2 then (Raise NetworkError, w')
            else (sleep (1500 * (attempt + 1)) ≫= fun _ => request_attempts req rest) w'
        | (Raise e, w') => (Raise e, w')
        end
  end.

(** [json.loads(payload)]. *)
Definition json_loads (payload : option body) : result json_doc :=
  match payload with
  | None => Raise TypeError
  | Some b =>
      match as_json b with
      | JInvalid => Raise JSONDecodeError
      | d => Ok d
      end
  end.

(** [str(row.get(key, ""))]. *)
Definition get_str (field : option jvalue) : string :=
  match field with
  | Some v => py_str v
  | None => ""
  end.

(** [row.get("market_cap_rank")], with JSON [null] read as [None]. *)
Definition get_rank (field : option jvalue) : option jvalue :=
  match field with
  | Some JNull => None
  | o => o
  end.

(** Body of [for row in data] (l. 62-76). *)
Definition ingest_api_row (symbol_to_coin : ranking) (row : json_row) : ranking :=
  let symbol := strip (lower (get_str (j_symbol row))) in
  if decide (symbol = "") then symbol_to_coin
  else if decide (is_Some (symbol_to_coin !! symbol)) then symbol_to_coin
  else
    match get_rank (j_market_cap_rank row) with
    | None => symbol_to_coin
    | Some rank =>
        <[symbol := {| coin_id := get_str (j_id row);
                       coin_name := get_str (j_name row);
                       coin_symbol := symbol;
                       coin_rank := py_str rank |}]> symbol_to_coin
    end.

Definition ingest_api_rows (symbol_to_coin : ranking) (data : list json_row) : ranking :=
  fold_left ingest_api_row data symbol_to_coin.

(** The page loop of [fetch_ranked_symbols] (l. 38-76). *)
Fixpoint api_pages (per_page : Z) (pages : list Z) (symbol_to_coin : ranking)
  : M ranking :=
  match pages with
  | [] => ret symbol_to_coin
  | page :: rest =>
      payload ← request_attempts (ApiGet page per_page) (py_range 0 3);
      data ← lift (json_loads payload);
      match data with
      | JInvalid => raise JSONDecodeError
      | JFalsy | JRows [] => ret symbol_to_coin
      | JRows rows => api_pages per_page rest (ingest_api_rows symbol_to_coin rows)
      | JNotIterable => raise TypeError
      | JNotObjects => raise AttributeError
      end
  end.

Definition fetch_ranked_symbols (max_pages per_page : Z) : M ranking :=
  api_pages per_page (py_range 1 (max_pages + 1)) ∅.

(** Body of [for row_html in rows] (l. 106-126); the state is
    [(symbol_to_coin, page_added)]. *)
Definition ingest_web_row (st : ranking * Z) (row_html : tr_match) : ranking * Z :=
  let '(symbol_to_coin, page_added) := st in
  match rank_group row_html, symbol_group row_html with
  | Some rank, Some symbol_text =>
      let symbol := strip (lower symbol_text) in
      if decide (symbol = "") then st
      else if decide (is_Some (symbol_to_coin !! symbol)) then st
      else
        let name := match name_group row_html with
                    | Some g => unescape (strip g)
                    | None => ""
                    end in
        (<[symbol := {| coin_id := "";
                        coin_name := name;
                        coin_symbol := symbol;
                        coin_rank := rank |}]> symbol_to_coin,
         page_added + 1)
  | _, _ => st
  end.

Definition ingest_web_rows (symbol_to_coin : ranking) (rows : list tr_match)
  : ranking * Z :=
  fold_left ingest_web_row rows (symbol_to_coin, 0).

(** The page loop of [fetch_ranked_symbols_from_web] (l. 94-129). *)
Fixpoint web_pages (pages : list Z) (symbol_to_coin : ranking) : M ranking :=
  match pages with
  | [] => ret symbol_to_coin
  | page :: rest =>
      fun w =>
        match _request_text (WebGet page) w with
        | (Ok html, w') =>
            match as_html html with
            | [] => web_pages rest symbol_to_coin w'
            | rows =>
                let '(symbol_to_coin', page_added) :=
                  ingest_web_rows symbol_to_coin rows in
                if page_added =? 0 then (Ok symbol_to_coin', w')
                else web_pages rest symbol_to_coin' w'
            end
        | (Raise NetworkError, w') => web_pages rest symbol_to_coin w'
        | (Raise e, w') => (Raise e, w')
        end
  end.

Definition fetch_ranked_symbols_from_web (max_pages : Z) : M ranking :=
  web_pages (py_range 1 (max_pages + 1)) ∅.

End Acquisition.

(* --------------------------------------------------------------------- *)
(** ** File inventory and row merge (l. 134-195) *)
(* --------------------------------------------------------------------- *)

(** An input file: its name and the records [csv.reader] yields for its
    text, the header line first.  A blank line is the empty record.  The
    files are taken as read: a file that [open] or the csv reader
    rejects is outside the model, and so are the failures of l. 163-168
    that come with it. *)
Record AssetFile := {
  name : string;
  records : list (list string)
}.

(** A row as a [dict] from column names to values. *)
Abbreviation row := (gmap string pyval).

Definition suffix : string := "-usd-max.csv".

(** [sorted(raw_dir.glob("*-usd-max.csv"), key=lambda p: p.name.lower())];
    the directory is given in the order the file system lists it. *)
Definition list_input_files `{Str : StrMethods}
    (raw_dir : list AssetFile) : list AssetFile :=
  stable_sort (fun a b => String.leb (lower (name a)) (lower (name b)))
              (List.filter (fun f => ends_with suffix (name f)) raw_dir).

(** [path.name[: -len("-usd-max.csv")].lower()]. *)
Definition parse_symbol_from_filename `{Str : StrMethods}
    (file_name : string) : string :=
  lower (drop_last (String.length suffix) file_name).

(** [csv.DictReader]: [fieldnames] is the first record; every later
    record that is not blank becomes a dict, a short record being
    completed with [None] and the surplus of a long one left out of the
    named columns (it goes under the key [None], which no lookup of the
    program reaches). *)
Definition fieldnames (file : AssetFile) : option (list string) :=
  head (records file).

Definition row_dict (fields : list string) (record : list string) : row :=
  fold_left (fun d kv => <[kv.1 := kv.2]> d)
            (zip fields (map PyStr record
                         ++ replicate (length fields - length record) PyNone))
            ∅.

Definition dict_rows (file : AssetFile) : list row :=
  match records file with
  | [] => []
  | fields :: rest =>
      map (row_dict fields) (List.filter (fun r => negb (Nat.eqb (length r) 0)) rest)
  end.

(** [row.get(k, "")]. *)
Definition get_or_empty (r : row) (k : string) : pyval :=
  default (PyStr "") (r !! k).

(** The dict display of l. 169-176: the five fixed keys, then the
    columns of [base_headers], a later key replacing an earlier one. *)
Definition merged_row (coin_meta : RankedCoin) (file_name : string)
    (base_headers : list string) (r : row) : row :=
  fold_left (fun d k => <[k := get_or_empty r k]> d) base_headers
    (<["source_file" := PyStr file_name]>
       (<["coin_symbol" := PyStr (coin_symbol coin_meta)]>
          (<["coin_name" := PyStr (coin_name coin_meta)]>
             (<["coin_id" := PyStr (coin_id coin_meta)]>
                (<["coin_rank" := PyStr (coin_rank coin_meta)]> ∅))))).

Definition placeholder (symbol : string) : RankedCoin :=
  {| coin_id := ""; coin_name := ""; coin_symbol := symbol; coin_rank := "999999" |}.

Record merge_state := {
  all_rows : list row;
  unmatched_files : list string;
  base_headers : list string
}.

(** Body of [for file_path in files] (l. 150-177). *)
Definition ingest_file `{Str : StrMethods}
    (symbol_to_coin : ranking) (st : merge_state)
    (file : AssetFile) : merge_state :=
  let symbol := parse_symbol_from_filename (name file) in
  let '(coin_meta, unmatched) :=
    match symbol_to_coin !! symbol with
    | Some c => (c, unmatched_files st)
    | None => (placeholder symbol, unmatched_files st ++ [name file])
    end in
  let headers :=
    match base_headers st with
    | [] => default [] (fieldnames file)
    | h => h
    end in
  {| all_rows := all_rows st
                 ++ map (merged_row coin_meta (name file) headers) (dict_rows file);
     unmatched_files := unmatched;
     base_headers := headers |}.

(** The sort key of l. 180-184. *)
Abbreviation sort_key_t := (Z * pyval * pyval)%type.

Definition getitem (d : row) (k : string) : result pyval :=
  match d !! k with
  | Some v => Ok v
  | None => Raise KeyError
  end.

Definition sort_key (item : row) : result sort_key_t :=
  rank_text ← getitem item "coin_rank";
  rank ← py_int rank_text;
  symbol ← getitem item "coin_symbol";
  Ok (rank, symbol, default (PyStr "") (item !! "snapped_at")).

(** Comparison of two values; [None] when Python raises [TypeError]
    (a [str] against [None]). *)
Definition pyval_cmp (a b : pyval) : option comparison :=
  match a, b with
  | PyNone, PyNone => Some Eq
  | PyStr x, PyStr y => Some (String.compare x y)
  | _, _ => None
  end.

(** Tuples compare at their first differing component. *)
Definition key_cmp (a b : sort_key_t) : option comparison :=
  let '(r1, s1, t1) := a in
  let '(r2, s2, t2) := b in
  match Z.compare r1 r2 with
  | Eq =>
      match pyval_cmp s1 s2 with
      | Some Eq => pyval_cmp t1 t2
      | o => o
      end
  | c => Some c
  end.

Definition key_leb (a b : sort_key_t) : bool :=
  match key_cmp a b with
  | Some Gt => false
  | _ => true
  end.

Definition comparable (a b : sort_key_t) : bool :=
  match key_cmp a b with
  | Some _ => true
  | None => false
  end.

(** [all_rows.sort(key=...)].  The keys are computed first, the first
    exception wins.  The sort then compares keys; two keys that cannot be
    compared are separated by no third key, so a sorting procedure has to
    compare them with each other and raises [TypeError]: the sort fails
    exactly when some pair of keys is not comparable, and otherwise
    returns the stable arrangement. *)
Definition sort_rows (rows : list row) : result (list row) :=
  keyed ← mapR (fun item => k ← sort_key item; Ok (k, item)) rows;
  if forallb (fun a => forallb (fun b => comparable a.1 b.1) keyed) keyed
  then Ok (map snd (stable_sort (fun a b => key_leb a.1 b.1) keyed))
  else Raise TypeError.

Definition fixed_headers : list string :=
  ["coin_rank"; "coin_id"; "coin_name"; "coin_symbol"; "source_file"].

Definition ingest_files `{Str : StrMethods}
    (files : list AssetFile) (symbol_to_coin : ranking)
  : merge_state :=
  fold_left (ingest_file symbol_to_coin) files
            {| all_rows := []; unmatched_files := []; base_headers := [] |}.

Definition build_merged_rows `{Str : StrMethods}
    (files : list AssetFile) (symbol_to_coin : ranking)
  : result (list string * list row * list string) :=
  let st := ingest_files files symbol_to_coin in
  sorted ← sort_rows (all_rows st);
  Ok (fixed_headers ++ base_headers st, sorted, unmatched_files st).

(* --------------------------------------------------------------------- *)
(** ** The run (l. 198-225) *)
(* --------------------------------------------------------------------- *)

(** One line of the output as [csv.DictWriter] writes it under
    [fieldnames=headers]: [None] and an absent key give the empty field. *)
Definition render_row (headers : list string) (r : row) : list string :=
  map (fun k => match r !! k with
                | Some (PyStr s) => s
                | _ => ""
                end) headers.

(** Lines 208-225 of [main]: what the run does once it holds a ranking
    map. *)
Definition merge_and_write `{Str : StrMethods} (input_files : list AssetFile)
    (symbol_to_coin : ranking) : M unit :=
  if decide (symbol_to_coin = ∅) then raise RuntimeError
  else
    '(headers, merged_rows, unmatched) ←
        lift (build_merged_rows input_files symbol_to_coin);
    emit (WriteCsv headers (map (render_row headers) merged_rows));;
    emit (PrintSummary (length input_files) (length merged_rows) unmatched).

Definition main `{Str : StrMethods}
    (net : nat -> reply) (unescape : string -> string)
    (raw_dir : list AssetFile) : M unit :=
  let input_files := list_input_files raw_dir in
  match input_files with
  | [] => raise FileNotFoundError
  | _ =>
      symbol_to_coin ← except_network (fetch_ranked_symbols net 10 250)
                                      (fetch_ranked_symbols_from_web net unescape 10);
      merge_and_write input_files symbol_to_coin
  end.

(* --------------------------------------------------------------------- *)
(** ** The ranking snapshot cleaner ([clean_coingecko_data.py]) *)
(* --------------------------------------------------------------------- *)

(** A cell of a data frame: a missing value ([NaN], [NaT]), a value read
    from the file (kept as its text), or a timestamp in nanoseconds since
    the epoch, without or with a time zone. *)
Inductive cell :=
| NA
| Text (s : string)
| Naive (ns : Z)
| Aware (ns : Z).

Inductive dtype :=
| ObjectDtype
| NumericDtype
| DatetimeDtype.

Global Instance cell_eq_dec : EqDecision cell.
Proof. solve_decision. Defined.
Global Instance dtype_eq_dec : EqDecision dtype.
Proof. solve_decision. Defined.

(** A data frame: its columns in order, each with the dtype pandas gave
    it, and its rows in order. *)
Record DataFrame := {
  columns : list (string * dtype);
  data : list (gmap string cell)
}.

Definition cell_at (r : gmap string cell) (k : string) : cell :=
  default NA (r !! k).

Definition has_column (df : DataFrame) (k : string) : bool :=
  bool_decide (k ∈ map fst (columns df)).

Definition isna (c : cell) : bool :=
  match c with
  | NA => true
  | _ => false
  end.

(** [df.dropna(subset=...)]. *)
Definition dropna (subset : list string) (df : DataFrame) : result DataFrame :=
  if forallb (has_column df) subset
  then Ok {| columns := columns df;
             data := List.filter
                       (fun r => forallb (fun k => negb (isna (cell_at r k))) subset)
                       (data df) |}
  else Raise KeyError.

(** [s.replace(old, "")]: every occurrence of [old], left to right. *)
Fixpoint starts_with (p s : string) : bool :=
  match p, s with
  | EmptyString, _ => true
  | String a p', String b s' => Ascii.eqb a b && starts_with p' s'
  | String _ _, EmptyString => false
  end.

Fixpoint remove_all_go (old : string) (skip : nat) (s : string) : string :=
  match s with
  | EmptyString => EmptyString
  | String c r =>
      match skip with
      | S k => remove_all_go old k r
      | O =>
          if starts_with old s
          then remove_all_go old (String.length old - 1) r
          else String c (remove_all_go old 0 r)
      end
  end.

Definition remove_all (old s : string) : string := remove_all_go old 0 s.

(** [series.str.replace(' UTC', '')] on the cells of one column. *)
Definition str_replace_utc (c : cell) : cell :=
  match c with
  | Text s => Text (remove_all " UTC" s)
  | _ => NA
  end.

(** [pd.Timestamp('2020-02-19')], in nanoseconds since the epoch. *)
Definition cutoff_date : Z := 1582070400 * 1000000000.

(** [value >= cutoff_date] for one cell of a converted column. *)
Definition ge_cutoff (c : cell) : result bool :=
  match c with
  | NA => Ok false
  | Naive t => Ok (cutoff_date <=? t)
  | Aware _ => Raise TypeError
  | Text _ => Raise TypeError
  end.

Section Cleaner.

(** [pd.to_datetime] on one text of a column: pandas chooses the format
    from the column as a whole, then reads each text; an unreadable
    text raises.  The reader itself is a library function. *)
Variable parse_datetime : list cell -> string -> result cell.

Definition to_datetime (column : list cell) : result (list cell) :=
  mapR (fun c => match c with
                 | Text s => parse_datetime column s
                 | NA => Ok NA
                 | t => Ok t
                 end) column.

(** Lines 33-49: the table written to the cleaned file. *)
Definition clean_coingecko_data (df : DataFrame) : result DataFrame :=
  df_clean ← dropna ["price"; "market_cap"; "total_volume"] df;
  dt ← match list_find (fun c => c.1 = "snapped_at") (columns df_clean) with
       | Some (_, (_, dt)) => Ok dt
       | None => Raise KeyError
       end;
  if negb (bool_decide (dt = ObjectDtype)) then Raise AttributeError
  else
    let texts := map (fun r => str_replace_utc (cell_at r "snapped_at"))
                     (data df_clean) in
    stamps ← to_datetime texts;
    let converted :=
      zip_with (fun r t => <["snapped_at" := t]> r) (data df_clean) stamps in
    keep ← mapR (fun r => ge_cutoff (cell_at r "snapped_at")) converted;
    Ok {| columns := map (fun c => if decide (c.1 = "snapped_at")
                                   then (c.1, DatetimeDtype) else c)
                         (columns df_clean);
          data := map fst (List.filter snd (zip converted keep)) |}.

End Cleaner.

(* --------------------------------------------------------------------- *)
(** ** Notions used to state the properties *)
(* --------------------------------------------------------------------- *)

(** The facts about [str.lower] and [str.strip] that make a normalised
    symbol a fixed point of both: each is idempotent and they commute. *)
Definition normalising `{Str : StrMethods} : Prop :=
  (forall s, lower (lower s) = lower s)
  /\ (forall s, strip (strip s) = strip s)
  /\ (forall s, lower (strip s) = strip (lower s)).

(** A key in normal form names its own entry: it is not empty, it is
    the [coin_symbol] of the entry, it is some text lowered and then
    stripped, and so (the two methods being [normalising]) lowering or
    stripping it again changes nothing. *)
Definition normal_entry `{Str : StrMethods}
    (s : string) (c : RankedCoin) : Prop :=
  s <> ""
  /\ coin_symbol c = s
  /\ (exists raw, s = strip (lower raw))
  /\ (normalising -> lower s = s /\ strip s = s).

(** What a ranking map built by an adapter satisfies: every key is in
    normal form and names its own entry. *)
Definition well_keyed `{Str : StrMethods} (m : ranking) : Prop :=
  forall s c, m !! s = Some c -> normal_entry s c.

(** The entry a record of the API listing stands for, if it has a symbol
    and a usable rank. *)
Definition api_record `{Str : StrMethods}
    (r : json_row) : option (string * RankedCoin) :=
  let symbol := strip (lower (get_str (j_symbol r))) in
  if decide (symbol = "") then None
  else
    match get_rank (j_market_cap_rank r) with
    | None => None
    | Some rank =>
        Some (symbol, {| coin_id := get_str (j_id r);
                         coin_name := get_str (j_name r);
                         coin_symbol := symbol;
                         coin_rank := py_str rank |})
    end.

(** The entry a scraped table row stands for, if both the rank cell and
    the symbol are found. *)
Definition web_record `{Str : StrMethods}
    (unescape : string -> string) (r : tr_match)
  : option (string * RankedCoin) :=
  match rank_group r, symbol_group r with
  | Some rank, Some symbol_text =>
      let symbol := strip (lower symbol_text) in
      if decide (symbol = "") then None
      else Some (symbol,
                 {| coin_id := "";
                    coin_name := match name_group r with
                                 | Some g => unescape (strip g)
                                 | None => ""
                                 end;
                    coin_symbol := symbol;
                    coin_rank := rank |})
  | _, _ => None
  end.

(** The first entry for [s] in a sequence of entries, in fetch order. *)
Definition first_seen (s : string) (entries : list (string * RankedCoin))
  : option RankedCoin :=
  snd <$> List.find (fun p => String.eqb p.1 s) entries.

(** Insert unless the key is taken. *)
Definition insert_new (m : ranking) (p : string * RankedCoin) : ranking :=
  if decide (is_Some (m !! p.1)) then m else <[p.1 := p.2]> m.

(** The replies the oracle gave between two worlds, in the order they
    were served. *)
Definition replies_between (net : nat -> reply) (w w' : world) : list reply :=
  map net (seq (served w) (served w' - served w)).

(** The records of a served reply as the primary path reads it: those of
    a JSON array of objects, none for any other reply. *)
Definition api_page (r : reply) : list json_row :=
  match r with
  | Body b =>
      match as_json b with
      | JRows rows => rows
      | _ => []
      end
  | _ => []
  end.

(** The table rows of a served reply as the fallback path reads it. *)
Definition web_page (r : reply) : list tr_match :=
  match r with
  | Body b => as_html b
  | _ => []
  end.

(** The first record of a listing whose symbol, once normalised, is
    [s], with or without a rank. *)
Definition first_record `{Str : StrMethods} (s : string) (rows : list json_row)
  : option json_row :=
  List.find (fun r => String.eqb (strip (lower (get_str (j_symbol r)))) s) rows.

(** What the retry loop of one page does, from the replies to its three
    attempts: its outcome, how many requests it made, and what it
    logged. *)
Definition retry_outcome (req : request) (r0 r1 r2 : reply)
  : result (option body) * nat * list event :=
  let one := [Request req] in
  let two := [Request req; Sleep 1500; Request req] in
  let three := [Request req; Sleep 1500; Request req; Sleep 3000; Request req] in
  match r0 with
  | Body b => (Ok (Some b), 1%nat, one)
  | OtherFail => (Raise OtherError, 1%nat, one)
  | NetFail =>
      match r1 with
      | Body b => (Ok (Some b), 2%nat, two)
      | OtherFail => (Raise OtherError, 2%nat, two)
      | NetFail =>
          match r2 with
          | Body b => (Ok (Some b), 3%nat, three)
          | OtherFail => (Raise OtherError, 3%nat, three)
          | NetFail => (Raise NetworkError, 3%nat, three)
          end
      end
  end.

Definition is_request (e : event) : bool :=
  match e with
  | Request _ => true
  | _ => false
  end.

(** *** The merge engine *)

(** The order of the sort keys: [a] does not come after [b].  It relates
    only keys that Python can compare. *)
Definition key_le (a b : sort_key_t) : Prop :=
  key_cmp a b = Some Lt \/ key_cmp a b = Some Eq.

(** A list of rows is sorted by the composite key: every row has a key
    and the keys are in order, each one against all the later ones. *)
Definition rows_sorted (rows : list row) : Prop :=
  exists keys, mapR sort_key rows = Ok keys /\ StronglySorted key_le keys.

(** The entry used for a file: the one of its symbol, or the
    placeholder. *)
Definition coin_meta_of `{Str : StrMethods}
    (m : ranking) (f : AssetFile) : RankedCoin :=
  match m !! parse_symbol_from_filename (name f) with
  | Some c => c
  | None => placeholder (parse_symbol_from_filename (name f))
  end.

Definition matched `{Str : StrMethods} (m : ranking) (f : AssetFile) : bool :=
  bool_decide (is_Some (m !! parse_symbol_from_filename (name f))).

(** The merged rows of one file under the schema [bh]. *)
Definition file_rows `{Str : StrMethods}
    (m : ranking) (bh : list string) (f : AssetFile) : list row :=
  map (merged_row (coin_meta_of m f) (name f) bh) (dict_rows f).

(** The schema in force once [f] is opened, [bh] being the one before. *)
Definition next_headers (bh : list string) (f : AssetFile) : list string :=
  match bh with
  | [] => default [] (fieldnames f)
  | h => h
  end.

(** The rows ingested from a list of files, in ingestion order. *)
Fixpoint rows_from `{Str : StrMethods}
    (m : ranking) (bh : list string) (files : list AssetFile)
  : list row :=
  match files with
  | [] => []
  | f :: fs =>
      file_rows m (next_headers bh f) f ++ rows_from m (next_headers bh f) fs
  end.

Fixpoint headers_from (bh : list string) (files : list AssetFile) : list string :=
  match files with
  | [] => bh
  | f :: fs => headers_from (next_headers bh f) fs
  end.

(** The header line of the first file that has a non-empty one. *)
Fixpoint first_headers (files : list AssetFile) : list string :=
  match files with
  | [] => []
  | f :: fs =>
      match default [] (fieldnames f) with
      | [] => first_headers fs
      | h => h
      end
  end.

(** No data record of the file is shorter than its header line. *)
Definition no_short_record (f : AssetFile) : Prop :=
  match records f with
  | [] => True
  | fields :: rest =>
      Forall (fun r => r = [] \/ (length fields <= length r)%nat) rest
  end.

(** The key of a row whose key can be computed. *)
Definition key_of (r : row) : sort_key_t :=
  match sort_key r with
  | Ok k => k
  | Raise _ => (0, PyNone, PyNone)
  end.

Definition keyed (rows : list row) : list (sort_key_t * row) :=
  map (fun r => (key_of r, r)) rows.

Definition keyed_leb (a b : sort_key_t * row) : bool := key_leb a.1 b.1.

(** [r] is a merged row of the file [f], built under the empty schema or
    under [bh]. *)
Definition row_of `{Str : StrMethods}
    (m : ranking) (bh : list string) (f : AssetFile) (r : row) : Prop :=
  exists r0 bh',
    In r0 (dict_rows f) /\ (bh' = [] \/ bh' = bh)
    /\ r = merged_row (coin_meta_of m f) (name f) bh' r0.

(** The final output of a successful merge: the header and the lines as
    they are written under it. *)
Definition written (r : result (list string * list row * list string))
  : option (list string * list (list string)) :=
  match r with
  | Ok (headers, rows, _) => Some (headers, map (render_row headers) rows)
  | Raise _ => None
  end.

(** *** The cleaner *)

(** [r_out] is the row [r_in] as it survives the cleaner: its
    [snapped_at] text, once the [" UTC"] marker is removed, was read as
    the zone-less timestamp [t], which is not before the cutoff, and the
    cell now holds [t]; the other cells are unchanged. *)
Definition survives (parse_datetime : list cell -> string -> result cell)
    (column : list cell) (r_in r_out : gmap string cell) : Prop :=
  exists s t,
    cell_at r_in "snapped_at" = Text s
    /\ parse_datetime column (remove_all " UTC" s) = Ok (Naive t)
    /\ cutoff_date <= t
    /\ r_out = <["snapped_at" := Naive t]> r_in.

Definition required_columns : list string := ["price"; "market_cap"; "total_volume"].

Definition complete (r : gmap string cell) : Prop :=
  forall k, In k required_columns -> cell_at r k <> NA.

(** Two elements that a comparison orders one way only. *)
Definition strictly_ordered {A} (leb : A -> A -> bool) (a b : A) : Prop :=
  leb a b = negb (leb b a).

(** What [to_datetime] does with one cell of the column. *)
Definition read_cell (parse_datetime : list cell -> string -> result cell)
    (column : list cell) (c : cell) : result cell :=
  match c with
  | Text s => parse_datetime column s
  | NA => Ok NA
  | t => Ok t
  end.

(** The row with its [snapped_at] cell replaced. *)
Definition put_stamp (r : gmap string cell) (t : cell) : gmap string cell :=
  <["snapped_at" := t]> r.

(* --------------------------------------------------------------------- *)
(** ** Sample inputs *)
(* --------------------------------------------------------------------- *)

Definition api_row (symbol : string) (rank : jvalue) (id nm : string) : json_row :=
  {| j_symbol := Some (JStr symbol);
     j_market_cap_rank := Some rank;
     j_id := Some (JStr id);
     j_name := Some (JStr nm) |}.

Definition json_body (d : json_doc) : body := {| as_json := d; as_html := [] |}.

(** A page of markup is no JSON text. *)
Definition html_body (rows : list tr_match) : body :=
  {| as_json := JInvalid; as_html := rows |}.

Definition web_row (rank symbol nm : string) : tr_match :=
  {| rank_group := Some rank; symbol_group := Some symbol; name_group := Some nm |}.

(** Two pages of the listing with repeated symbols, then an empty page. *)
Definition sample_api_net (n : nat) : reply :=
  match n with
  | 0%nat => Body (json_body (JRows [api_row "BTC" (JInt 1) "bitcoin" "Bitcoin";
                                     api_row "eth" (JInt 2) "ethereum" "Ethereum";
                                     api_row " btc " (JInt 7) "batcat" "BatCat"]))
  | 1%nat => Body (json_body (JRows [api_row "xrp" JNull "ripple-old" "XRP old";
                                     api_row "ETH" (JInt 9) "ethereum-wormhole" "Ethereum (Wormhole)";
                                     api_row "xrp" (JInt 3) "ripple" "XRP"]))
  | _ => Body (json_body (JRows []))
  end.

(** A page of the listing with records that have no rank. *)
Definition null_rank_api_net (n : nat) : reply :=
  match n with
  | 0%nat => Body (json_body (JRows [api_row "xrp" JNull "ripple-old" "XRP old";
                                     api_row "ada" JNull "cardano" "Cardano";
                                     api_row "xrp" (JInt 3) "ripple" "XRP"]))
  | _ => Body (json_body (JRows []))
  end.

(** Two scraped pages; the second one brings nothing new. *)
Definition sample_web_net (n : nat) : reply :=
  match n with
  | 0%nat => Body (html_body [web_row "1" "BTC" " Bitcoin ";
                              {| rank_group := None; symbol_group := Some "eth";
                                 name_group := None |};
                              web_row "2" "ETH" "Ethereum"])
  | _ => Body (html_body [web_row "5" "btc" "Other"])
  end.

Definition sample_btc_file : AssetFile :=
  {| name := "btc-usd-max.csv";
     records := [["snapped_at"; "price"; "market_cap"; "total_volume"];
                 ["2020-01-02 00:00:00 UTC"; "7200.1"; "130000000"; "20000"];
                 ["2020-01-01 00:00:00 UTC"; "7100.5"; "129000000"; "19000"]] |}.

Definition sample_xrp_file : AssetFile :=
  {| name := "xrp-usd-max.csv";
     records := [["snapped_at"; "price"; "market_cap"; "total_volume"];
                 ["2020-01-01 00:00:00 UTC"; "0.19"; "8000000"; "900"]] |}.

(** A directory without any file of the expected name. *)
Definition sample_other_dir : list AssetFile :=
  [{| name := "README.md"; records := [] |};
   {| name := "btc-eur-max.csv"; records := [["snapped_at"]] |}].

(** The listing answers its first page with an empty array; the site
    would serve a page with one coin. *)
Definition empty_api_net (n : nat) : reply :=
  match n with
  | 0%nat => Body (json_body (JRows []))
  | _ => Body (html_body [web_row "1" "BTC" "Bitcoin"])
  end.

(** The listing cannot be reached; the site serves one page with a coin,
    then pages without any table row. *)
Definition api_down_net (n : nat) : reply :=
  match n with
  | 0%nat | 1%nat | 2%nat => NetFail
  | 3%nat => Body (html_body [web_row "1" "BTC" "Bitcoin"])
  | _ => Body (html_body [])
  end.

(** Every page of the site comes without any table row. *)
Definition blank_web_net (n : nat) : reply := Body (html_body []).

(** Neither the listing nor the site can be reached. *)
Definition all_down_net (n : nat) : reply := NetFail.

Definition coin (id nm symbol rank : string) : RankedCoin :=
  {| coin_id := id; coin_name := nm; coin_symbol := symbol; coin_rank := rank |}.

Definition sample_ranking : ranking :=
  <["btc" := coin "bitcoin" "Bitcoin" "btc" "1"]>
    (<["eth" := coin "ethereum" "Ethereum" "eth" "2"]> ∅).

(** A file whose header line has one more column. *)
Definition sample_eth_file : AssetFile :=
  {| name := "eth-usd-max.csv";
     records := [["snapped_at"; "price"; "market_cap"; "total_volume"; "note"];
                 ["2020-01-01 00:00:00 UTC"; "130.2"; "14000000"; "7000"; "x"]] |}.

(** Names that differ by case only give the same symbol. *)
Definition sample_btc_upper_file : AssetFile :=
  {| name := "BTC-usd-max.csv";
     records := [["snapped_at"; "price"; "market_cap"; "total_volume"];
                 ["2020-01-01 00:00:00 UTC"; "7100.9"; "129000001"; "19001"]] |}.

(** A file without any line. *)
Definition sample_empty_file : AssetFile :=
  {| name := "ada-usd-max.csv"; records := [] |}.

(** Files that bring a column named like a fixed one. *)
Definition sample_btc_ranked_file : AssetFile :=
  {| name := "btc-usd-max.csv";
     records := [["snapped_at"; "coin_rank"]; ["2020-01-01"; "5"]] |}.

Definition sample_xrp_ranked_file : AssetFile :=
  {| name := "xrp-usd-max.csv";
     records := [["snapped_at"; "coin_rank"]; ["2020-01-01"; "3"]] |}.

(** A file that brings a column named [source_file]. *)
Definition sample_tagged_file : AssetFile :=
  {| name := "btc-usd-max.csv";
     records := [["snapped_at"; "source_file"]; ["2020-01-01"; "elsewhere.csv"]] |}.

(** A ranking in which a coin has a rank beyond the sentinel. *)
Definition sample_far_ranking : ranking :=
  <["btc" := coin "bitcoin" "Bitcoin" "btc" "1000000"]> ∅.

(** *** A sample reader of timestamps

    It reads the layout of the CoinGecko export, [YYYY-MM-DD hh:mm:ss]
    or [YYYY-MM-DD], and stands for [pd.to_datetime] in the examples. *)
Fixpoint all_digits (acc : Z) (s : string) : option Z :=
  match s with
  | EmptyString => Some acc
  | String c r =>
      match digit_of c with
      | Some d => all_digits (10 * acc + d) r
      | None => None
      end
  end.

Definition number_at (start len : nat) (s : string) : option Z :=
  all_digits 0 (substring start len s).

(** Days from 1970-01-01 to the given day of the Gregorian calendar. *)
Definition days_from_civil (y mth d : Z) : Z :=
  let y' := if mth <=? 2 then y - 1 else y in
  let era := y' / 400 in
  let yoe := y' - era * 400 in
  let doy := (153 * (if 2 <? mth then mth - 3 else mth + 9) + 2) / 5 + d - 1 in
  let doe := yoe * 365 + yoe / 4 - yoe / 100 + doy in
  era * 146097 + doe - 719468.

Definition sample_parse_datetime (column : list cell) (s : string) : result cell :=
  let date_ok := String.eqb (substring 4 1 s) "-" && String.eqb (substring 7 1 s) "-" in
  let time_ok := String.eqb (substring 10 1 s) " " && String.eqb (substring 13 1 s) ":"
                 && String.eqb (substring 16 1 s) ":" in
  match number_at 0 4 s, number_at 5 2 s, number_at 8 2 s with
  | Some y, Some mth, Some d =>
      if negb date_ok then Raise ValueError
      else if Nat.eqb (String.length s) 10
      then Ok (Naive (days_from_civil y mth d * 86400 * 1000000000))
      else if Nat.eqb (String.length s) 19 && time_ok
      then match number_at 11 2 s, number_at 14 2 s, number_at 17 2 s with
           | Some h, Some mi, Some sec =>
               Ok (Naive ((days_from_civil y mth d * 86400 + h * 3600 + mi * 60 + sec)
                          * 1000000000))
           | _, _, _ => Raise ValueError
           end
      else Raise ValueError
  | _, _, _ => Raise ValueError
  end.

Definition snapshot_row (snapped_at : string) (price market_cap volume : cell)
  : gmap string cell :=
  <["snapped_at" := Text snapped_at]>
    (<["price" := price]>
       (<["market_cap" := market_cap]>
          (<["total_volume" := volume]> ∅))).

Definition sample_snapshot : DataFrame :=
  {| columns := [("snapped_at", ObjectDtype); ("price", NumericDtype);
                 ("market_cap", NumericDtype); ("total_volume", NumericDtype)];
     data := [snapshot_row "2019-12-31 00:00:00 UTC" (Text "7200.1") (Text "1.3e11")
                           (Text "2.0e10");
              snapshot_row "2020-02-19 00:00:00 UTC" (Text "9600.0") (Text "1.7e11")
                           (Text "4.4e10");
              snapshot_row "2021-05-01 00:00:00 UTC" NA (Text "1.0e12") (Text "5.0e10");
              snapshot_row "2021-05-02 00:00:00 UTC" (Text "56600.2") (Text "1.1e12")
                           (Text "3.9e10")] |}.

(* --------------------------------------------------------------------- *)
(** ** Further notions: inventory, traces, written output *)
(* --------------------------------------------------------------------- *)

(** The comparison [list_input_files] sorts by. *)
Definition name_leb `{Str : StrMethods} (a b : AssetFile) : bool :=
  String.leb (lower (name a)) (lower (name b)).

(** The files of a directory whose name matches [*-usd-max.csv]. *)
Definition matching (raw_dir : list AssetFile) : list AssetFile :=
  List.filter (fun f => ends_with suffix (name f)) raw_dir.

(** The events by which the run produces output. *)
Definition is_output (e : event) : bool :=
  match e with
  | WriteCsv _ _ | PrintSummary _ _ _ => true
  | _ => false
  end.

(** The requests of a trace, in order. *)
Definition requests_of (evs : list event) : list request :=
  omap (fun e => match e with
                 | Request r => Some r
                 | _ => None
                 end) evs.

(** Requests for the given pages, in order, page [p] being asked [c]
    times in a row, [c] its count. *)
Definition repeated_requests (mk : Z -> request) (pages : list Z) (counts : list nat)
  : list request :=
  concat (zip_with (fun p c => replicate c (mk p)) pages counts).

(** The events the primary path may log for one page size. *)
Definition api_event (per_page : Z) (e : event) : Prop :=
  (exists p, e = Request (ApiGet p per_page)) \/ e = Sleep 1500 \/ e = Sleep 3000.

(** The test [dropna] makes on a row of the ranking snapshot. *)
Definition complete_b (r : gmap string cell) : bool :=
  forallb (fun k => negb (isna (cell_at r k))) required_columns.

(** The [snapped_at] column handed to the timestamp reader: the cells of
    the rows [dropna] keeps, the [" UTC"] marker removed. *)
Definition stamp_texts (df : DataFrame) : list cell :=
  map (fun r => str_replace_utc (cell_at r "snapped_at"))
      (List.filter complete_b (data df)).

(** What becomes of one row whose [snapped_at] cell was read as [c]. *)
Definition stamped (r : gmap string cell) (c : result cell)
  : option (gmap string cell) :=
  match c with
  | Ok (Naive t) => if cutoff_date <=? t then Some (put_stamp r (Naive t)) else None
  | _ => None
  end.

(** What becomes of one row of the snapshot, [column] being the column
    handed to the timestamp reader. *)
Definition cleaned_row (parse_datetime : list cell -> string -> result cell)
    (column : list cell) (r : gmap string cell) : option (gmap string cell) :=
  if complete_b r
  then stamped r (read_cell parse_datetime column
                            (str_replace_utc (cell_at r "snapped_at")))
  else None.

(** A string without a blank of [int()]. *)
Fixpoint no_blank (s : string) : bool :=
  match s with
  | EmptyString => true
  | String c r => negb (is_int_space c) && no_blank r
  end.

(** A snapshot whose [snapped_at] column pandas read as numbers. *)
Definition sample_numeric_snapshot : DataFrame :=
  {| columns := [("snapped_at", NumericDtype); ("price", NumericDtype);
                 ("market_cap", NumericDtype); ("total_volume", NumericDtype)];
     data := [] |}.

Global Instance pyval_eq_dec : EqDecision pyval.
Proof. solve_decision. Defined.

(** The rows of a list whose sort key is [k], in their order. *)
Definition with_key (k : sort_key_t) (rows : list row) : list row :=
  List.filter (fun r => bool_decide (key_of r = k)) rows.

(* --------------------------------------------------------------------- *)
(** ** An instance for the examples: ASCII text *)
(* --------------------------------------------------------------------- *)

(** On ASCII text [str.lower] and [str.strip] are the two functions
    below.  The sample inputs are ASCII, and every closed example of this
    file is computed with this instance; the general properties are
    stated for an arbitrary [StrMethods]. *)

(** Lowering the ASCII letters; the bytes of other characters are kept. *)
Definition ascii_lower_char (c : ascii) : ascii :=
  if (65 <=? ascii_code c) && (ascii_code c <=? 90)
  then ascii_of_N (N_of_ascii c + 32)
  else c.

Fixpoint ascii_lower (s : string) : string :=
  match s with
  | EmptyString => EmptyString
  | String c r => String (ascii_lower_char c) (ascii_lower r)
  end.

(** The ASCII characters for which [str.isspace] holds: TAB, LF, VT, FF,
    CR, the separators FS, GS, RS, US, and the space. *)
Definition ascii_is_space (c : ascii) : bool :=
  ((9 <=? ascii_code c) && (ascii_code c <=? 13))
  || ((28 <=? ascii_code c) && (ascii_code c <=? 32)).

Fixpoint ascii_lstrip (s : string) : string :=
  match s with
  | EmptyString => EmptyString
  | String c r => if ascii_is_space c then ascii_lstrip r else s
  end.

Fixpoint ascii_rstrip (s : string) : string :=
  match s with
  | EmptyString => EmptyString
  | String c r =>
      match ascii_rstrip r with
      | EmptyString => if ascii_is_space c then EmptyString else String c EmptyString
      | r' => String c r'
      end
  end.

(** Removing the ASCII blanks at both ends. *)
Definition ascii_strip (s : string) : string := ascii_rstrip (ascii_lstrip s).

Global Instance ascii_methods : StrMethods :=
  {| lower := ascii_lower; strip := ascii_strip |}.

(* ===================================================================== *)
(** * Properties *)
(* ===================================================================== *)

(* --------------------------------------------------------------------- *)
(** ** The ASCII instance: [ascii_lower] and [ascii_strip] *)
(* --------------------------------------------------------------------- *)

Lemma ascii_is_space_lower_char c : ascii_is_space (ascii_lower_char c) = ascii_is_space c.
Proof. destruct c as [[] [] [] [] [] [] [] []]; reflexivity. Qed.

Lemma ascii_lower_char_idem c : ascii_lower_char (ascii_lower_char c) = ascii_lower_char c.
Proof. destruct c as [[] [] [] [] [] [] [] []]; reflexivity. Qed.

Lemma ascii_lower_idem s : ascii_lower (ascii_lower s) = ascii_lower s.
Proof.
  induction s as [|c r IH]; simpl; [reflexivity|].
  now rewrite ascii_lower_char_idem, IH.
Qed.

Lemma ascii_lower_lstrip s : ascii_lower (ascii_lstrip s) = ascii_lstrip (ascii_lower s).
Proof.
  induction s as [|c r IH]; simpl; [reflexivity|].
  rewrite ascii_is_space_lower_char. destruct (ascii_is_space c); [exact IH | reflexivity].
Qed.

Lemma ascii_lower_rstrip s : ascii_lower (ascii_rstrip s) = ascii_rstrip (ascii_lower s).
Proof.
  induction s as [|c r IH]; simpl; [reflexivity|].
  rewrite <- IH, ascii_is_space_lower_char.
  destruct (ascii_rstrip r) as [|a t]; simpl; [|reflexivity].
  destruct (ascii_is_space c); reflexivity.
Qed.

Lemma ascii_lower_strip s : ascii_lower (ascii_strip s) = ascii_strip (ascii_lower s).
Proof. unfold ascii_strip. now rewrite ascii_lower_rstrip, ascii_lower_lstrip. Qed.

Lemma ascii_lstrip_length s : (String.length (ascii_lstrip s) <= String.length s)%nat.
Proof.
  induction s as [|c r IH]; simpl; [lia|].
  destruct (ascii_is_space c); simpl; lia.
Qed.

Lemma ascii_lstrip_idem s : ascii_lstrip (ascii_lstrip s) = ascii_lstrip s.
Proof.
  induction s as [|c r IH]; simpl; [reflexivity|].
  destruct (ascii_is_space c) eqn:E; [exact IH|]. simpl. now rewrite E.
Qed.

Lemma ascii_rstrip_idem s : ascii_rstrip (ascii_rstrip s) = ascii_rstrip s.
Proof.
  induction s as [|c r IH]; simpl; [reflexivity|].
  destruct (ascii_rstrip r) as [|a t] eqn:E.
  - destruct (ascii_is_space c) eqn:Ec; simpl; [reflexivity|]. now rewrite Ec.
  - change (ascii_rstrip (String c (String a t))) with
      (match ascii_rstrip (String a t) with
       | EmptyString => if ascii_is_space c then EmptyString else String c EmptyString
       | r' => String c r'
       end).
    now rewrite IH.
Qed.

Lemma ascii_lstrip_rstrip_fixed s : ascii_lstrip s = s -> ascii_lstrip (ascii_rstrip s) = ascii_rstrip s.
Proof.
  destruct s as [|c r]; simpl; [reflexivity|].
  destruct (ascii_is_space c) eqn:Ec.
  - intros H. pose proof (ascii_lstrip_length r) as L. rewrite H in L. simpl in L. lia.
  - intros _. destruct (ascii_rstrip r); simpl; now rewrite Ec.
Qed.

Lemma ascii_strip_idem s : ascii_strip (ascii_strip s) = ascii_strip s.
Proof.
  unfold ascii_strip.
  rewrite (ascii_lstrip_rstrip_fixed (ascii_lstrip s)) by apply ascii_lstrip_idem.
  apply ascii_rstrip_idem.
Qed.

(** A symbol normalised with the two functions is a fixed point of
    both. *)
Lemma ascii_normalised_symbol_fixed x :
  ascii_lower (ascii_strip (ascii_lower x)) = ascii_strip (ascii_lower x)
  /\ ascii_strip (ascii_strip (ascii_lower x)) = ascii_strip (ascii_lower x).
Proof.
  split; [|apply ascii_strip_idem].
  now rewrite ascii_lower_strip, ascii_lower_idem.
Qed.

(** The ASCII instance has the three properties of [normalising]. *)
Lemma ascii_normalising : @normalising ascii_methods.
Proof.
  split; [exact ascii_lower_idem|]. split; [exact ascii_strip_idem|].
  exact ascii_lower_strip.
Qed.

(* --------------------------------------------------------------------- *)
(** ** The ranking map: first entry wins, keys in normal form *)
(* --------------------------------------------------------------------- *)

Lemma ingest_api_row_insert_new `{Str : StrMethods} m r :
  ingest_api_row m r = match api_record r with
                       | Some p => insert_new m p
                       | None => m
                       end.
Proof.
  unfold ingest_api_row, api_record, insert_new.
  destruct (decide (strip (lower (get_str (j_symbol r))) = "")); [reflexivity|].
  destruct (get_rank (j_market_cap_rank r)); simpl.
  - destruct (decide (is_Some _)); reflexivity.
  - destruct (decide (is_Some _)); reflexivity.
Qed.

Lemma ingest_api_rows_insert_new `{Str : StrMethods} rows : forall m,
  ingest_api_rows m rows = fold_left insert_new (omap api_record rows) m.
Proof.
  unfold ingest_api_rows.
  induction rows as [|r rows IH]; intros m; simpl; [reflexivity|].
  rewrite IH, ingest_api_row_insert_new.
  destruct (api_record r); reflexivity.
Qed.

Lemma ingest_web_row_insert_new `{Str : StrMethods} unescape m k r :
  ingest_web_row unescape (m, k) r
  = match web_record unescape r with
    | Some p => if decide (is_Some (m !! p.1)) then (m, k)
                else (insert_new m p, k + 1)
    | None => (m, k)
    end.
Proof.
  unfold ingest_web_row, web_record, insert_new.
  destruct (rank_group r); [|reflexivity].
  destruct (symbol_group r); [|reflexivity].
  destruct (decide (strip (lower _) = "")); [reflexivity|]. simpl.
  destruct (decide (is_Some _)); reflexivity.
Qed.

Lemma ingest_web_rows_fst `{Str : StrMethods} unescape rows : forall m k,
  (fold_left (ingest_web_row unescape) rows (m, k)).1
  = fold_left insert_new (omap (web_record unescape) rows) m.
Proof.
  induction rows as [|r rows IH]; intros m k; cbn [fold_left omap list_omap]; [reflexivity|].
  rewrite ingest_web_row_insert_new.
  destruct (web_record unescape r) as [p|]; cbn [fold_left]; [|apply IH].
  destruct (decide (is_Some (m !! p.1))) as [Hs|Hs]; rewrite IH; [|reflexivity].
  replace (insert_new m p) with m; [reflexivity|].
  unfold insert_new. destruct (decide (is_Some (m !! p.1))); [reflexivity|contradiction].
Qed.

Lemma ingest_web_rows_insert_new `{Str : StrMethods} unescape m rows :
  (ingest_web_rows unescape m rows).1
  = fold_left insert_new (omap (web_record unescape) rows) m.
Proof. apply ingest_web_rows_fst. Qed.

(** An entry already present survives any further insertion. *)
Lemma insert_new_keeps m p s c :
  m !! s = Some c -> insert_new m p !! s = Some c.
Proof.
  intros H. unfold insert_new.
  destruct (decide (is_Some (m !! p.1))) as [|Hn]; [exact H|].
  rewrite lookup_insert_ne; [exact H|].
  intros E. apply Hn. rewrite E, H. eauto.
Qed.

Lemma fold_insert_new_keeps l : forall m s c,
  m !! s = Some c -> fold_left insert_new l m !! s = Some c.
Proof.
  induction l as [|p l IH]; intros m s c H; simpl; [exact H|].
  apply IH, insert_new_keeps, H.
Qed.

Lemma fold_insert_new_lookup l : forall m s,
  fold_left insert_new l m !! s
  = match m !! s with
    | Some c => Some c
    | None => first_seen s l
    end.
Proof.
  induction l as [|[k v] l IH]; intros m s; simpl.
  - unfold first_seen. simpl. now destruct (m !! s).
  - rewrite IH. unfold insert_new, first_seen. simpl.
    destruct (decide (is_Some (m !! k))) as [Hk|Hk].
    + destruct (m !! s) eqn:Es; [reflexivity|].
      destruct (String.eqb_spec k s) as [->|]; [|reflexivity].
      rewrite Es in Hk. now destruct Hk.
    + destruct (String.eqb_spec k s) as [->|Hne].
      * rewrite lookup_insert_eq. simpl.
        destruct (m !! s) eqn:Es; [|reflexivity].
        exfalso. apply Hk. eauto.
      * rewrite lookup_insert_ne by exact Hne. reflexivity.
Qed.

Lemma fold_insert_new_app l1 l2 m :
  fold_left insert_new (l1 ++ l2) m = fold_left insert_new l2 (fold_left insert_new l1 m).
Proof. apply fold_left_app. Qed.

(** *** Keys in normal form *)

Lemma normal_form_fixed `{Str : StrMethods} raw :
  normalising ->
  lower (strip (lower raw)) = strip (lower raw)
  /\ strip (strip (lower raw)) = strip (lower raw).
Proof.
  intros (Hl & Hs & Hc). split; [|apply Hs]. now rewrite Hc, Hl.
Qed.

Lemma normal_entry_intro `{Str : StrMethods} raw c :
  strip (lower raw) <> "" ->
  coin_symbol c = strip (lower raw) ->
  normal_entry (strip (lower raw)) c.
Proof.
  intros Hne Hc. split; [exact Hne|]. split; [exact Hc|].
  split; [now exists raw|]. apply normal_form_fixed.
Qed.

Lemma well_keyed_empty `{Str : StrMethods} : well_keyed ∅.
Proof. intros s c H0. rewrite lookup_empty in H0. discriminate. Qed.

Lemma well_keyed_insert_new `{Str : StrMethods} m p :
  well_keyed m -> normal_entry p.1 p.2 -> well_keyed (insert_new m p).
Proof.
  intros Hm Hp s c. unfold insert_new.
  destruct (decide (is_Some (m !! p.1))); [apply Hm|].
  destruct (decide (p.1 = s)) as [<-|Hne].
  - rewrite lookup_insert_eq. intros [= <-]. exact Hp.
  - rewrite lookup_insert_ne by exact Hne. apply Hm.
Qed.

Lemma api_record_normal `{Str : StrMethods} r p :
  api_record r = Some p -> normal_entry p.1 p.2.
Proof.
  unfold api_record.
  destruct (decide (strip (lower (get_str (j_symbol r))) = "")) as [|Hne]; [discriminate|].
  destruct (get_rank (j_market_cap_rank r)); [|discriminate].
  intros [= <-]. now apply normal_entry_intro.
Qed.

Lemma web_record_normal `{Str : StrMethods} unescape r p :
  web_record unescape r = Some p -> normal_entry p.1 p.2.
Proof.
  unfold web_record.
  destruct (rank_group r); [|discriminate].
  destruct (symbol_group r) as [t|]; [|discriminate].
  destruct (decide (strip (lower t) = "")) as [|Hne]; [discriminate|].
  intros [= <-]. now apply normal_entry_intro.
Qed.

Lemma well_keyed_fold `{Str : StrMethods}
    (l : list (string * RankedCoin)) : forall m,
  well_keyed m ->
  Forall (fun p => normal_entry p.1 p.2) l ->
  well_keyed (fold_left insert_new l m).
Proof.
  induction l as [|p l IH]; intros m Hm Hl; simpl; [exact Hm|].
  inversion Hl; subst. apply IH; [|assumption].
  now apply well_keyed_insert_new.
Qed.

Lemma omap_Forall {A B} (f : A -> option B) (P : B -> Prop) (l : list A) :
  (forall a b, f a = Some b -> P b) -> Forall P (omap f l).
Proof.
  intros H. induction l as [|a l IH]; simpl; [constructor|].
  destruct (f a) eqn:E; [constructor; eauto | exact IH].
Qed.

Lemma well_keyed_api `{Str : StrMethods} m rows :
  well_keyed m -> well_keyed (ingest_api_rows m rows).
Proof.
  intros Hm. rewrite ingest_api_rows_insert_new.
  apply well_keyed_fold; [exact Hm|].
  apply omap_Forall. apply api_record_normal.
Qed.

Lemma well_keyed_web `{Str : StrMethods} unescape m rows :
  well_keyed m -> well_keyed (ingest_web_rows unescape m rows).1.
Proof.
  intros Hm. rewrite ingest_web_rows_insert_new.
  apply well_keyed_fold; [exact Hm|].
  apply omap_Forall. apply web_record_normal.
Qed.

(* --------------------------------------------------------------------- *)
(** ** Requests, retries and the two page loops *)
(* --------------------------------------------------------------------- *)

Section Fetch.

Variable net : nat -> reply.
Variable unescape : string -> string.

Lemma request_text_run req w :
  _request_text net req w
  = (match net (served w) with
     | Body b => Ok b
     | NetFail => Raise NetworkError
     | OtherFail => Raise OtherError
     end,
     {| served := S (served w); trace := trace w ++ [Request req] |}).
Proof. unfold _request_text. destruct (net (served w)); reflexivity. Qed.

(** The retry loop, run on the three attempts of [range(3)]. *)
Lemma request_attempts_run req w :
  request_attempts net req (py_range 0 3) w
  = let '(r, n, evs) :=
      retry_outcome req (net (served w)) (net (S (served w)))
                    (net (S (S (served w)))) in
    (r, {| served := n + served w; trace := trace w ++ evs |}).
Proof.
  change (py_range 0 3) with [0; 1; 2].
  unfold retry_outcome.
  cbn [request_attempts]. unfold mbind, M_bind, bind, sleep, emit.
  change (0 =? 2) with false. change (1 =? 2) with false.
  change (1500 * (0 + 1)) with 1500. change (1500 * (1 + 1)) with 3000.
  rewrite request_text_run.
  destruct (net (served w)); cbn [served trace]; try reflexivity.
  rewrite request_text_run; cbn [served trace].
  destruct (net (S (served w))); rewrite <- ?app_assoc; try reflexivity.
  rewrite request_text_run; cbn [served trace].
  destruct (net (S (S (served w)))); rewrite <- ?app_assoc; reflexivity.
Qed.

Lemma request_attempts_ok req w p w' :
  request_attempts net req (py_range 0 3) w = (Ok p, w') ->
  (served w < served w')%nat
  /\ exists n b, p = Some b /\ (served w <= n < served w')%nat /\ net n = Body b.
Proof.
  rewrite request_attempts_run. unfold retry_outcome.
  destruct (net (served w)) eqn:E0.
  - intros [= <- <-]. cbn. split; [lia|]. exists (served w), b. repeat split; auto; lia.
  - destruct (net (S (served w))) eqn:E1.
    + intros [= <- <-]. cbn. split; [lia|].
      exists (S (served w)), b. repeat split; auto; lia.
    + destruct (net (S (S (served w)))) eqn:E2; try discriminate.
      intros [= <- <-]. cbn. split; [lia|].
      exists (S (S (served w))), b. repeat split; auto; lia.
    + discriminate.
  - discriminate.
Qed.

Lemma replies_between_nil w : replies_between net w w = [].
Proof. unfold replies_between. now rewrite Nat.sub_diag. Qed.

Lemma replies_between_app w w1 w2 :
  (served w <= served w1)%nat -> (served w1 <= served w2)%nat ->
  replies_between net w w2 = replies_between net w w1 ++ replies_between net w1 w2.
Proof.
  intros H1 H2. unfold replies_between. rewrite <- map_app. f_equal.
  replace (served w2 - served w)%nat
    with ((served w1 - served w) + (served w2 - served w1))%nat by lia.
  rewrite seq_app. do 2 f_equal. lia.
Qed.

Lemma replies_between_step w tr :
  replies_between net w {| served := S (served w); trace := tr |}
  = [net (served w)].
Proof.
  unfold replies_between. cbn [served].
  replace (S (served w) - served w)%nat with 1%nat by lia. reflexivity.
Qed.

(** The retry loop of one page, when it obtains a body: the replies it
    was served are network failures followed by that body. *)
Lemma request_attempts_served req w p w' :
  request_attempts net req (py_range 0 3) w = (Ok p, w') ->
  (served w < served w')%nat
  /\ exists b, p = Some b
               /\ concat (map api_page (replies_between net w w')) = api_page (Body b).
Proof.
  rewrite request_attempts_run. unfold retry_outcome, replies_between.
  destruct (net (served w)) eqn:E0.
  - intros [= <- <-]. cbn [served]. split; [lia|]. exists b. split; [reflexivity|].
    replace (S (served w) - served w)%nat with 1%nat by lia.
    cbn [seq map concat]. rewrite E0. apply app_nil_r.
  - destruct (net (S (served w))) eqn:E1.
    + intros [= <- <-]. cbn [served]. split; [lia|]. exists b. split; [reflexivity|].
      replace (S (S (served w)) - served w)%nat with 2%nat by lia.
      cbn [seq map concat]. rewrite E0, E1. cbn [api_page app]. apply app_nil_r.
    + destruct (net (S (S (served w)))) eqn:E2; try discriminate.
      intros [= <- <-]. cbn [served]. split; [lia|]. exists b. split; [reflexivity|].
      replace (S (S (S (served w))) - served w)%nat with 3%nat by lia.
      cbn [seq map concat]. rewrite E0, E1, E2. cbn [api_page app]. apply app_nil_r.
    + discriminate.
  - discriminate.
Qed.

(** The primary path folds the records of every reply it was served, in
    the order it was served them. *)
Lemma api_pages_served `{Str : StrMethods} per_page pages : forall m w m' w',
  api_pages net per_page pages m w = (Ok m', w') ->
  (served w <= served w')%nat
  /\ m' = ingest_api_rows m (concat (map api_page (replies_between net w w'))).
Proof.
  induction pages as [|page rest IH]; intros m w m' w'.
  - intros [= <- <-]. split; [lia|]. now rewrite replies_between_nil.
  - cbn [api_pages]. unfold mbind, M_bind, bind at 1.
    destruct (request_attempts net (ApiGet page per_page) (py_range 0 3) w)
      as [[p|e] w1] eqn:Ereq; [|discriminate].
    apply request_attempts_served in Ereq as (Hlt & b & -> & Hpage).
    unfold bind, lift, json_loads. unfold api_page in Hpage at 2.
    destruct (as_json b) as [| |rows| |] eqn:Ej; try discriminate.
    + intros [= <- <-]. split; [lia|]. now rewrite Hpage.
    + destruct rows as [|r rows].
      * intros [= <- <-]. split; [lia|]. now rewrite Hpage.
      * intros Hrec. apply IH in Hrec as (Hle & ->). split; [lia|].
        rewrite (replies_between_app w w1 w') by lia.
        rewrite map_app, concat_app, Hpage.
        unfold ingest_api_rows. now rewrite fold_left_app.
Qed.

(** The fallback path does the same with the table rows of the replies
    it was served. *)
Lemma web_pages_served `{Str : StrMethods} pages : forall m w m' w',
  web_pages net unescape pages m w = (Ok m', w') ->
  (served w <= served w')%nat
  /\ m' = fold_left insert_new
            (omap (web_record unescape)
                  (concat (map web_page (replies_between net w w')))) m.
Proof.
  induction pages as [|page rest IH]; intros m w m' w'.
  - intros [= <- <-]. split; [lia|]. now rewrite replies_between_nil.
  - cbn [web_pages]. rewrite request_text_run.
    set (w1 := {| served := S (served w); trace := trace w ++ [Request (WebGet page)] |}).
    assert (Hone : replies_between net w w1 = [net (served w)])
      by apply replies_between_step.
    assert (Hsplit : forall w2, (served w1 <= served w2)%nat ->
               concat (map web_page (replies_between net w w2))
               = web_page (net (served w))
                 ++ concat (map web_page (replies_between net w1 w2))).
    { intros w2 Hle. rewrite (replies_between_app w w1 w2); [|subst w1; cbn; lia|exact Hle].
      rewrite Hone. reflexivity. }
    destruct (net (served w)) as [b| |] eqn:Eb.
    + destruct (as_html b) as [|r rows] eqn:Eh.
      * intros Hrec. apply IH in Hrec as (Hle & ->).
        rewrite (Hsplit w' Hle). cbn [web_page]. rewrite Eh.
        subst w1; cbn [served] in *. split; [lia|reflexivity].
      * pose proof (ingest_web_rows_insert_new unescape m (r :: rows)) as Hfst.
        destruct (ingest_web_rows unescape m (r :: rows)) as [m1 added].
        cbn [fst] in Hfst.
        destruct (added =? 0).
        -- intros [= <- <-]. split; [subst w1; cbn; lia|].
           rewrite Hone. cbn [map concat web_page]. rewrite Eh, app_nil_r.
           exact Hfst.
        -- intros Hrec. apply IH in Hrec as (Hle & ->).
           rewrite (Hsplit w' Hle). cbn [web_page]. rewrite Eh.
           rewrite omap_app, fold_left_app, <- Hfst.
           subst w1; cbn [served] in *. split; [lia|reflexivity].
    + intros Hrec. apply IH in Hrec as (Hle & ->).
      rewrite (Hsplit w' Hle). cbn [web_page].
      subst w1; cbn [served] in *. split; [lia|reflexivity].
    + discriminate.
Qed.

(** A path that has a page to ask for makes a request. *)
Lemma api_pages_progress `{Str : StrMethods} per_page page rest m w m' w' :
  api_pages net per_page (page :: rest) m w = (Ok m', w') ->
  (served w < served w')%nat.
Proof.
  cbn [api_pages]. unfold mbind, M_bind, bind at 1.
  destruct (request_attempts net (ApiGet page per_page) (py_range 0 3) w)
    as [[p|e] w1] eqn:Ereq; [|discriminate].
  apply request_attempts_served in Ereq as (Hlt & b & -> & _).
  unfold bind, lift, json_loads.
  destruct (as_json b) as [| |rows| |]; try discriminate.
  - intros [= <- <-]. exact Hlt.
  - destruct rows as [|r rows]; [intros [= <- <-]; exact Hlt|].
    intros Hrec. apply api_pages_served in Hrec as [Hle _]. lia.
Qed.

Lemma web_pages_progress `{Str : StrMethods} page rest m w m' w' :
  web_pages net unescape (page :: rest) m w = (Ok m', w') ->
  (served w < served w')%nat.
Proof.
  cbn [web_pages]. rewrite request_text_run.
  destruct (net (served w)) as [b| |].
  - destruct (as_html b) as [|r rows].
    + intros Hrec. apply web_pages_served in Hrec as [Hle _]. cbn in Hle. lia.
    + destruct (ingest_web_rows unescape m (r :: rows)) as [m1 added].
      destruct (added =? 0).
      * intros [= <- <-]. cbn. lia.
      * intros Hrec. apply web_pages_served in Hrec as [Hle _]. cbn in Hle. lia.
  - intros Hrec. apply web_pages_served in Hrec as [Hle _]. cbn in Hle. lia.
  - discriminate.
Qed.

End Fetch.

(* --------------------------------------------------------------------- *)
(** ** Claims on the ranking map *)
(* --------------------------------------------------------------------- *)

Lemma py_range_pages (max_pages : Z) :
  0 < max_pages -> exists page rest, py_range 1 (max_pages + 1) = page :: rest.
Proof.
  intros Hpos. unfold py_range.
  replace (max_pages + 1 - 1) with max_pages by lia.
  destruct (Z.to_nat max_pages) as [|k] eqn:E; [lia|].
  cbn [seq map]. eauto.
Qed.

(** C3 (as the code has it): on the primary and on the fallback path an
    entry of the ranking map is never replaced: a later record whose
    symbol is already a key is discarded.  The map an adapter returns is
    determined by the replies it was served: for every symbol it holds
    the first entry met for that symbol among the records of these
    replies, all of them, in the order they were served, an entry being
    a record that carries a symbol and a usable rank; it holds nothing
    for a symbol without such a record.  A lookup is thus a function of
    the symbol alone.  An adapter that has a page to ask for was served
    at least one reply. *)
Theorem C3_first_seen_entry_wins `{Str : StrMethods}
    (net : nat -> reply) (unescape : string -> string) :
  (forall (m : ranking) rows s c,
      m !! s = Some c -> ingest_api_rows m rows !! s = Some c)
  /\ (forall (m : ranking) rows s c,
         m !! s = Some c -> (ingest_web_rows unescape m rows).1 !! s = Some c)
  /\ (forall max_pages per_page w (m : ranking) w',
         fetch_ranked_symbols net max_pages per_page w = (Ok m, w') ->
         (0 < max_pages -> (served w < served w')%nat)
         /\ forall s,
              m !! s
              = first_seen s
                  (omap api_record
                        (concat (map api_page (replies_between net w w')))))
  /\ (forall max_pages w (m : ranking) w',
         fetch_ranked_symbols_from_web net unescape max_pages w = (Ok m, w') ->
         (0 < max_pages -> (served w < served w')%nat)
         /\ forall s,
              m !! s
              = first_seen s
                  (omap (web_record unescape)
                        (concat (map web_page (replies_between net w w'))))).
Proof.
  split; [|split; [|split]].
  - intros m rows s c H. rewrite ingest_api_rows_insert_new.
    now apply fold_insert_new_keeps.
  - intros m rows s c H. rewrite ingest_web_rows_insert_new.
    now apply fold_insert_new_keeps.
  - intros max_pages per_page w m w' H. split.
    + intros Hpos. destruct (py_range_pages max_pages Hpos) as (page & rest & E).
      unfold fetch_ranked_symbols in H. rewrite E in H.
      now apply api_pages_progress in H.
    + apply api_pages_served in H as (_ & ->). intros s.
      rewrite ingest_api_rows_insert_new, fold_insert_new_lookup.
      now rewrite lookup_empty.
  - intros max_pages w m w' H. split.
    + intros Hpos. destruct (py_range_pages max_pages Hpos) as (page & rest & E).
      unfold fetch_ranked_symbols_from_web in H. rewrite E in H.
      now apply web_pages_progress in H.
    + apply web_pages_served in H as (_ & ->). intros s.
      rewrite fold_insert_new_lookup. now rewrite lookup_empty.
Qed.

Lemma C3_witness :
  exists (m : ranking) w',
    fetch_ranked_symbols sample_api_net 10 250 empty_world = (Ok m, w')
    /\ served w' = 3%nat
    /\ (forall s,
           m !! s
           = first_seen s
               (omap api_record
                     (concat (map api_page
                                  (replies_between sample_api_net empty_world w')))))
    /\ coin_id <$> m !! "btc" = Some "bitcoin"
    /\ coin_rank <$> m !! "eth" = Some "2"
    /\ coin_id <$> m !! "xrp" = Some "ripple".
Proof.
  eexists _, _. split; [vm_compute; reflexivity|]. split; [reflexivity|]. split.
  - apply (proj1 (proj2 (proj2 (C3_first_seen_entry_wins sample_api_net id)))
             10 250 empty_world).
    vm_compute; reflexivity.
  - vm_compute. repeat split; reflexivity.
Defined.

(** C3, as stated, fails: the entry kept for a symbol need not be the
    first-seen record for it, and a symbol that was seen need not have
    an entry.  The first record served for [xrp] has no rank ([null]):
    it is skipped, and the entry of the map is made of a later record;
    the only record for [ada] has no rank, and the map has no entry for
    [ada]. *)
Lemma C3_counterexample :
  exists (m : ranking) w' r r',
    fetch_ranked_symbols null_rank_api_net 10 250 empty_world = (Ok m, w')
    /\ first_record "xrp"
         (concat (map api_page (replies_between null_rank_api_net empty_world w')))
       = Some r
    /\ j_market_cap_rank r = Some JNull
    /\ get_str (j_id r) = "ripple-old"
    /\ coin_id <$> m !! "xrp" = Some "ripple"
    /\ first_record "ada"
         (concat (map api_page (replies_between null_rank_api_net empty_world w')))
       = Some r'
    /\ m !! "ada" = None.
Proof.
  eexists _, _, _, _. split; [vm_compute; reflexivity|].
  split; [vm_compute; reflexivity|].
  split; [reflexivity|]. split; [reflexivity|].
  split; [vm_compute; reflexivity|].
  split; vm_compute; reflexivity.
Qed.

(** C10: in a ranking map returned by either adapter, every key is a
    non-empty string, is the symbol text of a record lowered and then
    stripped, and is the [coin_symbol] of the entry stored under it;
    [str.lower] and [str.strip] being idempotent and commuting, the key
    is already lowercased and stripped: lowering or stripping it again
    changes nothing. *)
Theorem C10_keys_normalised `{Str : StrMethods}
    (net : nat -> reply) (unescape : string -> string) :
  (forall max_pages per_page w (m : ranking) w',
      fetch_ranked_symbols net max_pages per_page w = (Ok m, w') ->
      well_keyed m)
  /\ (forall max_pages w (m : ranking) w',
         fetch_ranked_symbols_from_web net unescape max_pages w = (Ok m, w') ->
         well_keyed m).
Proof.
  split.
  - intros max_pages per_page w m w' H.
    apply api_pages_served in H as (_ & ->).
    apply well_keyed_api, well_keyed_empty.
  - intros max_pages w m w' H.
    apply web_pages_served in H as (_ & ->).
    apply well_keyed_fold; [apply well_keyed_empty|].
    apply omap_Forall, web_record_normal.
Qed.

Lemma C10_witness :
  exists (m : ranking) w' c,
    fetch_ranked_symbols_from_web sample_web_net id 10 empty_world = (Ok m, w')
    /\ m !! "btc" = Some c
    /\ coin_symbol c = "btc"
    /\ lower "btc" = "btc"
    /\ strip "btc" = "btc"
    /\ m !! "BTC" = None.
Proof.
  assert (H : exists (m : ranking) w' c,
             fetch_ranked_symbols_from_web sample_web_net id 10 empty_world
             = (Ok m, w')
             /\ m !! "btc" = Some c /\ m !! "BTC" = None).
  { eexists _, _, _. split; [vm_compute; reflexivity|].
    split; vm_compute; reflexivity. }
  destruct H as (m & w' & c & E & Hc & Hup).
  exists m, w', c. split; [exact E|]. split; [exact Hc|].
  destruct (proj2 (C10_keys_normalised sample_web_net id) 10 empty_world m w' E
                  "btc" c Hc) as (_ & Hsym & _ & Hfix).
  destruct (Hfix ascii_normalising) as [Hl Hs].
  repeat split; assumption.
Defined.

(* --------------------------------------------------------------------- *)
(** ** The run: which exceptions can leave each stage *)
(* --------------------------------------------------------------------- *)

Lemma mapR_raise {A B} (f : A -> result B) l e :
  mapR f l = Raise e -> exists x, In x l /\ f x = Raise e.
Proof.
  induction l as [|x l IH]; simpl; [discriminate|].
  destruct (f x) eqn:Ex; simpl.
  - destruct (mapR f l); simpl; [discriminate|].
    intros [= <-]. destruct (IH eq_refl) as (y & Hy & Hf). eauto.
  - intros [= <-]. eauto.
Qed.

Lemma mapR_ok {A B} (f : A -> result B) l l' :
  mapR f l = Ok l' <-> Forall2 (fun x y => f x = Ok y) l l'.
Proof.
  revert l'. induction l as [|x l IH]; intros l'; simpl.
  - split; [intros [= <-]; constructor | intros H; inversion H; reflexivity].
  - split.
    + destruct (f x) eqn:Ex; simpl; [|discriminate].
      destruct (mapR f l) eqn:El; simpl; [|discriminate].
      intros [= <-]. constructor; [exact Ex|]. now apply IH.
    + intros H. inversion H as [|? y ? ys Hy Hys]; subst.
      rewrite Hy. simpl. apply IH in Hys. rewrite Hys. reflexivity.
Qed.

Lemma sort_key_raise item e :
  sort_key item = Raise e -> e = KeyError \/ e = TypeError \/ e = ValueError.
Proof.
  unfold sort_key, getitem, py_int, mbind, result_bind, rbind.
  destruct (item !! "coin_rank") as [[|s]|]; try (intros [= <-]; auto).
  destruct (py_int_str s); [|intros [= <-]; auto].
  destruct (item !! "coin_symbol"); [discriminate|intros [= <-]; auto].
Qed.

Lemma sort_rows_raise rows e :
  sort_rows rows = Raise e -> e = KeyError \/ e = TypeError \/ e = ValueError.
Proof.
  unfold sort_rows, mbind, result_bind, rbind.
  destruct (mapR _ rows) as [keyed|e'] eqn:E.
  - destruct (forallb _ keyed); [discriminate|]. intros [= <-]. auto.
  - intros [= <-]. apply mapR_raise in E as (x & _ & Hx).
    destruct (sort_key x) eqn:Ek; simpl in Hx; [discriminate|].
    injection Hx as <-. eapply sort_key_raise, Ek.
Qed.

Lemma build_merged_rows_raise `{Str : StrMethods} files m e :
  build_merged_rows files m = Raise e ->
  e = KeyError \/ e = TypeError \/ e = ValueError.
Proof.
  unfold build_merged_rows, mbind, result_bind, rbind.
  destruct (sort_rows _) eqn:E; [discriminate|].
  intros [= <-]. eapply sort_rows_raise, E.
Qed.

Lemma merge_and_write_raise `{Str : StrMethods} files m w e w' :
  merge_and_write files m w = (Raise e, w') ->
  (e = RuntimeError /\ m = ∅ /\ w' = w)
  \/ (m <> ∅ /\ (e = KeyError \/ e = TypeError \/ e = ValueError)).
Proof.
  unfold merge_and_write.
  destruct (decide (m = ∅)) as [->|Hne].
  - intros [= <- <-]. left. auto.
  - unfold mbind, M_bind, bind, lift.
    destruct (build_merged_rows files m) as [[[h rows] u]|e'] eqn:E.
    + unfold emit. discriminate.
    + intros [= <- <-]. right. split; [exact Hne|].
      eapply build_merged_rows_raise, E.
Qed.

Section Run.

Variable net : nat -> reply.
Variable unescape : string -> string.

Lemma api_pages_raise `{Str : StrMethods} per_page pages : forall m w e w',
  api_pages net per_page pages m w = (Raise e, w') ->
  e = NetworkError \/ e = OtherError \/ e = JSONDecodeError
  \/ e = TypeError \/ e = AttributeError.
Proof.
  induction pages as [|page rest IH]; intros m w e w'; [discriminate|].
  cbn [api_pages]. unfold mbind, M_bind, bind at 1.
  rewrite request_attempts_run.
  destruct (retry_outcome _ _ _ _) as [[r n] evs] eqn:Er.
  destruct r as [p|e0].
  - unfold bind, lift, json_loads.
    destruct p as [b|]; [|intros [= <- <-]; auto].
    destruct (as_json b) as [| |rows| |]; try (intros [= <- <-]; auto 6); try discriminate.
    destruct rows; [discriminate|]. apply IH.
  - intros [= <- <-]. unfold retry_outcome in Er.
    destruct (net (served w)); [discriminate| |injection Er as <-; auto].
    destruct (net (S (served w))); [discriminate| |injection Er as <-; auto].
    destruct (net (S (S (served w)))); [discriminate| |]; injection Er as <-; auto.
Qed.

Lemma web_pages_raise `{Str : StrMethods} pages : forall m w e w',
  web_pages net unescape pages m w = (Raise e, w') -> e = OtherError.
Proof.
  induction pages as [|page rest IH]; intros m w e w'; [discriminate|].
  cbn [web_pages]. rewrite request_text_run.
  destruct (net (served w)) as [b| |].
  - destruct (as_html b) as [|r rows]; [apply IH|].
    destruct (ingest_web_rows unescape m (r :: rows)) as [m1 added].
    destruct (added =? 0); [discriminate|apply IH].
  - apply IH.
  - now intros [= <- <-].
Qed.

(** The result of the run, by what the primary path gave. *)
Lemma main_run `{Str : StrMethods} raw_dir w :
  list_input_files raw_dir <> [] ->
  main net unescape raw_dir w
  = match fetch_ranked_symbols net 10 250 w with
    | (Ok m, w1) => merge_and_write (list_input_files raw_dir) m w1
    | (Raise NetworkError, w1) =>
        (fetch_ranked_symbols_from_web net unescape 10
           ≫= merge_and_write (list_input_files raw_dir)) w1
    | (Raise e, w1) => (Raise e, w1)
    end.
Proof.
  intros Hne. unfold main.
  destruct (list_input_files raw_dir) as [|f fs]; [contradiction|].
  unfold mbind, M_bind, bind, except_network.
  destruct (fetch_ranked_symbols net 10 250 w) as [[m|e] w1]; [reflexivity|].
  destruct e; try reflexivity.
Qed.

End Run.

(* --------------------------------------------------------------------- *)
(** ** Claims on retries, fallback and fatal errors *)
(* --------------------------------------------------------------------- *)

Lemma list_input_files_none `{Str : StrMethods} raw_dir :
  Forall (fun f => ends_with suffix (name f) = false) raw_dir ->
  list_input_files raw_dir = [].
Proof.
  intros H. unfold list_input_files.
  replace (List.filter _ raw_dir) with (@nil AssetFile); [reflexivity|].
  induction H as [|f l Hf _ IH]; simpl; [reflexivity|].
  now rewrite Hf.
Qed.

(** C8: when no file of the directory matches the naming convention, the
    run raises the "no input files" error and leaves the world as it
    found it: no request, primary or fallback, was made or answered. *)
Theorem C8_no_input_files_before_network `{Str : StrMethods}
    (net : nat -> reply) (unescape : string -> string)
    (raw_dir : list AssetFile) (w : world) :
  Forall (fun f => ends_with suffix (name f) = false) raw_dir ->
  main net unescape raw_dir w = (Raise FileNotFoundError, w).
Proof.
  intros H. unfold main. now rewrite (list_input_files_none raw_dir H).
Qed.

Lemma C8_witness :
  main sample_api_net id sample_other_dir empty_world
  = (Raise FileNotFoundError, empty_world).
Proof.
  apply (C8_no_input_files_before_network sample_api_net id sample_other_dir empty_world).
  repeat constructor.
Defined.

(** C6: a page of the primary path is requested at most three times; a
    network failure of the first or second attempt is followed by a
    pause of 1.5 s, then 3 s, and a further attempt; when the third
    attempt fails too the page loop stops there with the network error
    (no later page is requested), and the run then continues with the
    fallback path: a network error never ends the run. *)
Theorem C6_retry_then_fallback `{Str : StrMethods}
    (net : nat -> reply) (unescape : string -> string) :
  (forall req w,
      request_attempts net req (py_range 0 3) w
      = let '(r, n, evs) :=
          retry_outcome req (net (served w)) (net (S (served w)))
                        (net (S (S (served w)))) in
        (r, {| served := n + served w; trace := trace w ++ evs |}))
  /\ (forall req r0 r1 r2,
         let '(r, n, evs) := retry_outcome req r0 r1 r2 in
         (n <= 3)%nat
         /\ length (List.filter is_request evs) = n
         /\ (r = Raise NetworkError <-> r0 = NetFail /\ r1 = NetFail /\ r2 = NetFail))
  /\ (forall per_page page rest (m : ranking) w,
         net (served w) = NetFail ->
         net (S (served w)) = NetFail ->
         net (S (S (served w))) = NetFail ->
         api_pages net per_page (page :: rest) m w
         = (Raise NetworkError,
            {| served := 3 + served w;
               trace := trace w ++ [Request (ApiGet page per_page); Sleep 1500;
                                    Request (ApiGet page per_page); Sleep 3000;
                                    Request (ApiGet page per_page)] |}))
  /\ (forall raw_dir w w',
         list_input_files raw_dir <> [] ->
         fetch_ranked_symbols net 10 250 w = (Raise NetworkError, w') ->
         main net unescape raw_dir w
         = (fetch_ranked_symbols_from_web net unescape 10
              ≫= merge_and_write (list_input_files raw_dir)) w')
  /\ (forall raw_dir w, (main net unescape raw_dir w).1 <> Raise NetworkError).
Proof.
  split; [|split; [|split; [|split]]].
  - intros req w. apply request_attempts_run.
  - intros req r0 r1 r2. unfold retry_outcome.
    destruct r0, r1, r2; cbn; (split; [lia|split; [reflexivity|]]);
      split; try discriminate; try (intros (? & ? & ?); discriminate); auto.
  - intros per_page page rest m w H0 H1 H2.
    cbn [api_pages]. unfold mbind, M_bind, bind at 1.
    rewrite request_attempts_run. unfold retry_outcome.
    rewrite H0, H1, H2. reflexivity.
  - intros raw_dir w w' Hne Hf. rewrite main_run by exact Hne.
    now rewrite Hf.
  - intros raw_dir w. unfold main.
    destruct (list_input_files raw_dir) as [|f fs] eqn:El; [discriminate|].
    rewrite <- El.
    assert (Hm : forall m w1, (merge_and_write (list_input_files raw_dir) m w1).1
                              <> Raise NetworkError).
    { intros m w1 Hc.
      destruct (merge_and_write _ m w1) as [r w2] eqn:Em. simpl in Hc. subst r.
      apply merge_and_write_raise in Em as [(? & _)|(_ & [?|[?|?]])]; discriminate. }
    unfold mbind, M_bind, bind, except_network.
    destruct (fetch_ranked_symbols net 10 250 w) as [[m|e] w1] eqn:Ef; [apply Hm|].
    destruct e; try (simpl; discriminate).
    destruct (fetch_ranked_symbols_from_web net unescape 10 w1) as [[m|e] w2] eqn:Ew;
      [apply Hm|].
    apply web_pages_raise in Ew. subst e. simpl. discriminate.
Qed.

Lemma C6_witness :
  api_pages api_down_net 250 [1; 2] ∅ empty_world
  = (Raise NetworkError,
     {| served := 3;
        trace := [Request (ApiGet 1 250); Sleep 1500; Request (ApiGet 1 250);
                  Sleep 3000; Request (ApiGet 1 250)] |})
  /\ exists w',
       fetch_ranked_symbols api_down_net 10 250 empty_world = (Raise NetworkError, w')
       /\ main api_down_net id [sample_btc_file] empty_world
          = (fetch_ranked_symbols_from_web api_down_net id 10
               ≫= merge_and_write (list_input_files [sample_btc_file])) w'
       /\ (main api_down_net id [sample_btc_file] empty_world).1 = Ok tt.
Proof.
  pose proof (C6_retry_then_fallback api_down_net id) as (_ & _ & H3 & H4 & _).
  split.
  - apply (H3 250 1 [2] ∅ empty_world); reflexivity.
  - eexists. split; [vm_compute; reflexivity|]. split.
    + apply H4; [vm_compute; discriminate | vm_compute; reflexivity].
    + vm_compute. reflexivity.
Defined.

(** A page that adds nothing leaves the map as it was. *)
Lemma ingest_web_rows_added `{Str : StrMethods}
    unescape rows : forall (m : ranking) k m' k',
  fold_left (ingest_web_row unescape) rows (m, k) = (m', k') ->
  k <= k' /\ (k' = k -> m' = m).
Proof.
  induction rows as [|r rows IH]; intros m k m' k'; cbn [fold_left].
  - intros [= <- <-]. split; [lia|reflexivity].
  - rewrite ingest_web_row_insert_new.
    destruct (web_record unescape r) as [p|]; [|apply IH].
    destruct (decide (is_Some (m !! p.1))); [apply IH|].
    intros H. apply IH in H as [Hle Heq]. split; [lia|]. intros ->. lia.
Qed.

(** C7 (as the code has it): on the fallback path a page that shows at
    least one table row and adds no entry ends the pagination: the map
    is returned as it stands and no later page is requested.  A page
    without any table row, like a page whose request fails with a network
    error, is skipped: the loop goes on with the next page. *)
Theorem C7_zero_new_entries_stop `{Str : StrMethods}
    (net : nat -> reply) (unescape : string -> string) :
  (forall page rest (m : ranking) w b,
      net (served w) = Body b ->
      as_html b <> [] ->
      (ingest_web_rows unescape m (as_html b)).2 = 0 ->
      web_pages net unescape (page :: rest) m w
      = (Ok m, {| served := S (served w);
                  trace := trace w ++ [Request (WebGet page)] |}))
  /\ (forall page rest (m : ranking) w,
         (net (served w) = NetFail
          \/ exists b, net (served w) = Body b /\ as_html b = []) ->
         web_pages net unescape (page :: rest) m w
         = web_pages net unescape rest m
             {| served := S (served w);
                trace := trace w ++ [Request (WebGet page)] |}).
Proof.
  split.
  - intros page rest m w b Hb Hrows Hzero.
    cbn [web_pages]. rewrite request_text_run, Hb.
    destruct (as_html b) as [|r rows] eqn:Eh; [contradiction|].
    unfold ingest_web_rows in *.
    destruct (fold_left (ingest_web_row unescape) (r :: rows) (m, 0))
      as [m1 added] eqn:Ef.
    simpl in Hzero. subst added.
    apply ingest_web_rows_added in Ef as [_ Heq]. rewrite (Heq eq_refl).
    reflexivity.
  - intros page rest m w [Hfail|(b & Hb & Hrows)];
      cbn [web_pages]; rewrite request_text_run.
    + now rewrite Hfail.
    + now rewrite Hb, Hrows.
Qed.

Lemma C7_witness :
  web_pages sample_web_net id [2; 3; 4]
            (<["btc" := {| coin_id := ""; coin_name := "Bitcoin";
                           coin_symbol := "btc"; coin_rank := "1" |}]> ∅)
            {| served := 1; trace := [Request (WebGet 1)] |}
  = (Ok (<["btc" := {| coin_id := ""; coin_name := "Bitcoin";
                       coin_symbol := "btc"; coin_rank := "1" |}]> ∅),
     {| served := 2; trace := [Request (WebGet 1); Request (WebGet 2)] |}).
Proof.
  apply (proj1 (C7_zero_new_entries_stop sample_web_net id) 2 [3; 4] _
               {| served := 1; trace := [Request (WebGet 1)] |}
               (html_body [web_row "5" "btc" "Other"])).
  - reflexivity.
  - discriminate.
  - vm_compute. reflexivity.
Defined.

(** C7, as stated, fails: with pages that show no table row at all, each
    page adds zero entries and yet all ten pages are requested. *)
Lemma C7_counterexample :
  (forall n, exists b, blank_web_net n = Body b /\ as_html b = [])
  /\ ingest_web_rows id ∅ [] = (∅, 0)
  /\ fetch_ranked_symbols_from_web blank_web_net id 10 empty_world
     = (Ok ∅,
        {| served := 10;
           trace := map (fun page => Request (WebGet page))
                        [1; 2; 3; 4; 5; 6; 7; 8; 9; 10] |}).
Proof.
  split; [|split].
  - intros n. eexists. split; reflexivity.
  - reflexivity.
  - vm_compute. reflexivity.
Qed.

(** C5 (as the code has it): the run fails with the "ranking
    unavailable" error exactly when there are input files and the map it
    ends up with is empty: either the primary path returned an empty map
    without raising (the fallback is then not consulted), or the primary
    path raised a network error and the fallback returned an empty map.
    In particular a primary path that returns an entry, or a fallback
    that is consulted and returns an entry, excludes that error. *)
Theorem C5_ranking_unavailable `{Str : StrMethods}
    (net : nat -> reply) (unescape : string -> string)
    (raw_dir : list AssetFile) (w wf : world) :
  main net unescape raw_dir w = (Raise RuntimeError, wf)
  <-> list_input_files raw_dir <> []
      /\ (fetch_ranked_symbols net 10 250 w = (Ok ∅, wf)
          \/ exists w',
               fetch_ranked_symbols net 10 250 w = (Raise NetworkError, w')
               /\ fetch_ranked_symbols_from_web net unescape 10 w' = (Ok ∅, wf)).
Proof.
  assert (Hmw : forall (m : ranking) w1,
             merge_and_write (list_input_files raw_dir) m w1 = (Raise RuntimeError, wf)
             <-> m = ∅ /\ w1 = wf).
  { intros m w1. split.
    - intros H. apply merge_and_write_raise in H
        as [(_ & -> & ->)|(_ & [?|[?|?]])]; try discriminate. auto.
    - intros [-> ->]. unfold merge_and_write.
      destruct (decide (∅ = ∅)); [reflexivity|contradiction]. }
  split.
  - intros H.
    assert (Hne : list_input_files raw_dir <> []).
    { intros E. unfold main in H. rewrite E in H. discriminate. }
    split; [exact Hne|].
    rewrite main_run in H by exact Hne.
    destruct (fetch_ranked_symbols net 10 250 w) as [[m|e] w1] eqn:Ef.
    + apply Hmw in H as [-> ->]. now left.
    + pose proof (api_pages_raise _ _ _ _ _ _ _ Ef) as He.
      destruct e; try (injection H as ?; discriminate);
        try (destruct He as [?|[?|[?|[?|?]]]]; discriminate).
      right. exists w1. split; [reflexivity|].
      unfold mbind, M_bind, bind in H.
      destruct (fetch_ranked_symbols_from_web net unescape 10 w1)
        as [[m|e] w2] eqn:Ew.
      * apply Hmw in H as [-> ->]. reflexivity.
      * apply web_pages_raise in Ew. subst e. discriminate.
  - intros [Hne [Hf|(w' & Hf & Hw)]]; rewrite main_run by exact Hne; rewrite Hf.
    + now apply Hmw.
    + unfold mbind, M_bind, bind. rewrite Hw. now apply Hmw.
Qed.

Lemma C5_witness :
  main all_down_net id [sample_btc_file] empty_world
  = (Raise RuntimeError,
     {| served := 13;
        trace := [Request (ApiGet 1 250); Sleep 1500; Request (ApiGet 1 250);
                  Sleep 3000; Request (ApiGet 1 250)]
                 ++ map (fun page => Request (WebGet page))
                        [1; 2; 3; 4; 5; 6; 7; 8; 9; 10] |}).
Proof.
  apply (proj2 (C5_ranking_unavailable all_down_net id [sample_btc_file]
                  empty_world _)).
  split; [vm_compute; discriminate|].
  right. eexists. split; vm_compute; reflexivity.
Defined.

(** C5, as stated, fails: the primary path returns an empty map, the run
    fails with the "ranking unavailable" error without consulting the
    fallback, although the fallback, run at that point, returns an
    entry. *)
Lemma C5_counterexample :
  exists w1,
    fetch_ranked_symbols empty_api_net 10 250 empty_world = (Ok ∅, w1)
    /\ main empty_api_net id [sample_btc_file] empty_world = (Raise RuntimeError, w1)
    /\ exists (m : ranking) w2,
         fetch_ranked_symbols_from_web empty_api_net id 10 w1 = (Ok m, w2)
         /\ m <> ∅.
Proof.
  eexists. split; [vm_compute; reflexivity|]. split; [vm_compute; reflexivity|].
  eexists _, _. split; [vm_compute; reflexivity|].
  intros H. apply (f_equal (fun m : ranking => m !! "btc")) in H.
  vm_compute in H. discriminate.
Qed.

(* --------------------------------------------------------------------- *)
(** ** The stable sort *)
(* --------------------------------------------------------------------- *)

Section StableSort.

Context {A : Type} (leb : A -> A -> bool).

Local Abbreviation ins := (insert_sorted leb).

Lemma insert_sorted_perm x l : Permutation (ins x l) (x :: l).
Proof.
  induction l as [|y l IH]; simpl; [reflexivity|].
  destruct (leb x y); [reflexivity|].
  rewrite IH. apply perm_swap.
Qed.

Lemma stable_sort_perm l : Permutation (stable_sort leb l) l.
Proof.
  induction l as [|x l IH]; simpl; [reflexivity|].
  rewrite insert_sorted_perm. now constructor.
Qed.

Lemma foldr_insert_perm xs t : Permutation (foldr ins t xs) (xs ++ t).
Proof.
  induction xs as [|x xs IH]; simpl; [reflexivity|].
  rewrite insert_sorted_perm. now constructor.
Qed.

Lemma stable_sort_app xs ys :
  stable_sort leb (xs ++ ys) = foldr ins (stable_sort leb ys) xs.
Proof. unfold stable_sort. apply foldr_app. Qed.

(** With a total comparison the result is sorted. *)
Hypothesis leb_total : forall a b, leb a b = false -> leb b a = true.

Lemma insert_sorted_Sorted x l :
  Sorted (fun a b => leb a b = true) l ->
  Sorted (fun a b => leb a b = true) (ins x l).
Proof.
  induction 1 as [|y l Hs IH Hhd]; simpl.
  - repeat constructor.
  - destruct (leb x y) eqn:E.
    + constructor; [now constructor|]. now constructor.
    + constructor; [exact IH|].
      destruct l as [|z l]; simpl.
      * constructor. now apply leb_total.
      * destruct (leb x z); constructor; [now apply leb_total|].
        now inversion Hhd.
Qed.

Lemma stable_sort_Sorted l : Sorted (fun a b => leb a b = true) (stable_sort leb l).
Proof.
  induction l as [|x l IH]; simpl; [constructor|].
  now apply insert_sorted_Sorted.
Qed.

(** Two insertions commute when the two elements are strictly ordered
    and the comparison is transitive on the elements at hand. *)
Variable P : A -> Prop.
Hypothesis leb_trans :
  forall a b c, P a -> P b -> P c ->
                leb a b = true -> leb b c = true -> leb a c = true.

Lemma insert_sorted_comm_lt a b t :
  P a -> P b -> Forall P t ->
  leb a b = true -> leb b a = false ->
  ins a (ins b t) = ins b (ins a t).
Proof.
  intros Pa Pb Pt Hab Hba.
  induction Pt as [|s t Ps Pt IH]; simpl.
  - now rewrite Hab, Hba.
  - destruct (leb b s) eqn:Ebs.
    + pose proof (leb_trans a b s Pa Pb Ps Hab Ebs) as Eas.
      rewrite Eas. simpl. rewrite Hab, Hba. simpl. now rewrite Ebs.
    + destruct (leb a s) eqn:Eas; simpl; rewrite Eas.
      * rewrite Hba. simpl. now rewrite Ebs.
      * rewrite Ebs. now rewrite IH.
Qed.

Lemma insert_sorted_comm a b t :
  P a -> P b -> Forall P t -> strictly_ordered leb a b ->
  ins a (ins b t) = ins b (ins a t).
Proof.
  intros Pa Pb Pt Hs. unfold strictly_ordered in Hs.
  destruct (leb b a) eqn:Eba; simpl in Hs.
  - symmetry. now apply insert_sorted_comm_lt.
  - now apply insert_sorted_comm_lt.
Qed.

Lemma Forall_insert_sorted x t : P x -> Forall P t -> Forall P (ins x t).
Proof.
  intros Px Pt. eapply Permutation_Forall.
  - symmetry. apply insert_sorted_perm.
  - now constructor.
Qed.

Lemma Forall_foldr_insert xs t : Forall P xs -> Forall P t -> Forall P (foldr ins t xs).
Proof.
  intros Pxs Pt. eapply Permutation_Forall.
  - symmetry. apply foldr_insert_perm.
  - apply Forall_app. now split.
Qed.

Lemma insert_block_comm a ys t :
  P a -> Forall P ys -> Forall P t ->
  Forall (strictly_ordered leb a) ys ->
  ins a (foldr ins t ys) = foldr ins (ins a t) ys.
Proof.
  intros Pa Pys Pt Hs. induction Hs as [|y ys Hy Hs IH]; simpl; [reflexivity|].
  inversion Pys; subst.
  rewrite insert_sorted_comm; auto using Forall_foldr_insert.
  now rewrite IH.
Qed.

Lemma blocks_comm xs ys t :
  Forall P xs -> Forall P ys -> Forall P t ->
  Forall (fun x => Forall (strictly_ordered leb x) ys) xs ->
  foldr ins (foldr ins t ys) xs = foldr ins (foldr ins t xs) ys.
Proof.
  intros Pxs Pys Pt Hs. induction Hs as [|x xs Hx Hs IH]; simpl; [reflexivity|].
  inversion Pxs; subst.
  rewrite IH by assumption.
  apply insert_block_comm; auto using Forall_foldr_insert.
Qed.

(** Blocks of elements, each block under a tag, the blocks of distinct
    tags being strictly ordered against each other: the stable sort of
    their concatenation does not depend on the order of the blocks. *)
Lemma stable_sort_blocks {F T : Type} (g : F -> list A) (tag : F -> T) fs fs' :
  Permutation fs fs' ->
  NoDup (map tag fs) ->
  (forall f f', Forall P (g f) -> Forall P (g f') -> tag f <> tag f' ->
                Forall (fun x => Forall (strictly_ordered leb x) (g f')) (g f)) ->
  Forall (fun f => Forall P (g f)) fs ->
  stable_sort leb (flat_map g fs) = stable_sort leb (flat_map g fs').
Proof.
  intros Hperm Hnd Hstrict.
  induction Hperm as [|f l l' Hperm IH|f f' l|l l' l'' H1 IH1 H2 IH2]; intros HP.
  - reflexivity.
  - simpl. rewrite !stable_sort_app.
    simpl in Hnd. apply NoDup_cons in Hnd as [_ Hnd].
    inversion HP; subst. now rewrite IH.
  - simpl. rewrite !stable_sort_app.
    inversion HP as [|? ? Pf' HP']; subst. inversion HP' as [|? ? Pf HP'']; subst.
    simpl in Hnd. apply NoDup_cons in Hnd as [Hnotin Hnd'].
    apply blocks_comm; auto.
    + unfold stable_sort. apply Forall_foldr_insert; [|constructor].
      apply Forall_flat_map. exact HP''.
    + apply Hstrict; auto. intros E. apply Hnotin. rewrite E. apply list_elem_of_here.
  - rewrite IH1 by assumption. apply IH2.
    + eapply NoDup_Permutation_proper; [|exact Hnd].
      symmetry. now apply Permutation_map.
    + eapply Permutation_Forall; eassumption.
Qed.

End StableSort.

(* --------------------------------------------------------------------- *)
(** ** The order of the sort keys *)
(* --------------------------------------------------------------------- *)

Lemma string_compare_refl s : String.compare s s = Eq.
Proof.
  induction s as [|c s IH]; simpl; [reflexivity|].
  unfold Ascii.compare. now rewrite N.compare_refl.
Qed.

Lemma string_compare_lt_trans a b c :
  String.compare a b = Lt -> String.compare b c = Lt -> String.compare a c = Lt.
Proof.
  intros H1 H2.
  apply String_as_OT.cmp_lt in H1. apply String_as_OT.cmp_lt in H2.
  apply String_as_OT.cmp_lt. eapply String_as_OT.lt_trans; eassumption.
Qed.

(** The empty string comes first. *)
Lemma string_compare_empty s : String.compare "" s <> Gt.
Proof. destruct s; discriminate. Qed.

Lemma pyval_cmp_antisym a b : pyval_cmp b a = CompOpp <$> pyval_cmp a b.
Proof.
  destruct a, b; simpl; try reflexivity.
  now rewrite String.compare_antisym.
Qed.

Lemma pyval_cmp_eq a b : pyval_cmp a b = Some Eq <-> a = b.
Proof.
  destruct a, b; simpl; split; try discriminate; try reflexivity.
  - intros [= H]. apply String.compare_eq_iff in H. now subst.
  - intros [= ->]. now rewrite string_compare_refl.
Qed.

Lemma pyval_cmp_lt_trans a b c :
  pyval_cmp a b = Some Lt -> pyval_cmp b c = Some Lt -> pyval_cmp a c = Some Lt.
Proof.
  destruct a, b, c; simpl; try discriminate.
  intros [= H1] [= H2]. f_equal. eapply string_compare_lt_trans; eassumption.
Qed.

Lemma key_cmp_lt r1 s1 t1 r2 s2 t2 :
  key_cmp (r1, s1, t1) (r2, s2, t2) = Some Lt
  <-> r1 < r2
      \/ (r1 = r2 /\ pyval_cmp s1 s2 = Some Lt)
      \/ (r1 = r2 /\ s1 = s2 /\ pyval_cmp t1 t2 = Some Lt).
Proof.
  unfold key_cmp. destruct (Z.compare_spec r1 r2) as [->|Hlt|Hgt].
  - destruct (pyval_cmp s1 s2) as [[| |]|] eqn:Es.
    + apply pyval_cmp_eq in Es as ->. split.
      * intros H. right; right. auto.
      * intros [?|[[_ H]|[_ [_ H]]]]; [lia| |exact H].
        assert (pyval_cmp s2 s2 = Some Eq) as E by now apply pyval_cmp_eq.
        congruence.
    + split; [intros _; right; left; auto|reflexivity].
    + split; [discriminate|].
      intros [?|[[_ H]|[_ [-> H]]]]; [lia|discriminate|].
      assert (pyval_cmp s2 s2 = Some Eq) as E by now apply pyval_cmp_eq.
      congruence.
    + split; [discriminate|].
      intros [?|[[_ H]|[_ [-> H]]]]; [lia|discriminate|].
      assert (pyval_cmp s2 s2 = Some Eq) as E by now apply pyval_cmp_eq.
      congruence.
  - split; [intros _; now left|reflexivity].
  - split; [discriminate|]. intros [?|[[? _]|[? _]]]; lia.
Qed.

Lemma key_cmp_eq a b : key_cmp a b = Some Eq <-> a = b.
Proof.
  destruct a as [[r1 s1] t1], b as [[r2 s2] t2]. unfold key_cmp.
  destruct (Z.compare_spec r1 r2) as [->|Hlt|Hgt].
  - destruct (pyval_cmp s1 s2) as [[| |]|] eqn:Es.
    + apply pyval_cmp_eq in Es as ->. rewrite pyval_cmp_eq.
      split; [now intros ->|now intros [= ->]].
    + split; [discriminate|]. intros [= -> _].
      assert (pyval_cmp s2 s2 = Some Eq) as E by now apply pyval_cmp_eq.
      congruence.
    + split; [discriminate|]. intros [= -> _].
      assert (pyval_cmp s2 s2 = Some Eq) as E by now apply pyval_cmp_eq.
      congruence.
    + split; [discriminate|]. intros [= -> _].
      assert (pyval_cmp s2 s2 = Some Eq) as E by now apply pyval_cmp_eq.
      congruence.
  - split; [discriminate|]. intros [= -> _ _]. lia.
  - split; [discriminate|]. intros [= -> _ _]. lia.
Qed.

Lemma key_cmp_antisym a b : key_cmp b a = CompOpp <$> key_cmp a b.
Proof.
  destruct a as [[r1 s1] t1], b as [[r2 s2] t2]. unfold key_cmp.
  rewrite (Z.compare_antisym r1 r2).
  destruct (r1 ?= r2); simpl; try reflexivity.
  rewrite (pyval_cmp_antisym s1 s2).
  destruct (pyval_cmp s1 s2) as [[| |]|]; simpl; try reflexivity.
  apply pyval_cmp_antisym.
Qed.

Lemma key_cmp_lt_trans a b c :
  key_cmp a b = Some Lt -> key_cmp b c = Some Lt -> key_cmp a c = Some Lt.
Proof.
  destruct a as [[r1 s1] t1], b as [[r2 s2] t2], c as [[r3 s3] t3].
  rewrite !key_cmp_lt.
  intros [H1|[[-> H1]|[-> [-> H1]]]] [H2|[[-> H2]|[-> [-> H2]]]];
    try (left; lia); try (right; left; split; [reflexivity|]; assumption);
    try (right; left; split; [reflexivity|]; eapply pyval_cmp_lt_trans; eassumption).
  right; right. repeat split. eapply pyval_cmp_lt_trans; eassumption.
Qed.

Lemma key_le_refl a : key_le a a.
Proof. right. now apply key_cmp_eq. Qed.

Global Instance key_le_trans : Transitive key_le.
Proof.
  intros a b c [H1|H1] [H2|H2].
  - left. eapply key_cmp_lt_trans; eassumption.
  - apply key_cmp_eq in H2 as ->. now left.
  - apply key_cmp_eq in H1 as ->. now left.
  - apply key_cmp_eq in H1 as ->. now right.
Qed.

Lemma key_leb_total a b : key_leb a b = false -> key_leb b a = true.
Proof.
  unfold key_leb. rewrite (key_cmp_antisym a b).
  destruct (key_cmp a b) as [[| |]|]; simpl; congruence.
Qed.

Lemma key_leb_le a b : comparable a b = true -> key_leb a b = true -> key_le a b.
Proof.
  unfold comparable, key_leb, key_le.
  destruct (key_cmp a b) as [[| |]|]; try discriminate; auto.
Qed.

Lemma key_le_leb a b : key_le a b -> key_leb a b = true.
Proof. unfold key_le, key_leb. now intros [->| ->]. Qed.

(** The first component of the order is the rank. *)
Lemma key_le_rank a b : key_le a b -> a.1.1 <= b.1.1.
Proof.
  destruct a as [[r1 s1] t1], b as [[r2 s2] t2]. simpl.
  intros [H|H].
  - apply key_cmp_lt in H. lia.
  - apply key_cmp_eq in H. injection H as -> _ _. lia.
Qed.

(** Keys with distinct symbols, both strings, are strictly ordered. *)
Lemma distinct_symbols_strict r1 x1 t1 r2 x2 t2 :
  x1 <> x2 ->
  key_leb (r1, PyStr x1, t1) (r2, PyStr x2, t2)
  = negb (key_leb (r2, PyStr x2, t2) (r1, PyStr x1, t1)).
Proof.
  intros Hne. unfold key_leb.
  rewrite (key_cmp_antisym (r1, PyStr x1, t1) (r2, PyStr x2, t2)).
  unfold key_cmp. destruct (r1 ?= r2); simpl; try reflexivity.
  destruct (String.compare x1 x2) eqn:E; simpl; try reflexivity.
  apply String.compare_eq_iff in E. contradiction.
Qed.

(* --------------------------------------------------------------------- *)
(** ** [sort_rows]: when it succeeds and what it returns *)
(* --------------------------------------------------------------------- *)

Lemma key_of_ok r k : sort_key r = Ok k -> key_of r = k.
Proof. unfold key_of. now intros ->. Qed.

Lemma mapR_keyed rows kd :
  mapR (fun item => k ← sort_key item; Ok (k, item)) rows = Ok kd
  <-> Forall (fun r => sort_key r = Ok (key_of r)) rows /\ kd = keyed rows.
Proof.
  revert kd. induction rows as [|r rows IH]; intros kd; simpl.
  - split; [intros [= <-]; split; [constructor|reflexivity]|now intros [_ ->]].
  - unfold mbind, result_bind, rbind at 1.
    destruct (sort_key r) as [k|e] eqn:Ek; simpl.
    + destruct (mapR _ rows) as [kd'|e] eqn:Em; simpl.
      * destruct (proj1 (IH kd') eq_refl) as [Hall ->].
        pose proof (key_of_ok r k Ek) as Hk.
        split.
        -- intros [= <-]. split.
           ++ constructor; [|exact Hall]. now rewrite Hk.
           ++ unfold keyed. simpl. now rewrite Hk.
        -- intros [_ ->]. unfold keyed. simpl. now rewrite Hk.
      * split; [discriminate|]. intros [Hall _]. inversion Hall; subst.
        assert (Raise e = Ok (keyed rows)) as C; [|discriminate].
        apply IH. split; [assumption|reflexivity].
    + split; [discriminate|]. intros [Hall _]. inversion Hall; congruence.
Qed.

Lemma comparable_check (kd : list (sort_key_t * row)) :
  forallb (fun a => forallb (fun b => comparable a.1 b.1) kd) kd = true
  <-> (forall a b, In a kd -> In b kd -> comparable a.1 b.1 = true).
Proof.
  rewrite forallb_forall. split.
  - intros H a b Ha Hb. specialize (H a Ha). rewrite forallb_forall in H. auto.
  - intros H a Ha. apply forallb_forall. auto.
Qed.

Lemma sort_rows_ok rows out :
  sort_rows rows = Ok out
  <-> Forall (fun r => sort_key r = Ok (key_of r)) rows
      /\ (forall a b, In a (keyed rows) -> In b (keyed rows) ->
                      comparable a.1 b.1 = true)
      /\ out = map snd (stable_sort keyed_leb (keyed rows)).
Proof.
  unfold sort_rows, mbind, result_bind, rbind at 1.
  destruct (mapR _ rows) as [kd|e] eqn:Em.
  - apply mapR_keyed in Em as [Hall ->].
    destruct (forallb _ (keyed rows)) eqn:Ec.
    + pose proof (proj1 (comparable_check (keyed rows)) Ec) as Hc0. split.
      * intros [= <-]. auto.
      * intros (_ & _ & ->). reflexivity.
    + split; [discriminate|]. intros (_ & Hc & _).
      pose proof (proj2 (comparable_check (keyed rows)) Hc). congruence.
  - split; [discriminate|]. intros (Hall & _ & _).
    assert (Raise e = Ok (keyed rows)) as C; [|discriminate].
    rewrite <- Em. apply mapR_keyed. auto.
Qed.

Lemma map_snd_keyed rows : map snd (keyed rows) = rows.
Proof. unfold keyed. rewrite map_map. simpl. apply map_id. Qed.

Lemma sort_rows_perm rows out : sort_rows rows = Ok out -> Permutation out rows.
Proof.
  intros H. apply sort_rows_ok in H as (_ & _ & ->).
  rewrite <- (map_snd_keyed rows) at 2.
  apply Permutation_map, stable_sort_perm.
Qed.

Lemma sorted_keys (S : list (sort_key_t * row)) :
  Sorted (fun a b => keyed_leb a b = true) S ->
  (forall a b, In a S -> In b S -> comparable a.1 b.1 = true) ->
  StronglySorted key_le (map fst S).
Proof.
  induction 1 as [|a l Hs IH Hhd]; intros Hc; simpl; [constructor|].
  assert (Hl : StronglySorted key_le (map fst l)).
  { apply IH. intros x y Hx Hy. apply Hc; now right. }
  constructor; [exact Hl|].
  destruct l as [|b l']; simpl; [constructor|].
  inversion Hhd as [|? ? Hab]; subst.
  assert (Hle : key_le a.1 b.1).
  { apply key_leb_le; [|exact Hab]. apply Hc; [now left|right; now left]. }
  constructor; [exact Hle|].
  simpl in Hl. inversion Hl as [|? ? _ Hall]; subst.
  eapply Forall_impl; [exact Hall|].
  intros c Hbc. etransitivity; eassumption.
Qed.

(** What [sort_rows] returns is sorted by the composite key. *)
Lemma sort_rows_sorted rows out : sort_rows rows = Ok out -> rows_sorted out.
Proof.
  intros H. apply sort_rows_ok in H as (Hall & Hc & ->).
  set (S := stable_sort keyed_leb (keyed rows)).
  assert (Hperm : Permutation S (keyed rows)) by apply stable_sort_perm.
  exists (map fst S). split.
  - apply mapR_ok.
    assert (HS : Forall (fun p => sort_key p.2 = Ok p.1) S).
    { eapply Permutation_Forall; [symmetry; exact Hperm|].
      unfold keyed. apply Forall_map. exact Hall. }
    clearbody S. clear -HS.
    induction HS as [|p S Hp HS IH]; simpl; constructor; assumption.
  - apply sorted_keys.
    + apply stable_sort_Sorted. intros a b. apply key_leb_total.
    + intros a b Ha Hb. apply Hc.
      * eapply Permutation_in; [exact Hperm|exact Ha].
      * eapply Permutation_in; [exact Hperm|exact Hb].
Qed.

(* --------------------------------------------------------------------- *)
(** ** The merge engine: ingestion *)
(* --------------------------------------------------------------------- *)

Lemma fold_insert_lookup (g : string -> pyval) bh : forall (d : row) k,
  fold_left (fun d k => <[k := g k]> d) bh d !! k
  = if decide (k ∈ bh) then Some (g k) else d !! k.
Proof.
  induction bh as [|b bh IH]; intros d k; simpl.
  - destruct (decide (k ∈ [])) as [H|_]; [inversion H|reflexivity].
  - rewrite IH.
    destruct (decide (k ∈ bh)) as [Hin|Hnin].
    + destruct (decide (k ∈ b :: bh)) as [_|Hn]; [reflexivity|].
      exfalso. apply Hn. now right.
    + destruct (decide (b = k)) as [->|Hne].
      * rewrite lookup_insert_eq.
        destruct (decide (k ∈ k :: bh)) as [_|Hn]; [reflexivity|].
        exfalso. apply Hn. now left.
      * rewrite lookup_insert_ne by exact Hne.
        destruct (decide (k ∈ b :: bh)) as [Hin|_]; [|reflexivity].
        apply elem_of_cons in Hin as [->|Hin]; contradiction.
Qed.

Lemma merged_row_base c n bh r k :
  k ∈ bh -> merged_row c n bh r !! k = Some (get_or_empty r k).
Proof.
  intros Hin. unfold merged_row.
  rewrite (fold_insert_lookup (get_or_empty r)).
  destruct (decide (k ∈ bh)); [reflexivity|contradiction].
Qed.

Lemma merged_row_other c n bh r k :
  k ∉ bh ->
  merged_row c n bh r !! k
  = (<["source_file" := PyStr n]>
       (<["coin_symbol" := PyStr (coin_symbol c)]>
          (<["coin_name" := PyStr (coin_name c)]>
             (<["coin_id" := PyStr (coin_id c)]>
                (<["coin_rank" := PyStr (coin_rank c)]> (∅ : row)))))) !! k.
Proof.
  intros Hin. unfold merged_row.
  rewrite (fold_insert_lookup (get_or_empty r)).
  destruct (decide (k ∈ bh)); [contradiction|reflexivity].
Qed.

Lemma merged_row_source_file c n bh r :
  "source_file" ∉ bh -> merged_row c n bh r !! "source_file" = Some (PyStr n).
Proof. intros H. now rewrite merged_row_other. Qed.

Lemma merged_row_coin_rank c n bh r :
  "coin_rank" ∉ bh -> merged_row c n bh r !! "coin_rank" = Some (PyStr (coin_rank c)).
Proof. intros H. now rewrite merged_row_other. Qed.

Lemma merged_row_coin_symbol c n bh r :
  "coin_symbol" ∉ bh ->
  merged_row c n bh r !! "coin_symbol" = Some (PyStr (coin_symbol c)).
Proof. intros H. now rewrite merged_row_other. Qed.

Lemma merged_row_coin_id c n bh r :
  "coin_id" ∉ bh -> merged_row c n bh r !! "coin_id" = Some (PyStr (coin_id c)).
Proof. intros H. now rewrite merged_row_other. Qed.

Lemma merged_row_coin_name c n bh r :
  "coin_name" ∉ bh -> merged_row c n bh r !! "coin_name" = Some (PyStr (coin_name c)).
Proof. intros H. now rewrite merged_row_other. Qed.

Lemma get_or_empty_missing (r : row) k : r !! k = None -> get_or_empty r k = PyStr "".
Proof. unfold get_or_empty. now intros ->. Qed.

(** The fold of [ingest_file] is the concatenation described by
    [rows_from], [headers_from] and the list of unmatched names. *)
Lemma ingest_file_spec `{Str : StrMethods} m st f :
  ingest_file m st f
  = {| all_rows := all_rows st ++ file_rows m (next_headers (base_headers st) f) f;
       unmatched_files := unmatched_files st
                          ++ (if matched m f then [] else [name f]);
       base_headers := next_headers (base_headers st) f |}.
Proof.
  unfold ingest_file, file_rows, coin_meta_of, matched, next_headers.
  destruct (m !! parse_symbol_from_filename (name f)) as [c|] eqn:E.
  - rewrite bool_decide_eq_true_2 by (eexists; reflexivity).
    rewrite app_nil_r. destruct (base_headers st); reflexivity.
  - rewrite bool_decide_eq_false_2; [|intros [? ?]; discriminate].
    destruct (base_headers st); reflexivity.
Qed.

Lemma ingest_fold_spec `{Str : StrMethods} m files : forall st,
  fold_left (ingest_file m) files st
  = {| all_rows := all_rows st ++ rows_from m (base_headers st) files;
       unmatched_files := unmatched_files st
                          ++ map name (List.filter (fun f => negb (matched m f)) files);
       base_headers := headers_from (base_headers st) files |}.
Proof.
  induction files as [|f fs IH]; intros st; simpl.
  - rewrite !app_nil_r. now destruct st.
  - rewrite IH, ingest_file_spec. simpl.
    rewrite <- !app_assoc. f_equal. f_equal.
    destruct (matched m f); reflexivity.
Qed.

Lemma headers_from_nonempty bh files : bh <> [] -> headers_from bh files = bh.
Proof.
  revert bh. induction files as [|f fs IH]; intros bh Hne; simpl; [reflexivity|].
  assert (next_headers bh f = bh) as ->; [|now apply IH].
  unfold next_headers. destruct bh; [contradiction|reflexivity].
Qed.

Lemma headers_from_empty files : headers_from [] files = first_headers files.
Proof.
  induction files as [|f fs IH]; simpl; [reflexivity|].
  destruct (default [] (fieldnames f)) as [|a h] eqn:E; [exact IH|].
  now apply headers_from_nonempty.
Qed.

Lemma ingest_files_spec `{Str : StrMethods} m files :
  ingest_files files m
  = {| all_rows := rows_from m [] files;
       unmatched_files := map name (List.filter (fun f => negb (matched m f)) files);
       base_headers := first_headers files |}.
Proof.
  unfold ingest_files. rewrite ingest_fold_spec. simpl.
  now rewrite headers_from_empty.
Qed.

Lemma rows_from_length `{Str : StrMethods} m files : forall bh,
  length (rows_from m bh files)
  = list_sum (map (fun f => length (dict_rows f)) files).
Proof.
  induction files as [|f fs IH]; intros bh; simpl; [reflexivity|].
  rewrite length_app, IH. unfold file_rows. now rewrite length_map.
Qed.

Lemma rows_from_elem `{Str : StrMethods} m files : forall bh r,
  In r (rows_from m bh files) ->
  exists f, In f files /\ row_of m (headers_from bh files) f r.
Proof.
  induction files as [|f fs IH]; intros bh r; simpl; [contradiction|].
  intros H. apply in_app_or in H as [H|H].
  - exists f. split; [now left|].
    unfold file_rows in H. apply in_map_iff in H as (r0 & <- & Hr0).
    exists r0, (next_headers bh f). split; [exact Hr0|]. split; [|reflexivity].
    destruct (next_headers bh f) as [|a h] eqn:E; [now left|right].
    symmetry. now apply headers_from_nonempty.
  - apply IH in H as (g & Hg & Hrow). exists g. split; [now right|exact Hrow].
Qed.

Lemma rows_from_intro `{Str : StrMethods} m files : forall bh f r0,
  In f files -> In r0 (dict_rows f) ->
  exists r, In r (rows_from m bh files) /\ row_of m (headers_from bh files) f r.
Proof.
  induction files as [|g fs IH]; intros bh f r0; simpl; [contradiction|].
  intros [->|Hf] Hr0.
  - exists (merged_row (coin_meta_of m f) (name f) (next_headers bh f) r0). split.
    + apply in_or_app. left. unfold file_rows. now apply in_map.
    + exists r0, (next_headers bh f). split; [exact Hr0|]. split; [|reflexivity].
      destruct (next_headers bh f) as [|a h] eqn:E; [now left|right].
      symmetry. now apply headers_from_nonempty.
  - destruct (IH (next_headers bh g) f r0 Hf Hr0) as (r & Hr & Hrow).
    exists r. split; [apply in_or_app; now right|exact Hrow].
Qed.

(** With one header line shared by all the files, every file is merged
    under that schema. *)
Lemma rows_from_uniform `{Str : StrMethods} m h files :
  h <> [] ->
  Forall (fun f => fieldnames f = Some h) files ->
  forall bh, bh = [] \/ bh = h ->
  rows_from m bh files = flat_map (file_rows m h) files.
Proof.
  intros Hne Hall. induction Hall as [|f fs Hf Hall IH]; intros bh Hbh; simpl;
    [reflexivity|].
  assert (next_headers bh f = h) as ->.
  { unfold next_headers. destruct Hbh as [->| ->].
    - rewrite Hf. simpl. destruct h; [contradiction|reflexivity].
    - destruct h; [contradiction|reflexivity]. }
  rewrite (IH h) by now right. reflexivity.
Qed.

Lemma first_headers_uniform h f files :
  h <> [] ->
  Forall (fun f => fieldnames f = Some h) (f :: files) ->
  first_headers (f :: files) = h.
Proof.
  intros Hne Hall. inversion Hall as [|? ? Hf _]; subst. simpl.
  rewrite Hf. simpl. destruct h; [contradiction|reflexivity].
Qed.

(** Once a schema is fixed, every file is merged under it. *)
Lemma rows_from_fixed `{Str : StrMethods} m h files :
  h <> [] -> rows_from m h files = flat_map (file_rows m h) files.
Proof.
  intros Hne. induction files as [|f fs IH]; simpl; [reflexivity|].
  assert (next_headers h f = h) as ->; [|now rewrite IH].
  unfold next_headers. destruct h; [contradiction|reflexivity].
Qed.

(** A first file with a header line fixes the schema for all the
    files. *)
Lemma rows_from_first `{Str : StrMethods} m f0 rest h :
  fieldnames f0 = Some h -> h <> [] ->
  rows_from m [] (f0 :: rest) = flat_map (file_rows m h) (f0 :: rest)
  /\ first_headers (f0 :: rest) = h.
Proof.
  intros Hf Hne. cbn [rows_from first_headers flat_map].
  unfold next_headers. rewrite Hf. cbn [default].
  destruct h as [|a h]; [contradiction|]. split; [|reflexivity].
  now rewrite rows_from_fixed.
Qed.

(* --------------------------------------------------------------------- *)
(** ** The merge engine: keys of merged rows *)
(* --------------------------------------------------------------------- *)

Lemma sort_key_merged_symbol c n bh r0 k :
  "coin_symbol" ∉ bh ->
  sort_key (merged_row c n bh r0) = Ok k ->
  k.1.2 = PyStr (coin_symbol c).
Proof.
  intros Hs. unfold sort_key, getitem, mbind, result_bind, rbind.
  rewrite (merged_row_coin_symbol c n bh r0 Hs).
  destruct (merged_row c n bh r0 !! "coin_rank") as [v|]; [|discriminate].
  destruct (py_int v); [|discriminate].
  now intros [= <-].
Qed.

Lemma sort_key_merged_rank c n bh r0 k :
  "coin_rank" ∉ bh ->
  sort_key (merged_row c n bh r0) = Ok k ->
  py_int_str (coin_rank c) = Some k.1.1.
Proof.
  intros Hr. unfold sort_key, getitem, mbind, result_bind, rbind.
  rewrite (merged_row_coin_rank c n bh r0 Hr). simpl.
  destruct (py_int_str (coin_rank c)) as [z|]; [|discriminate].
  destruct (merged_row c n bh r0 !! "coin_symbol") as [v|]; [|discriminate].
  now intros [= <-].
Qed.

Lemma sort_key_merged_ok c n bh r0 z :
  "coin_rank" ∉ bh -> "coin_symbol" ∉ bh ->
  py_int_str (coin_rank c) = Some z ->
  sort_key (merged_row c n bh r0)
  = Ok (z, PyStr (coin_symbol c),
        if decide ("snapped_at" ∈ bh) then get_or_empty r0 "snapped_at"
        else PyStr "").
Proof.
  intros Hr Hs Hz. unfold sort_key, getitem, mbind, result_bind, rbind.
  rewrite (merged_row_coin_rank c n bh r0 Hr),
          (merged_row_coin_symbol c n bh r0 Hs). simpl. rewrite Hz.
  destruct (decide ("snapped_at" ∈ bh)) as [Hin|Hnin].
  - now rewrite merged_row_base.
  - now rewrite merged_row_other.
Qed.

(** A record that is not short gives a dict without any [None]. *)
Lemma fold_insert_values (Q : pyval -> Prop) (l : list (string * pyval)) :
  forall d : row,
    (forall k v, d !! k = Some v -> Q v) ->
    Forall (fun kv => Q kv.2) l ->
    forall k v, fold_left (fun d kv => <[kv.1 := kv.2]> d) l d !! k = Some v -> Q v.
Proof.
  induction l as [|[k0 v0] l IH]; intros d Hd Hl k v; simpl; [apply Hd|].
  inversion Hl; subst. apply IH; [|assumption].
  intros k' v'. destruct (decide (k0 = k')) as [->|Hne].
  - rewrite lookup_insert_eq. now intros [= <-].
  - rewrite lookup_insert_ne by exact Hne. apply Hd.
Qed.

Lemma row_dict_strings fields record k v :
  (length fields <= length record)%nat ->
  row_dict fields record !! k = Some v -> exists s, v = PyStr s.
Proof.
  intros Hlen. unfold row_dict.
  replace (length fields - length record)%nat with 0%nat by lia.
  simpl. rewrite app_nil_r.
  apply (fold_insert_values (fun v => exists s, v = PyStr s)).
  - intros k' v'. rewrite lookup_empty. discriminate.
  - apply Forall_forall. intros [k' v'] Hin. simpl.
    apply elem_of_zip_r in Hin. apply list_elem_of_In in Hin.
    apply in_map_iff in Hin as (s & <- & _). eauto.
Qed.

Lemma dict_rows_strings f r0 k :
  no_short_record f -> In r0 (dict_rows f) ->
  exists s, get_or_empty r0 k = PyStr s.
Proof.
  unfold no_short_record, dict_rows, get_or_empty.
  destruct (records f) as [|fields rest]; [contradiction|].
  intros Hall Hin. apply in_map_iff in Hin as (rec & <- & Hrec).
  apply filter_In in Hrec as [Hrec Hnb].
  rewrite Forall_forall in Hall.
  apply list_elem_of_In in Hrec.
  destruct (Hall rec Hrec) as [->|Hlen]; [discriminate|].
  destruct (row_dict fields rec !! k) as [v|] eqn:E; simpl; [|eauto].
  eapply row_dict_strings; eassumption.
Qed.

Lemma comparable_strings z1 a1 b1 z2 a2 b2 :
  comparable (z1, PyStr a1, PyStr b1) (z2, PyStr a2, PyStr b2) = true.
Proof.
  unfold comparable, key_cmp. destruct (z1 ?= z2); try reflexivity.
  simpl. destruct (String.compare a1 a2); reflexivity.
Qed.

Lemma coin_meta_of_symbol `{Str : StrMethods} (m : ranking) f :
  (forall s c, m !! s = Some c -> coin_symbol c = s) ->
  coin_symbol (coin_meta_of m f) = parse_symbol_from_filename (name f).
Proof.
  intros Hm. unfold coin_meta_of.
  destruct (m !! parse_symbol_from_filename (name f)) as [c|] eqn:E;
    [now apply Hm|reflexivity].
Qed.

Lemma coin_meta_of_unmatched `{Str : StrMethods} (m : ranking) f :
  matched m f = false ->
  coin_meta_of m f = placeholder (parse_symbol_from_filename (name f)).
Proof.
  unfold matched, coin_meta_of. intros H.
  apply bool_decide_eq_false in H.
  destruct (m !! parse_symbol_from_filename (name f)); [|reflexivity].
  exfalso. apply H. eauto.
Qed.

Lemma coin_meta_of_matched `{Str : StrMethods} (m : ranking) f :
  matched m f = true ->
  m !! parse_symbol_from_filename (name f) = Some (coin_meta_of m f).
Proof.
  unfold matched, coin_meta_of. intros H.
  apply bool_decide_eq_true in H as [c Hc]. now rewrite Hc.
Qed.

Lemma keyed_flat_map {F} (g : F -> list row) fs :
  keyed (flat_map g fs) = flat_map (fun f => keyed (g f)) fs.
Proof.
  unfold keyed. induction fs as [|f fs IH]; simpl; [reflexivity|].
  now rewrite map_app, IH.
Qed.

Lemma in_keyed p rows :
  In p (keyed rows) <-> p.1 = key_of p.2 /\ In p.2 rows.
Proof.
  unfold keyed. rewrite in_map_iff. split.
  - intros (r & <- & Hr). simpl. auto.
  - intros [Hk Hr]. exists p.2. split; [|exact Hr].
    destruct p as [k r]. simpl in *. now subst.
Qed.

Lemma StronglySorted_lookup_le (keys : list sort_key_t) i j a b :
  StronglySorted key_le keys ->
  (i < j)%nat -> keys !! i = Some a -> keys !! j = Some b -> key_le a b.
Proof.
  intros Hs. revert i j. induction Hs as [|k keys Hs IH Hall]; intros i j Hij Ha Hb.
  - rewrite lookup_nil in Ha. discriminate.
  - destruct j as [|j]; [lia|]. simpl in Hb.
    destruct i as [|i]; simpl in Ha.
    + injection Ha as ->. rewrite Forall_forall in Hall.
      apply Hall. eapply list_elem_of_lookup_2. exact Hb.
    + apply (IH i j); [lia|assumption|assumption].
Qed.

Lemma row_of_key `{Str : StrMethods} (m : ranking) bh f r :
  "coin_rank" ∉ bh -> "coin_symbol" ∉ bh ->
  no_short_record f ->
  is_Some (py_int_str (coin_rank (coin_meta_of m f))) ->
  row_of m bh f r ->
  exists z a b, sort_key r = Ok (z, PyStr a, PyStr b).
Proof.
  intros Hr Hs Hshort [z Hz] (r0 & bh' & Hr0 & Hbh & ->).
  assert (Hr' : "coin_rank" ∉ bh') by (destruct Hbh as [->| ->]; [apply not_elem_of_nil|exact Hr]).
  assert (Hs' : "coin_symbol" ∉ bh') by (destruct Hbh as [->| ->]; [apply not_elem_of_nil|exact Hs]).
  rewrite (sort_key_merged_ok _ _ _ _ z Hr' Hs' Hz).
  destruct (decide ("snapped_at" ∈ bh')).
  - destruct (dict_rows_strings f r0 "snapped_at" Hshort Hr0) as [s ->]. eauto.
  - eauto.
Qed.

Lemma coin_meta_of_rank `{Str : StrMethods} (m : ranking) f :
  (forall s c, m !! s = Some c -> is_Some (py_int_str (coin_rank c))) ->
  is_Some (py_int_str (coin_rank (coin_meta_of m f))).
Proof.
  intros Hm. unfold coin_meta_of.
  destruct (m !! parse_symbol_from_filename (name f)) as [c|] eqn:E.
  - eapply Hm, E.
  - exists 999999. reflexivity.
Qed.

(** The engine returns when every key can be computed and compared. *)
Lemma build_merged_rows_returns `{Str : StrMethods}
    (files : list AssetFile) (m : ranking) :
  "coin_rank" ∉ first_headers files ->
  "coin_symbol" ∉ first_headers files ->
  Forall no_short_record files ->
  (forall s c, m !! s = Some c -> is_Some (py_int_str (coin_rank c))) ->
  exists hdr rows unm, build_merged_rows files m = Ok (hdr, rows, unm).
Proof.
  intros Hr Hs Hshort Hm.
  unfold build_merged_rows. rewrite ingest_files_spec.
  cbn [all_rows base_headers unmatched_files].
  assert (Hkeys : forall r, In r (rows_from m [] files) ->
                            exists z a b, sort_key r = Ok (z, PyStr a, PyStr b)).
  { intros r Hin. apply rows_from_elem in Hin as (f & Hf & Hrow).
    rewrite headers_from_empty in Hrow.
    rewrite Forall_forall in Hshort.
    eapply (row_of_key m _ f r); eauto.
    - apply Hshort. now apply list_elem_of_In.
    - now apply coin_meta_of_rank. }
  destruct (sort_rows (rows_from m [] files)) as [out|e] eqn:E.
  + simpl. eauto.
  + exfalso.
    assert (Hok : sort_rows (rows_from m [] files)
                  = Ok (map snd (stable_sort keyed_leb
                                   (keyed (rows_from m [] files))))).
    { apply sort_rows_ok. split; [|split; [|reflexivity]].
      - apply Forall_forall. intros r Hin. apply list_elem_of_In in Hin.
        destruct (Hkeys r Hin) as (z & a & b & Hk).
        now rewrite (key_of_ok _ _ Hk).
      - intros x y Hx Hy.
        apply in_keyed in Hx as [Ex Hx]. apply in_keyed in Hy as [Ey Hy].
        destruct (Hkeys _ Hx) as (z1 & a1 & b1 & K1).
        destruct (Hkeys _ Hy) as (z2 & a2 & b2 & K2).
        rewrite Ex, Ey, (key_of_ok _ _ K1), (key_of_ok _ _ K2).
        apply comparable_strings. }
    congruence.
Qed.

Lemma sample_ranking_ranks s c :
  sample_ranking !! s = Some c -> is_Some (py_int_str (coin_rank c)).
Proof.
  unfold sample_ranking. intros H.
  apply lookup_insert_Some in H as [[<- <-]|[_ H]]; [eexists; reflexivity|].
  apply lookup_insert_Some in H as [[<- <-]|[_ H]]; [eexists; reflexivity|].
  rewrite lookup_empty in H. discriminate.
Qed.

Lemma sample_files_not_short :
  Forall no_short_record [sample_btc_file; sample_xrp_file].
Proof.
  repeat (apply Forall_cons_2;
          [unfold no_short_record; simpl;
           repeat (apply Forall_cons_2; [right; simpl; lia|]);
           apply Forall_nil_2|]).
  apply Forall_nil_2.
Qed.

Lemma sample_headers_free k :
  k = "coin_rank" \/ k = "coin_symbol" ->
  k ∉ first_headers [sample_btc_file; sample_xrp_file].
Proof.
  intros Hk H. simpl in H.
  repeat (apply elem_of_cons in H as [H|H];
          [destruct Hk as [->| ->]; discriminate|]).
  inversion H.
Qed.

Lemma sample_merge_returns :
  exists hdr rows unm,
    build_merged_rows [sample_btc_file; sample_xrp_file] sample_ranking
    = Ok (hdr, rows, unm).
Proof.
  apply build_merged_rows_returns.
  - apply sample_headers_free. now left.
  - apply sample_headers_free. now right.
  - exact sample_files_not_short.
  - exact sample_ranking_ranks.
Qed.


(* --------------------------------------------------------------------- *)
(** ** Claims on the merge engine *)
(* --------------------------------------------------------------------- *)

Lemma filter_Permutation {A} (p : A -> bool) (l l' : list A) :
  Permutation l l' -> Permutation (List.filter p l) (List.filter p l').
Proof.
  induction 1 as [|x l l' _ IH|x y l|l l' l'' _ IH1 _ IH2]; simpl.
  - reflexivity.
  - destruct (p x); [now constructor|exact IH].
  - destruct (p x), (p y); try reflexivity. apply perm_swap.
  - etransitivity; eassumption.
Qed.

Lemma keyed_leb_trans_on (L : list (sort_key_t * row)) :
  (forall a b, In a L -> In b L -> comparable a.1 b.1 = true) ->
  forall a b c, In a L -> In b L -> In c L ->
                keyed_leb a b = true -> keyed_leb b c = true -> keyed_leb a c = true.
Proof.
  intros Hc a b c Ha Hb Hcin Hab Hbc. unfold keyed_leb in *.
  apply key_le_leb. transitivity b.1; apply key_leb_le; auto.
Qed.

(** Rows of two files with distinct symbols never tie. *)
Lemma distinct_files_strict `{Str : StrMethods}
    (m : ranking) h f f' (L : list row) :
  "coin_symbol" ∉ h ->
  (forall s c, m !! s = Some c -> coin_symbol c = s) ->
  Forall (fun r => sort_key r = Ok (key_of r)) L ->
  Forall (fun p => In p (keyed L)) (keyed (file_rows m h f)) ->
  Forall (fun p => In p (keyed L)) (keyed (file_rows m h f')) ->
  parse_symbol_from_filename (name f) <> parse_symbol_from_filename (name f') ->
  Forall (fun x => Forall (strictly_ordered keyed_leb x) (keyed (file_rows m h f')))
         (keyed (file_rows m h f)).
Proof.
  intros Hs Hm Hall Pf Pf' Hne.
  rewrite Forall_forall in Hall.
  assert (Hkey : forall g p,
             In p (keyed L) -> In p (keyed (file_rows m h g)) ->
             p.1.1.2 = PyStr (parse_symbol_from_filename (name g))).
  { intros g p HpL Hpg.
    apply in_keyed in HpL as [Hk HL]. apply in_keyed in Hpg as [_ Hg].
    apply list_elem_of_In in HL. specialize (Hall _ HL). cbv beta in Hall.
    rewrite <- Hk in Hall.
    unfold file_rows in Hg. apply in_map_iff in Hg as (r0 & Hr & _).
    rewrite <- Hr in Hall.
    apply sort_key_merged_symbol in Hall; [|exact Hs].
    rewrite Hall. f_equal. now apply coin_meta_of_symbol. }
  rewrite Forall_forall in Pf, Pf'.
  apply Forall_forall. intros x Hx. apply Forall_forall. intros y Hy.
  pose proof (Hkey f x (Pf x Hx) (proj1 (list_elem_of_In _ _) Hx)) as Kx.
  pose proof (Hkey f' y (Pf' y Hy) (proj1 (list_elem_of_In _ _) Hy)) as Ky.
  unfold strictly_ordered, keyed_leb.
  destruct x as [[[z1 s1] t1] r1], y as [[[z2 s2] t2] r2]. simpl in *. subst s1 s2.
  now apply distinct_symbols_strict.
Qed.

(** C1 (as the code has it): the rows returned by the merge engine are
    sorted by the composite key: rank as an integer, then symbol, then
    the [snapped_at] field (the empty string when the row has none), each
    row against every later one.  Handing the files over in another
    order gives the same header and the same sequence of rows when all
    the files carry the same, non-empty header line, that header has no
    column named [coin_symbol], no two files have the same symbol, and
    every entry of the ranking map carries its key as symbol; the list of
    unmatched names is then the same up to its order. *)
Theorem C1_sorted_and_order_independent `{Str : StrMethods} :
  (forall files (m : ranking) hdr rows unm,
      build_merged_rows files m = Ok (hdr, rows, unm) -> rows_sorted rows)
  /\ (forall files files' (m : ranking) h hdr rows unm,
         Permutation files files' ->
         h <> [] ->
         "coin_symbol" ∉ h ->
         Forall (fun f => fieldnames f = Some h) files ->
         NoDup (map (fun f => parse_symbol_from_filename (name f)) files) ->
         (forall s c, m !! s = Some c -> coin_symbol c = s) ->
         build_merged_rows files m = Ok (hdr, rows, unm) ->
         exists unm',
           build_merged_rows files' m = Ok (hdr, rows, unm')
           /\ Permutation unm unm').
Proof.
  split.
  - intros files m hdr rows unm. unfold build_merged_rows, mbind, result_bind, rbind.
    destruct (sort_rows _) as [out|e] eqn:E; [|discriminate].
    intros [= _ <- _]. eapply sort_rows_sorted, E.
  - intros files files' m h hdr rows unm Hperm Hne Hs Hall Hnd Hm.
    assert (Hall' : Forall (fun f => fieldnames f = Some h) files').
    { eapply Permutation_Forall; eassumption. }
    unfold build_merged_rows. rewrite !ingest_files_spec. cbn [all_rows base_headers
      unmatched_files].
    rewrite (rows_from_uniform m h files Hne Hall []) by now left.
    rewrite (rows_from_uniform m h files' Hne Hall' []) by now left.
    assert (Hhdr : first_headers files = first_headers files').
    { destruct files as [|f fs].
      - apply Permutation_nil in Hperm. now subst.
      - destruct files' as [|f' fs'].
        + symmetry in Hperm. apply Permutation_nil in Hperm. discriminate.
        + now rewrite !(first_headers_uniform h). }
    rewrite <- Hhdr.
    set (L := flat_map (file_rows m h) files).
    set (L' := flat_map (file_rows m h) files').
    assert (HL : Permutation L L') by now apply Permutation_flat_map.
    unfold mbind, result_bind, rbind.
    destruct (sort_rows L) as [out|e] eqn:E; [|discriminate].
    intros [= <- <- <-].
    apply sort_rows_ok in E as (Hk & Hc & ->).
    assert (E' : sort_rows L'
                 = Ok (map snd (stable_sort keyed_leb (keyed L)))).
    { apply sort_rows_ok. split; [|split].
      - eapply Permutation_Forall; eassumption.
      - intros a b Ha Hb. apply Hc.
        + eapply Permutation_in; [|exact Ha]. symmetry. now apply Permutation_map.
        + eapply Permutation_in; [|exact Hb]. symmetry. now apply Permutation_map.
      - f_equal. unfold L, L'. rewrite !keyed_flat_map.
        apply (stable_sort_blocks keyed_leb (fun p => In p (keyed L))
                 (keyed_leb_trans_on (keyed L) Hc)
                 (fun f => keyed (file_rows m h f))
                 (fun f => parse_symbol_from_filename (name f))).
        + exact Hperm.
        + exact Hnd.
        + intros f f' Pf Pf' Hne'. eapply distinct_files_strict; eassumption.
        + apply Forall_forall. intros f Hf. apply Forall_forall. intros p Hp.
          unfold L. rewrite keyed_flat_map. apply in_flat_map.
          exists f. split; apply list_elem_of_In; assumption. }
    rewrite E'. eexists. split; [reflexivity|].
    apply Permutation_map, filter_Permutation, Hperm.
Qed.

Lemma sample_ranking_keyed s c : sample_ranking !! s = Some c -> coin_symbol c = s.
Proof.
  unfold sample_ranking. intros H.
  apply lookup_insert_Some in H as [[<- <-]|[_ H]]; [reflexivity|].
  apply lookup_insert_Some in H as [[<- <-]|[_ H]]; [reflexivity|].
  rewrite lookup_empty in H. discriminate.
Qed.

Lemma C1_witness :
  exists hdr rows unm unm',
    build_merged_rows [sample_btc_file; sample_xrp_file] sample_ranking
    = Ok (hdr, rows, unm)
    /\ rows_sorted rows
    /\ build_merged_rows [sample_xrp_file; sample_btc_file] sample_ranking
       = Ok (hdr, rows, unm')
    /\ Permutation unm unm'.
Proof.
  destruct sample_merge_returns as (hdr & rows & unm & E).
  destruct (proj2 C1_sorted_and_order_independent
              [sample_btc_file; sample_xrp_file] [sample_xrp_file; sample_btc_file]
              sample_ranking
              ["snapped_at"; "price"; "market_cap"; "total_volume"]
              hdr rows unm) as (unm' & E' & Hperm).
  - apply perm_swap.
  - discriminate.
  - intros H. repeat (apply elem_of_cons in H as [H|H]; [discriminate|]).
    inversion H.
  - repeat constructor.
  - apply (bool_decide_unpack _). vm_compute. reflexivity.
  - exact sample_ranking_keyed.
  - exact E.
  - exists hdr, rows, unm, unm'. split; [exact E|]. split; [|split; assumption].
    exact (proj1 C1_sorted_and_order_independent _ _ _ _ _ E).
Defined.

(** C1, as stated, fails on its second half.  Two files with different
    header lines: the header of the output is the one of whichever file
    comes first.  Two files with the same symbol and a row at the same
    [snapped_at]: the rows that tie keep the order of the input. *)
Lemma C1_counterexample :
  Permutation [sample_btc_file; sample_eth_file] [sample_eth_file; sample_btc_file]
  /\ fst <$> written (build_merged_rows [sample_btc_file; sample_eth_file] sample_ranking)
     = Some (fixed_headers ++ ["snapped_at"; "price"; "market_cap"; "total_volume"])
  /\ fst <$> written (build_merged_rows [sample_eth_file; sample_btc_file] sample_ranking)
     = Some (fixed_headers
             ++ ["snapped_at"; "price"; "market_cap"; "total_volume"; "note"])
  /\ Permutation [sample_btc_file; sample_btc_upper_file]
                 [sample_btc_upper_file; sample_btc_file]
  /\ snd <$> written (build_merged_rows [sample_btc_file; sample_btc_upper_file]
                                        sample_ranking)
     <> snd <$> written (build_merged_rows [sample_btc_upper_file; sample_btc_file]
                                           sample_ranking).
Proof.
  split; [apply perm_swap|].
  split; [vm_compute; reflexivity|].
  split; [vm_compute; reflexivity|].
  split; [apply perm_swap|].
  vm_compute. discriminate.
Qed.

Lemma row_of_rank `{Str : StrMethods} (m : ranking) bh f r k :
  "coin_rank" ∉ bh ->
  row_of m bh f r -> sort_key r = Ok k ->
  py_int_str (coin_rank (coin_meta_of m f)) = Some k.1.1.
Proof.
  intros Hr (r0 & bh' & _ & Hbh & ->) Hk.
  eapply sort_key_merged_rank; [|exact Hk].
  destruct Hbh as [->| ->]; [apply not_elem_of_nil|exact Hr].
Qed.

Lemma mapR_lookup {A B} (f : A -> result B) l l' i x :
  mapR f l = Ok l' -> l !! i = Some x -> exists y, l' !! i = Some y /\ f x = Ok y.
Proof.
  intros H Hx. apply mapR_ok in H.
  eapply Forall2_lookup_l in H as (y & Hy & Hf); eauto.
Qed.

(** C2 (as the code has it): a file whose symbol is not a key of the
    ranking map is merged under the placeholder entry (empty id and name,
    rank 999999), its name is reported in the list of unmatched files (in
    file order), and all its rows are in the output, no row being dropped
    or added.  When no column of the schema is named [coin_rank] and
    every rank of the map is an integer below 999999, every row of an
    unmatched file comes after every row of a matched file. *)
Theorem C2_unmatched_placeholder_last `{Str : StrMethods}
    (files : list AssetFile) (m : ranking) hdr rows unm :
  build_merged_rows files m = Ok (hdr, rows, unm) ->
  (forall f,
      In f files -> matched m f = false ->
      coin_meta_of m f
      = {| coin_id := ""; coin_name := "";
           coin_symbol := parse_symbol_from_filename (name f);
           coin_rank := "999999" |}
      /\ In (name f) unm
      /\ forall r0, In r0 (dict_rows f) ->
                    exists r, In r rows /\ row_of m (first_headers files) f r)
  /\ all_rows (ingest_files files m) = rows_from m [] files
  /\ unm = map name (List.filter (fun f => negb (matched m f)) files)
  /\ Permutation rows (rows_from m [] files)
  /\ ("coin_rank" ∉ first_headers files ->
      (forall s c, m !! s = Some c ->
                   exists z, py_int_str (coin_rank c) = Some z /\ z < 999999) ->
      forall i j ri rj f g,
        rows !! i = Some ri -> rows !! j = Some rj ->
        In f files -> In g files ->
        matched m f = false -> matched m g = true ->
        row_of m (first_headers files) f ri ->
        row_of m (first_headers files) g rj ->
        (j < i)%nat).
Proof.
  unfold build_merged_rows. rewrite ingest_files_spec.
  cbn [all_rows base_headers unmatched_files].
  unfold mbind, result_bind, rbind.
  destruct (sort_rows (rows_from m [] files)) as [out|e] eqn:E; [|discriminate].
  intros [= <- <- <-].
  pose proof (sort_rows_perm _ _ E) as Hperm.
  pose proof (sort_rows_sorted _ _ E) as (keys & Hkeys & Hsorted).
  split; [|split; [|split; [|split]]].
  - intros f Hf Hun. split; [now apply coin_meta_of_unmatched|]. split.
    + apply in_map. apply filter_In. split; [exact Hf|]. now rewrite Hun.
    + intros r0 Hr0.
      destruct (rows_from_intro m files [] f r0 Hf Hr0) as (r & Hr & Hrow).
      rewrite headers_from_empty in Hrow.
      exists r. split; [|exact Hrow].
      eapply Permutation_in; [symmetry; exact Hperm|exact Hr].
  - reflexivity.
  - reflexivity.
  - exact Hperm.
  - intros Hcol Hranks i j ri rj f g Hi Hj Hf Hg Hun Hma Hri Hrj.
    destruct (mapR_lookup _ _ _ _ _ Hkeys Hi) as (ki & Hki & Eki).
    destruct (mapR_lookup _ _ _ _ _ Hkeys Hj) as (kj & Hkj & Ekj).
    pose proof (row_of_rank m _ f ri ki Hcol Hri Eki) as Ri.
    pose proof (row_of_rank m _ g rj kj Hcol Hrj Ekj) as Rj.
    rewrite (coin_meta_of_unmatched m f Hun) in Ri.
    change (py_int_str (coin_rank (placeholder _))) with (Some 999999) in Ri.
    injection Ri as Ri.
    destruct (Hranks _ _ (coin_meta_of_matched m g Hma)) as (z & Hz & Hlt).
    rewrite Hz in Rj. injection Rj as Rj.
    destruct (Nat.lt_trichotomy i j) as [Hij|[->|Hji]]; [| |exact Hji].
    + pose proof (StronglySorted_lookup_le keys i j ki kj Hsorted Hij Hki Hkj) as Hle.
      apply key_le_rank in Hle. lia.
    + rewrite Hki in Hkj. injection Hkj as ->. lia.
Qed.

Lemma sample_ranking_below s c :
  sample_ranking !! s = Some c ->
  exists z, py_int_str (coin_rank c) = Some z /\ z < 999999.
Proof.
  unfold sample_ranking. intros H.
  apply lookup_insert_Some in H as [[<- <-]|[_ H]];
    [exists 1; split; [reflexivity|lia]|].
  apply lookup_insert_Some in H as [[<- <-]|[_ H]];
    [exists 2; split; [reflexivity|lia]|].
  rewrite lookup_empty in H. discriminate.
Qed.

Lemma C2_witness :
  exists hdr rows unm,
    build_merged_rows [sample_btc_file; sample_xrp_file] sample_ranking
    = Ok (hdr, rows, unm)
    /\ coin_meta_of sample_ranking sample_xrp_file
       = {| coin_id := ""; coin_name := ""; coin_symbol := "xrp";
            coin_rank := "999999" |}
    /\ In "xrp-usd-max.csv" unm
    /\ Permutation rows
         (rows_from sample_ranking [] [sample_btc_file; sample_xrp_file])
    /\ forall i j ri rj,
         rows !! i = Some ri -> rows !! j = Some rj ->
         row_of sample_ranking
                (first_headers [sample_btc_file; sample_xrp_file])
                sample_xrp_file ri ->
         row_of sample_ranking
                (first_headers [sample_btc_file; sample_xrp_file])
                sample_btc_file rj ->
         (j < i)%nat.
Proof.
  destruct sample_merge_returns as (hdr & rows & unm & E).
  destruct (C2_unmatched_placeholder_last _ _ _ _ _ E)
    as (Hun & _ & _ & Hperm & Horder).
  destruct (Hun sample_xrp_file) as (Hmeta & Hin & _).
  - right. now left.
  - vm_compute. reflexivity.
  - exists hdr, rows, unm. repeat split; try assumption.
    intros i j ri rj Hi Hj Hri Hrj.
    apply (Horder (sample_headers_free "coin_rank" (or_introl eq_refl))
                  sample_ranking_below
                  i j ri rj sample_xrp_file sample_btc_file); try assumption.
    + right. now left.
    + now left.
    + vm_compute. reflexivity.
    + vm_compute. reflexivity.
Defined.

(** C2, as stated, fails on the order.  With a column named [coin_rank]
    in the files, the rank written by the engine is replaced by the
    column: the row of the unmatched file comes first.  With a rank
    beyond 999999 in the ranking map, the rows of the unmatched file come
    before those of the matched one. *)
Lemma C2_counterexample :
  matched sample_ranking sample_btc_ranked_file = true
  /\ matched sample_ranking sample_xrp_ranked_file = false
  /\ written (build_merged_rows [sample_btc_ranked_file; sample_xrp_ranked_file]
                                sample_ranking)
     = Some (fixed_headers ++ ["snapped_at"; "coin_rank"],
             [["3"; ""; ""; "xrp"; "xrp-usd-max.csv"; "2020-01-01"; "3"];
              ["5"; "bitcoin"; "Bitcoin"; "btc"; "btc-usd-max.csv"; "2020-01-01"; "5"]])
  /\ matched sample_far_ranking sample_btc_file = true
  /\ matched sample_far_ranking sample_xrp_file = false
  /\ (snd <$> written (build_merged_rows [sample_btc_file; sample_xrp_file]
                                         sample_far_ranking)) ≫= head
     = Some ["999999"; ""; ""; "xrp"; "xrp-usd-max.csv";
             "2020-01-01 00:00:00 UTC"; "0.19"; "8000000"; "900"].
Proof.
  repeat split; vm_compute; reflexivity.
Qed.
(** C4 (as the code has it): when the merge engine returns, its rows
    are, up to their order, the merged rows of the data rows of the
    files, one for one, so their number is the sum of the numbers of
    data rows, and its header is the five fixed columns followed by the
    schema.  When the first file has a header line, that line is the
    schema: the header is the five fixed columns followed by it; every
    data row of every file gives one merged row, which has under each
    column of the schema the value of the data row, the empty string
    when the data row has no such column, and which carries the name of
    its file under [source_file] unless the schema itself has a column
    of that name. *)
Theorem C4_every_row_once `{Str : StrMethods}
    (files : list AssetFile) (m : ranking) hdr rows unm :
  build_merged_rows files m = Ok (hdr, rows, unm) ->
  Permutation rows (rows_from m [] files)
  /\ length rows = list_sum (map (fun f => length (dict_rows f)) files)
  /\ hdr = fixed_headers ++ first_headers files
  /\ forall f0 rest h,
       files = f0 :: rest -> fieldnames f0 = Some h -> h <> [] ->
       hdr = fixed_headers ++ h
       /\ Permutation rows (flat_map (file_rows m h) files)
       /\ forall f r0,
            In f files -> In r0 (dict_rows f) ->
            In (merged_row (coin_meta_of m f) (name f) h r0) rows
            /\ ("source_file" ∉ h ->
                merged_row (coin_meta_of m f) (name f) h r0 !! "source_file"
                = Some (PyStr (name f)))
            /\ (forall k, k ∈ h ->
                          merged_row (coin_meta_of m f) (name f) h r0 !! k
                          = Some (get_or_empty r0 k))
            /\ (forall k, r0 !! k = None -> get_or_empty r0 k = PyStr "").
Proof.
  unfold build_merged_rows. rewrite ingest_files_spec.
  cbn [all_rows base_headers unmatched_files].
  unfold mbind, result_bind, rbind.
  destruct (sort_rows (rows_from m [] files)) as [out|e] eqn:E; [|discriminate].
  intros [= <- <- <-].
  pose proof (sort_rows_perm _ _ E) as Hperm.
  split; [exact Hperm|]. split.
  { rewrite (Permutation_length Hperm). apply rows_from_length. }
  split; [reflexivity|].
  intros f0 rest h -> Hf Hne.
  destruct (rows_from_first m f0 rest h Hf Hne) as [Hrows Hhdr].
  rewrite Hhdr. rewrite Hrows in Hperm.
  split; [reflexivity|]. split; [exact Hperm|].
  intros f r0 Hin Hr0. split; [|split; [|split]].
  - apply (Permutation_in _ (Permutation_sym Hperm)).
    apply in_flat_map. exists f. split; [exact Hin|].
    unfold file_rows. now apply in_map.
  - apply merged_row_source_file.
  - intros k. apply merged_row_base.
  - apply get_or_empty_missing.
Qed.

Lemma C4_witness :
  exists hdr rows unm,
    build_merged_rows [sample_btc_file; sample_xrp_file] sample_ranking
    = Ok (hdr, rows, unm)
    /\ hdr = fixed_headers ++ ["snapped_at"; "price"; "market_cap"; "total_volume"]
    /\ length rows = 3%nat
    /\ Permutation rows
         (flat_map (file_rows sample_ranking
                              ["snapped_at"; "price"; "market_cap"; "total_volume"])
                   [sample_btc_file; sample_xrp_file]).
Proof.
  destruct sample_merge_returns as (hdr & rows & unm & E).
  exists hdr, rows, unm. split; [exact E|].
  destruct (C4_every_row_once _ _ _ _ _ E) as (_ & Hlen & _ & Hfirst).
  destruct (Hfirst sample_btc_file [sample_xrp_file]
                   ["snapped_at"; "price"; "market_cap"; "total_volume"]
                   eq_refl eq_refl ltac:(discriminate)) as (Hhdr & Hperm & _).
  split; [exact Hhdr|]. split; [exact Hlen|exact Hperm].
Defined.

(** C4, as stated, fails on [source_file]: a file that has a column of
    that name gives merged rows whose [source_file] is the value of that
    column, not the name of the file. *)
Lemma C4_counterexample :
  fieldnames sample_tagged_file = Some ["snapped_at"; "source_file"]
  /\ name sample_tagged_file = "btc-usd-max.csv"
  /\ match build_merged_rows [sample_tagged_file] sample_ranking with
     | Ok (hdr, rows, _) =>
         hdr = fixed_headers ++ ["snapped_at"; "source_file"]
         /\ map (fun r => r !! "source_file") rows
            = [Some (PyStr "elsewhere.csv")]
     | Raise _ => False
     end.
Proof.
  split; [reflexivity|]. split; [reflexivity|].
  vm_compute. split; reflexivity.
Qed.

(* --------------------------------------------------------------------- *)
(** ** The ranking snapshot cleaner *)
(* --------------------------------------------------------------------- *)

Lemma filter_sublist {A} (p : A -> bool) (l : list A) : sublist (List.filter p l) l.
Proof.
  induction l as [|x l IH]; simpl; [constructor|].
  destruct (p x); now constructor.
Qed.

Lemma Forall_of_sublist {A} (P : A -> Prop) (l1 l2 : list A) :
  sublist l1 l2 -> Forall P l2 -> Forall P l1.
Proof.
  induction 1 as [|x l1 l2 _ IH|x l1 l2 _ IH]; intros H.
  - constructor.
  - inversion H; subst. constructor; auto.
  - inversion H; subst. auto.
Qed.

Lemma mapR_total {A B} (f : A -> result B) (l : list A) :
  Forall (fun x => exists y, f x = Ok y) l -> exists l', mapR f l = Ok l'.
Proof.
  induction 1 as [|x l [y Hy] _ [l' IH]]; simpl; [eauto|].
  rewrite Hy, IH. simpl. eauto.
Qed.

Lemma cell_at_insert (r : gmap string cell) k c : cell_at (<[k := c]> r) k = c.
Proof. unfold cell_at. now rewrite lookup_insert_eq. Qed.

Lemma dropna_complete subset df df' :
  dropna subset df = Ok df' ->
  columns df' = columns df
  /\ sublist (data df') (data df)
  /\ Forall (fun r => forall k, In k subset -> cell_at r k <> NA) (data df').
Proof.
  unfold dropna. destruct (forallb (has_column df) subset); [|discriminate].
  intros [= <-]. simpl. split; [reflexivity|]. split; [apply filter_sublist|].
  apply Forall_forall. intros r Hr. apply list_elem_of_In in Hr.
  apply filter_In in Hr as [_ Hr]. rewrite forallb_forall in Hr.
  intros k Hk Hna. specialize (Hr k Hk). rewrite Hna in Hr. discriminate.
Qed.

Section CleanerProperties.

Variable parse_datetime : list cell -> string -> result cell.

Local Abbreviation read := (read_cell parse_datetime).
Local Abbreviation put := put_stamp.

Lemma clean_rows_spec column R : forall stamps keep,
  Forall2 (fun r c => read column (str_replace_utc (cell_at r "snapped_at")) = Ok c)
          R stamps ->
  Forall2 (fun r b => ge_cutoff (cell_at r "snapped_at") = Ok b)
          (zip_with put R stamps) keep ->
  exists kept,
    sublist kept R
    /\ Forall2 (survives parse_datetime column) kept
               (map fst (List.filter snd (zip (zip_with put R stamps) keep))).
Proof.
  induction R as [|r R IH]; intros stamps keep H1 H2.
  - inversion H1; subst. simpl in H2. inversion H2; subst.
    exists []. split; constructor.
  - inversion H1 as [|? c ? stamps' Hc H1']; subst.
    simpl in H2. inversion H2 as [|? b ? keep' Hb H2']; subst.
    destruct (IH _ _ H1' H2') as (kept & Hsub & Hall).
    unfold put_stamp in Hb at 1. rewrite cell_at_insert in Hb.
    simpl. destruct b; simpl.
    + exists (r :: kept). split; [now constructor|].
      constructor; [|exact Hall].
      destruct c as [|s|t|t]; simpl in Hb; try discriminate.
      injection Hb as Hb. apply Z.leb_le in Hb.
      destruct (cell_at r "snapped_at") as [|s|t'|t'] eqn:Ecell;
        simpl in Hc; try discriminate.
      exists s, t. repeat split; assumption.
    + exists kept. split; [now constructor|exact Hall].
Qed.

Lemma read_replaced column c :
  (forall s, c = Text s ->
             exists t, parse_datetime column (remove_all " UTC" s) = Ok (Naive t)) ->
  exists y, read column (str_replace_utc c) = Ok y
            /\ (y = NA \/ exists t, y = Naive t).
Proof.
  intros Hp. destruct c as [|s|t|t]; simpl; eauto.
  destruct (Hp s eq_refl) as [t Ht]. rewrite Ht. eauto.
Qed.

Lemma to_datetime_total column (R : list (gmap string cell)) :
  Forall (fun r => forall s,
              cell_at r "snapped_at" = Text s ->
              exists t, parse_datetime column (remove_all " UTC" s) = Ok (Naive t))
         R ->
  exists stamps,
    mapR (read column)
         (map (fun r => str_replace_utc (cell_at r "snapped_at")) R) = Ok stamps
    /\ Forall (fun c => c = NA \/ exists t, c = Naive t) stamps.
Proof.
  induction 1 as [|r R Hr _ (stamps & E & Hall)]; simpl.
  - exists []. split; [reflexivity|constructor].
  - destruct (read_replaced column (cell_at r "snapped_at") Hr) as (y & Hy & Hshape).
    rewrite Hy, E. simpl. exists (y :: stamps). split; [reflexivity|].
    now constructor.
Qed.

Lemma keep_total (R : list (gmap string cell)) : forall stamps,
  Forall (fun c => c = NA \/ exists t, c = Naive t) stamps ->
  exists keep,
    mapR (fun r => ge_cutoff (cell_at r "snapped_at")) (zip_with put R stamps)
    = Ok keep.
Proof.
  induction R as [|r R IH]; intros stamps Hall; simpl; [eauto|].
  destruct Hall as [|c stamps Hc Hall]; simpl; [eauto|].
  destruct (IH _ Hall) as (keep & E).
  unfold put_stamp at 1. rewrite cell_at_insert, E.
  destruct Hc as [->|[t ->]]; simpl; eauto.
Qed.

(** C9: when the cleaner returns, the table it writes has the columns
    of the input, in their order; its rows are rows of the input, in
    their order, none of which misses [price], [market_cap] or
    [total_volume]; each of them had a [snapped_at] text that, once the
    [" UTC"] marker is removed, was read as a timestamp not before
    2020-02-19, which the [snapped_at] cell now holds, the other cells
    being unchanged; so the output has at most as many rows as the
    input.  The cleaner returns whenever the three columns exist, the
    [snapped_at] column holds texts, and the text of every row, the
    marker removed, is read as a zone-less timestamp. *)
Theorem C9_cleaner_contract (df : DataFrame) :
  (forall out,
      clean_coingecko_data parse_datetime df = Ok out ->
      map fst (columns out) = map fst (columns df)
      /\ (length (data out) <= length (data df))%nat
      /\ exists kept column,
           sublist kept (data df)
           /\ Forall complete kept
           /\ Forall2 (survives parse_datetime column) kept (data out))
  /\ (forallb (has_column df) required_columns = true ->
      (exists i, list_find (fun c => c.1 = "snapped_at") (columns df)
                 = Some (i, ("snapped_at", ObjectDtype))) ->
      (forall column r s,
          In r (data df) -> cell_at r "snapped_at" = Text s ->
          exists t, parse_datetime column (remove_all " UTC" s) = Ok (Naive t)) ->
      exists out, clean_coingecko_data parse_datetime df = Ok out).
Proof.
  split.
  - intros out H. unfold clean_coingecko_data in H.
    change ["price"; "market_cap"; "total_volume"] with required_columns in H.
    destruct (dropna required_columns df) as [df_clean|e] eqn:Ed;
      [|discriminate].
    apply dropna_complete in Ed as (Hcols & Hsub & Hcomplete).
    cbn [mbind result_bind rbind] in H.
    destruct (list_find _ (columns df_clean)) as [[i [nm dt]]|]; [|discriminate].
    cbn [mbind result_bind rbind] in H.
    destruct (bool_decide (dt = ObjectDtype)); [|discriminate].
    cbn [negb] in H. unfold to_datetime in H.
    destruct (mapR _ (map _ (data df_clean))) as [stamps|e] eqn:Es;
      [|discriminate].
    cbn [mbind result_bind rbind] in H.
    destruct (mapR _ (zip_with _ (data df_clean) stamps)) as [keep|e] eqn:Ek;
      [|discriminate].
    cbn [mbind result_bind rbind] in H. injection H as <-. cbn [columns data].
    apply mapR_ok in Es. apply Forall2_fmap_l in Es.
    apply mapR_ok in Ek.
    destruct (clean_rows_spec _ _ _ _ Es Ek) as (kept & Hk & Hall).
    unfold put_stamp in Hall.
    split; [|split].
    + rewrite Hcols, map_map. apply map_ext. intros [k d]. simpl.
      destruct (decide (k = "snapped_at")); reflexivity.
    + apply Forall2_length in Hall. rewrite <- Hall.
      apply sublist_length in Hk. apply sublist_length in Hsub. lia.
    + exists kept, (map (fun r => str_replace_utc (cell_at r "snapped_at"))
                        (data df_clean)).
      split; [etransitivity; eassumption|]. split; [|exact Hall].
      eapply Forall_of_sublist; eassumption.
  - intros Hcols (i & Hfind) Hparse. unfold clean_coingecko_data.
    change ["price"; "market_cap"; "total_volume"] with required_columns.
    unfold dropna. rewrite Hcols. cbn [mbind result_bind rbind columns data].
    rewrite Hfind. cbn [mbind result_bind rbind].
    rewrite bool_decide_eq_true_2 by reflexivity. cbn [negb].
    set (R := List.filter _ (data df)).
    set (texts := map (fun r => str_replace_utc (cell_at r "snapped_at")) R).
    assert (HR : Forall (fun r => forall s,
                    cell_at r "snapped_at" = Text s ->
                    exists t, parse_datetime texts (remove_all " UTC" s)
                              = Ok (Naive t)) R).
    { apply Forall_forall. intros r Hr s Hs. apply list_elem_of_In in Hr.
      apply filter_In in Hr as [Hr _]. eapply Hparse; eassumption. }
    destruct (to_datetime_total texts R HR) as (stamps & Es & Hshape).
    unfold to_datetime. fold (read_cell parse_datetime texts). fold texts in Es. rewrite Es.
    cbn [mbind result_bind rbind].
    destruct (keep_total R stamps Hshape) as (keep & Ek).
    unfold put_stamp in Ek. rewrite Ek. cbn [mbind result_bind rbind]. eauto.
Qed.

End CleanerProperties.

Lemma C9_witness :
  exists out,
    clean_coingecko_data sample_parse_datetime sample_snapshot = Ok out
    /\ map fst (columns out) = ["snapped_at"; "price"; "market_cap"; "total_volume"]
    /\ length (data out) = 2%nat
    /\ (length (data out) <= length (data sample_snapshot))%nat
    /\ exists kept column,
         sublist kept (data sample_snapshot)
         /\ Forall complete kept
         /\ Forall2 (survives sample_parse_datetime column) kept (data out).
Proof.
  destruct (proj2 (C9_cleaner_contract sample_parse_datetime sample_snapshot))
    as [out E].
  - reflexivity.
  - exists 0%nat. reflexivity.
  - intros column r s Hr Hs. simpl in Hr.
    destruct Hr as [<-|[<-|[<-|[<-|[]]]]]; vm_compute in Hs;
      injection Hs as <-; eexists; vm_compute; reflexivity.
  - exists out. split; [exact E|].
    destruct (proj1 (C9_cleaner_contract sample_parse_datetime sample_snapshot) out E)
      as (Hcols & Hlen & Hkept).
    split; [rewrite Hcols; reflexivity|]. split; [|split; assumption].
    assert (E' := E). vm_compute in E'. injection E' as <-. reflexivity.
Defined.


(* --------------------------------------------------------------------- *)
(** ** Worked examples *)
(* --------------------------------------------------------------------- *)

Example py_int_plain : py_int (PyStr "999999") = Ok 999999.
Proof. reflexivity. Qed.

Example py_int_grouped : py_int (PyStr " -1_000 ") = Ok (-1000).
Proof. reflexivity. Qed.

Example py_int_float_text : py_int (PyStr "1.0") = Raise ValueError.
Proof. reflexivity. Qed.

Example py_int_none : py_int PyNone = Raise TypeError.
Proof. reflexivity. Qed.

Example lower_strip_symbol : ascii_strip (ascii_lower "  BtC ") = "btc".
Proof. reflexivity. Qed.

Example parse_symbol_upper : parse_symbol_from_filename "BTC-usd-max.csv" = "btc".
Proof. reflexivity. Qed.

Example py_str_int : py_str (JInt 12) = "12".
Proof. reflexivity. Qed.

Example remove_all_marker :
  remove_all " UTC" "2020-02-19 00:00:00 UTC" = "2020-02-19 00:00:00".
Proof. reflexivity. Qed.

Example remove_all_twice : remove_all " UTC" "a UTC UTCb" = "ab".
Proof. reflexivity. Qed.

Example cutoff_is_2020_02_19 :
  sample_parse_datetime [] "2020-02-19" = Ok (Naive cutoff_date).
Proof. reflexivity. Qed.

(** A short record is completed with [None], a long one is cut. *)
Example row_dict_short :
  map (fun k => row_dict ["a"; "b"; "c"] ["1"; "2"] !! k) ["a"; "b"; "c"; "d"]
  = [Some (PyStr "1"); Some (PyStr "2"); Some PyNone; None].
Proof. vm_compute. reflexivity. Qed.

Example row_dict_long :
  map (fun k => row_dict ["a"] ["1"; "2"] !! k) ["a"; "b"] = [Some (PyStr "1"); None].
Proof. vm_compute. reflexivity. Qed.

(** The inventory keeps the matching names, sorted without regard to
    case. *)
Example inventory_sorted :
  map name (list_input_files
              [sample_xrp_file; {| name := "notes.txt"; records := [] |};
               sample_btc_upper_file; sample_eth_file])
  = ["BTC-usd-max.csv"; "eth-usd-max.csv"; "xrp-usd-max.csv"].
Proof. vm_compute. reflexivity. Qed.

(** The example of the specification: [btc] and [eth] ranked, a file for
    [btc] with two rows and one for [xrp] with one row. *)
Example merge_btc_xrp :
  written (build_merged_rows [sample_btc_file; sample_xrp_file] sample_ranking)
  = Some (fixed_headers ++ ["snapped_at"; "price"; "market_cap"; "total_volume"],
          [["1"; "bitcoin"; "Bitcoin"; "btc"; "btc-usd-max.csv";
            "2020-01-01 00:00:00 UTC"; "7100.5"; "129000000"; "19000"];
           ["1"; "bitcoin"; "Bitcoin"; "btc"; "btc-usd-max.csv";
            "2020-01-02 00:00:00 UTC"; "7200.1"; "130000000"; "20000"];
           ["999999"; ""; ""; "xrp"; "xrp-usd-max.csv";
            "2020-01-01 00:00:00 UTC"; "0.19"; "8000000"; "900"]]).
Proof. vm_compute. reflexivity. Qed.

(** A first file without any line leaves the schema to the next file. *)
Example schema_after_empty_file :
  fst <$> written (build_merged_rows [sample_empty_file; sample_btc_file]
                                     sample_ranking)
  = Some (fixed_headers ++ ["snapped_at"; "price"; "market_cap"; "total_volume"]).
Proof. vm_compute. reflexivity. Qed.

(** A rank that is not an integer literal stops the sort. *)
Example merge_bad_rank :
  build_merged_rows [sample_btc_file]
                    (<["btc" := coin "bitcoin" "Bitcoin" "btc" "1.0"]> ∅)
  = Raise ValueError.
Proof. vm_compute. reflexivity. Qed.

(** A whole run: the listing is down, the site answers. *)
Example run_with_fallback :
  main api_down_net id [sample_xrp_file; sample_btc_file] empty_world
  = (Ok tt,
     {| served := 13;
        trace :=
          [Request (ApiGet 1 250); Sleep 1500; Request (ApiGet 1 250);
           Sleep 3000; Request (ApiGet 1 250)]
          ++ map (fun page => Request (WebGet page)) [1; 2; 3; 4; 5; 6; 7; 8; 9; 10]
          ++ [WriteCsv
                (fixed_headers ++ ["snapped_at"; "price"; "market_cap"; "total_volume"])
                [["1"; ""; "Bitcoin"; "btc"; "btc-usd-max.csv";
                  "2020-01-01 00:00:00 UTC"; "7100.5"; "129000000"; "19000"];
                 ["1"; ""; "Bitcoin"; "btc"; "btc-usd-max.csv";
                  "2020-01-02 00:00:00 UTC"; "7200.1"; "130000000"; "20000"];
                 ["999999"; ""; ""; "xrp"; "xrp-usd-max.csv";
                  "2020-01-01 00:00:00 UTC"; "0.19"; "8000000"; "900"]];
              PrintSummary 2 3 ["xrp-usd-max.csv"]] |}).
Proof. vm_compute. reflexivity. Qed.

(* ===================================================================== *)
(** * Further properties *)
(* ===================================================================== *)

(* --------------------------------------------------------------------- *)
(** ** The file inventory (l. 134-139) *)
(* --------------------------------------------------------------------- *)

Lemma string_length_app s t :
  String.length (s +:+ t) = (String.length s + String.length t)%nat.
Proof. induction s as [|c s IH]; simpl; [reflexivity|]. now rewrite IH. Qed.

Lemma substring_all s : substring 0 (String.length s) s = s.
Proof. induction s as [|c s IH]; simpl; [reflexivity|]. now rewrite IH. Qed.

Lemma substring_prefix s t : substring 0 (String.length s) (s +:+ t) = s.
Proof.
  induction s as [|c s IH]; simpl.
  - destruct t; reflexivity.
  - now rewrite IH.
Qed.

Lemma substring_suffix s t :
  substring (String.length s) (String.length t) (s +:+ t) = t.
Proof.
  induction s as [|c s IH]; simpl; [apply substring_all|exact IH].
Qed.

Lemma substring_split s : forall k,
  (k <= String.length s)%nat ->
  s = substring 0 k s +:+ substring k (String.length s - k) s.
Proof.
  induction s as [|c s IH]; intros k Hk; simpl in *.
  - destruct k; [reflexivity|lia].
  - destruct k as [|k]; simpl.
    + now rewrite substring_all.
    + change (String c s
              = String c (substring 0 k s +:+ substring k (String.length s - k) s)).
      f_equal. apply IH. lia.
Qed.

Lemma substring_length s : forall a n,
  (a + n <= String.length s)%nat -> String.length (substring a n s) = n.
Proof.
  induction s as [|c s IH]; intros a n H; simpl in *.
  - destruct a, n; simpl; lia.
  - destruct a as [|a]; [destruct n as [|n]; simpl; [reflexivity|]|].
    + rewrite (IH 0%nat n); lia.
    + apply IH. lia.
Qed.

(** A name matches the pattern exactly when it is a stem followed by the
    suffix. *)
Lemma ends_with_suffix n :
  ends_with suffix n = true <-> exists stem, n = stem +:+ suffix.
Proof.
  unfold ends_with. rewrite String.eqb_eq. split.
  - intros H.
    destruct (le_lt_dec (String.length suffix) (String.length n)) as [Hle|Hlt].
    + exists (substring 0 (String.length n - String.length suffix) n).
      pose proof (substring_split n (String.length n - String.length suffix)
                    ltac:(lia)) as Hs.
      replace (String.length n - (String.length n - String.length suffix))%nat
        with (String.length suffix) in Hs by lia.
      rewrite H in Hs. exact Hs.
    + replace (String.length n - String.length suffix)%nat with 0%nat in H by lia.
      exists "". simpl. rewrite <- H.
      apply (f_equal String.length) in H.
      assert (Hn : (String.length (substring 0 (String.length suffix) n)
                    <= String.length n)%nat).
      { clear. generalize (String.length suffix). induction n as [|c n IH];
          intros [|k]; simpl; try lia. specialize (IH k). lia. }
      rewrite H in Hn. lia.
  - intros [stem ->]. rewrite string_length_app.
    replace (String.length stem + String.length suffix - String.length suffix)%nat
      with (String.length stem) by lia.
    apply substring_suffix.
Qed.

Lemma drop_last_suffix stem : drop_last (String.length suffix) (stem +:+ suffix) = stem.
Proof.
  unfold drop_last. rewrite string_length_app.
  replace (String.length stem + String.length suffix - String.length suffix)%nat
    with (String.length stem) by lia.
  apply substring_prefix.
Qed.

Lemma name_leb_total `{Str : StrMethods}
    a b : name_leb a b = false -> name_leb b a = true.
Proof.
  unfold name_leb. intros H.
  destruct (String.leb_total (lower (name a)) (lower (name b))); congruence.
Qed.

Lemma string_leb_trans a b c :
  String.leb a b = true -> String.leb b c = true -> String.leb a c = true.
Proof.
  intros H1 H2. apply Is_true_true. apply Is_true_true in H1, H2.
  change (String.le a c). transitivity b; assumption.
Qed.

Lemma Sorted_strongly {A} (leb : A -> A -> bool) (l : list A) :
  (forall a b c, leb a b = true -> leb b c = true -> leb a c = true) ->
  Sorted (fun a b => leb a b = true) l ->
  StronglySorted (fun a b => leb a b = true) l.
Proof.
  intros Htrans. induction 1 as [|a l Hs IH Hhd]; constructor; [exact IH|].
  destruct Hhd as [|b l' Hab]; [constructor|].
  inversion IH as [|? ? _ Hall]; subst.
  constructor; [exact Hab|].
  eapply Forall_impl; [exact Hall|]. intros c Hbc. eapply Htrans; eassumption.
Qed.

Lemma list_input_files_perm `{Str : StrMethods} raw_dir :
  Permutation (list_input_files raw_dir) (matching raw_dir).
Proof. apply stable_sort_perm. Qed.

Lemma list_input_files_sorted `{Str : StrMethods} raw_dir :
  StronglySorted (fun a b => name_leb a b = true) (list_input_files raw_dir).
Proof.
  apply Sorted_strongly.
  - intros a b c. unfold name_leb. apply string_leb_trans.
  - apply (stable_sort_Sorted name_leb). apply name_leb_total.
Qed.

Lemma list_input_files_in `{Str : StrMethods} raw_dir f :
  In f (list_input_files raw_dir)
  <-> In f raw_dir /\ exists stem, name f = stem +:+ suffix.
Proof.
  pose proof (list_input_files_perm raw_dir) as Hperm.
  rewrite <- ends_with_suffix. split.
  - intros H. apply (Permutation_in _ Hperm) in H.
    unfold matching in H. now apply filter_In in H.
  - intros H. apply (Permutation_in _ (Permutation_sym Hperm)).
    unfold matching. now apply filter_In.
Qed.

(** X1: the inventory is the matching files of the directory, nothing
    lost, nothing added, none twice, arranged so that every file comes
    before all files of greater or equal lowercased name; a name matches
    when it is a stem followed by [-usd-max.csv]. *)
Theorem inventory_is_sorted_matching `{Str : StrMethods}
    (raw_dir : list AssetFile) :
  Permutation (list_input_files raw_dir) (matching raw_dir)
  /\ StronglySorted (fun a b => name_leb a b = true) (list_input_files raw_dir)
  /\ (forall f, In f (list_input_files raw_dir)
                <-> In f raw_dir /\ exists stem, name f = stem +:+ suffix)
  /\ (length (list_input_files raw_dir) <= length raw_dir)%nat.
Proof.
  split; [apply list_input_files_perm|]. split; [apply list_input_files_sorted|].
  split; [apply list_input_files_in|].
  rewrite (Permutation_length (list_input_files_perm raw_dir)). unfold matching.
  induction raw_dir as [|f l IH]; simpl; [lia|].
  destruct (ends_with suffix (name f)); simpl; lia.
Qed.

(** Distinct lowercased names are strictly ordered. *)
Lemma distinct_names_strict `{Str : StrMethods} a b :
  lower (name a) <> lower (name b) -> strictly_ordered name_leb a b.
Proof.
  intros Hne. unfold strictly_ordered, name_leb.
  destruct (String.leb (lower (name a)) (lower (name b))) eqn:E1,
           (String.leb (lower (name b)) (lower (name a))) eqn:E2;
    try reflexivity.
  - exfalso. apply Hne. now apply String.leb_antisym.
  - destruct (String.leb_total (lower (name a)) (lower (name b))); congruence.
Qed.

Lemma flat_map_singleton {A} (l : list A) : flat_map (fun x => [x]) l = l.
Proof. induction l as [|x l IH]; simpl; [reflexivity|]. now rewrite IH. Qed.

(** X2: when the matching files have pairwise distinct lowercased names,
    the inventory does not depend on the order in which the file system
    lists the directory. *)
Theorem inventory_listing_order_irrelevant `{Str : StrMethods}
    (raw_dir raw_dir' : list AssetFile) :
  Permutation raw_dir raw_dir' ->
  NoDup (map (fun f => lower (name f)) (matching raw_dir)) ->
  list_input_files raw_dir = list_input_files raw_dir'.
Proof.
  intros Hperm Hnd. unfold list_input_files. fold (matching raw_dir) (matching raw_dir').
  fold name_leb.
  rewrite <- (flat_map_singleton (matching raw_dir)).
  rewrite <- (flat_map_singleton (matching raw_dir')).
  apply (stable_sort_blocks name_leb (fun _ => True)) with
    (tag := fun f => lower (name f)).
  - intros a b c _ _ _. unfold name_leb. apply string_leb_trans.
  - unfold matching. now apply filter_Permutation.
  - exact Hnd.
  - intros f f' _ _ Hne. repeat constructor. now apply distinct_names_strict.
  - apply Forall_forall. intros f _. repeat constructor.
Qed.

Lemma inventory_listing_order_irrelevant_witness :
  list_input_files [sample_xrp_file; sample_eth_file; sample_btc_file]
  = list_input_files [sample_btc_file; sample_xrp_file; sample_eth_file].
Proof.
  apply inventory_listing_order_irrelevant.
  - change [sample_xrp_file; sample_eth_file; sample_btc_file]
      with ([sample_xrp_file; sample_eth_file] ++ [sample_btc_file]).
    apply Permutation_app_comm.
  - apply (bool_decide_unpack _). vm_compute. reflexivity.
Defined.

Lemma insert_sorted_head {A} (leb : A -> A -> bool) x l :
  HdRel (fun a b => leb a b = true) x l -> insert_sorted leb x l = x :: l.
Proof. intros [|y l' H]; simpl; [reflexivity|]. now rewrite H. Qed.

Lemma stable_sort_sorted_id {A} (leb : A -> A -> bool) l :
  Sorted (fun a b => leb a b = true) l -> stable_sort leb l = l.
Proof.
  induction 1 as [|x l Hs IH Hhd]; simpl; [reflexivity|].
  fold (stable_sort leb l). rewrite IH. now apply insert_sorted_head.
Qed.

Lemma filter_filter_same {A} (p : A -> bool) l :
  List.filter p (List.filter p l) = List.filter p l.
Proof.
  induction l as [|x l IH]; simpl; [reflexivity|].
  destruct (p x) eqn:E; simpl; [rewrite E, IH; reflexivity|exact IH].
Qed.

Lemma filter_all {A} (p : A -> bool) l :
  Forall (fun x => p x = true) l -> List.filter p l = l.
Proof.
  induction 1 as [|x l Hx _ IH]; simpl; [reflexivity|]. now rewrite Hx, IH.
Qed.

(** X3: taking the inventory of an inventory changes nothing: every file
    of it matches and it is already in order. *)
Theorem inventory_idempotent `{Str : StrMethods} (raw_dir : list AssetFile) :
  list_input_files (list_input_files raw_dir) = list_input_files raw_dir.
Proof.
  pose proof (list_input_files_perm raw_dir) as Hperm.
  pose proof (list_input_files_sorted raw_dir) as Hsorted.
  unfold list_input_files at 1. fold name_leb.
  rewrite filter_all.
  - apply stable_sort_sorted_id. now apply StronglySorted_Sorted.
  - eapply Permutation_Forall; [symmetry; exact Hperm|].
    apply Forall_forall. intros f Hf. apply list_elem_of_In in Hf.
    unfold matching in Hf. now apply filter_In in Hf.
Qed.

(** X4: every file of the inventory is named [stem-usd-max.csv], so that
    cutting the last twelve characters of its name leaves the stem and
    its symbol is the lowered stem; files of the inventory whose stems
    agree once lowered are joined to the same entry of the ranking
    map. *)
Theorem symbol_is_lowercased_stem `{Str : StrMethods}
    (raw_dir : list AssetFile) (m : ranking) (f : AssetFile) :
  In f (list_input_files raw_dir) ->
  exists stem,
    name f = stem +:+ suffix
    /\ drop_last (String.length suffix) (name f) = stem
    /\ parse_symbol_from_filename (name f) = lower stem
    /\ forall g stem',
         In g (list_input_files raw_dir) ->
         name g = stem' +:+ suffix ->
         lower stem' = lower stem ->
         coin_meta_of m g = coin_meta_of m f /\ matched m g = matched m f.
Proof.
  intros Hf. apply list_input_files_in in Hf as [_ [stem Hstem]].
  assert (Hsym : forall g st, name g = st +:+ suffix ->
                              parse_symbol_from_filename (name g) = lower st).
  { intros g st Hg. unfold parse_symbol_from_filename.
    now rewrite Hg, drop_last_suffix. }
  exists stem. split; [exact Hstem|]. split; [rewrite Hstem; apply drop_last_suffix|].
  split; [now apply Hsym|].
  intros g stem' _ Hg Hlow. unfold coin_meta_of, matched.
  rewrite (Hsym g stem' Hg), (Hsym f stem Hstem), Hlow. split; reflexivity.
Qed.

Lemma symbol_is_lowercased_stem_witness :
  exists stem,
    name sample_btc_upper_file = stem +:+ suffix
    /\ parse_symbol_from_filename (name sample_btc_upper_file) = lower stem.
Proof.
  destruct (symbol_is_lowercased_stem [sample_btc_file; sample_btc_upper_file]
              sample_ranking sample_btc_upper_file)
    as (stem & Hn & _ & Hs & _).
  - vm_compute. tauto.
  - exists stem. split; assumption.
Defined.

(* --------------------------------------------------------------------- *)
(** ** What the two adapters send (l. 35-131) *)
(* --------------------------------------------------------------------- *)

Lemma requests_of_app evs evs' :
  requests_of (evs ++ evs') = requests_of evs ++ requests_of evs'.
Proof. apply omap_app. Qed.

Lemma retry_outcome_shape req r0 r1 r2 r n evs :
  retry_outcome req r0 r1 r2 = (r, n, evs) ->
  (1 <= n <= 3)%nat
  /\ requests_of evs = replicate n req
  /\ Forall (fun e => e = Request req \/ e = Sleep 1500 \/ e = Sleep 3000) evs
  /\ Forall (fun e => is_output e = false) evs.
Proof.
  unfold retry_outcome.
  destruct r0; [| destruct r1; [| destruct r2 |] |];
    intros [= <- <- <-]; (split; [lia|]); (split; [reflexivity|]);
    split; repeat (apply Forall_cons_2; [auto|]); apply Forall_nil_2.
Qed.

Lemma repeated_requests_length mk pages : forall counts,
  Forall (fun c => (1 <= c <= 3)%nat) counts ->
  (length (repeated_requests mk pages counts) <= 3 * length pages)%nat.
Proof.
  unfold repeated_requests.
  induction pages as [|p pages IH]; intros counts Hc; simpl; [lia|].
  destruct Hc as [|c counts Hc1 Hc]; simpl; [lia|].
  rewrite length_app, length_replicate. specialize (IH counts Hc). lia.
Qed.

Section Sent.

Variable net : nat -> reply.
Variable unescape : string -> string.

Lemma api_pages_shape `{Str : StrMethods}
    per_page pages : forall (m : ranking) w r w',
  api_pages net per_page pages m w = (r, w') ->
  exists evs counts,
    trace w' = trace w ++ evs
    /\ served w' = (served w + length (requests_of evs))%nat
    /\ (length counts <= length pages)%nat
    /\ Forall (fun c => (1 <= c <= 3)%nat) counts
    /\ requests_of evs
       = repeated_requests (fun p => ApiGet p per_page) pages counts
    /\ Forall (api_event per_page) evs
    /\ Forall (fun e => is_output e = false) evs.
Proof.
  induction pages as [|page rest IH]; intros m w r w'.
  - intros [= <- <-]. exists [], []. rewrite app_nil_r. simpl.
    repeat split; try constructor; lia.
  - cbn [api_pages]. unfold mbind, M_bind, bind at 1.
    rewrite request_attempts_run.
    destruct (retry_outcome _ _ _ _) as [[r0 n] evs0] eqn:Er.
    apply retry_outcome_shape in Er as (Hn & Hreq & Hev & Hout).
    set (w1 := {| served := n + served w; trace := trace w ++ evs0 |}).
    assert (Hstop : forall r1,
               (r1, w1) = (r, w') ->
               exists evs counts,
                 trace w' = trace w ++ evs
                 /\ served w' = (served w + length (requests_of evs))%nat
                 /\ (length counts <= length (page :: rest))%nat
                 /\ Forall (fun c => (1 <= c <= 3)%nat) counts
                 /\ requests_of evs
                    = repeated_requests (fun p => ApiGet p per_page)
                                        (page :: rest) counts
                 /\ Forall (api_event per_page) evs
                 /\ Forall (fun e => is_output e = false) evs).
    { intros r1 [= <- <-]. exists evs0, [n]. subst w1. cbn [trace served].
      split; [reflexivity|]. split; [rewrite Hreq, length_replicate; lia|].
      split; [simpl; lia|].
      split; [apply Forall_cons_2; [exact Hn|apply Forall_nil_2]|].
      split; [rewrite Hreq; unfold repeated_requests; simpl;
              destruct rest; simpl; now rewrite app_nil_r|].
      split; [|exact Hout].
      eapply Forall_impl; [exact Hev|]. intros e [->|[->| ->]]; unfold api_event; eauto. }
    destruct r0 as [p|e]; [|apply Hstop].
    unfold bind, lift, json_loads.
    destruct p as [b|]; [|apply Hstop].
    destruct (as_json b) as [| |rows| |]; try apply Hstop.
    destruct rows as [|row rows]; [apply Hstop|].
    intros Hrec. apply IH in Hrec
      as (evs & counts & Ht & Hs & Hlen & Hc & Hr & Hev' & Hout').
    exists (evs0 ++ evs), (n :: counts). subst w1. cbn [trace served] in *.
    split; [now rewrite Ht, app_assoc|].
    split; [rewrite Hs, requests_of_app, length_app, Hreq, length_replicate; lia|].
    split; [simpl; lia|]. split; [apply Forall_cons_2; assumption|].
    split; [rewrite requests_of_app, Hreq, Hr; reflexivity|].
    split; apply Forall_app; split; try assumption.
    eapply Forall_impl; [exact Hev|]. intros e [->|[->| ->]]; unfold api_event; eauto.
Qed.

Lemma web_pages_shape `{Str : StrMethods} pages : forall (m : ranking) w r w',
  web_pages net unescape pages m w = (r, w') ->
  exists k,
    (k <= length pages)%nat
    /\ (pages <> [] -> 1 <= k)%nat
    /\ trace w' = trace w ++ map (fun p => Request (WebGet p)) (take k pages)
    /\ served w' = (served w + k)%nat
    /\ (r = Raise OtherError \/ exists m', r = Ok m').
Proof.
  induction pages as [|page rest IH]; intros m w r w'.
  - intros [= <- <-]. exists 0%nat. simpl. rewrite app_nil_r.
    repeat split; try lia; eauto. contradiction.
  - cbn [web_pages]. rewrite request_text_run.
    set (w1 := {| served := S (served w);
                  trace := trace w ++ [Request (WebGet page)] |}).
    assert (Hstop : forall r1,
               (r1 = Raise OtherError \/ exists m', r1 = Ok m') ->
               (r1, w1) = (r, w') ->
               exists k,
                 (k <= length (page :: rest))%nat
                 /\ (page :: rest <> [] -> 1 <= k)%nat
                 /\ trace w' = trace w ++ map (fun p => Request (WebGet p))
                                              (take k (page :: rest))
                 /\ served w' = (served w + k)%nat
                 /\ (r = Raise OtherError \/ exists m', r = Ok m')).
    { intros r1 Hr1 [= <- <-]. exists 1%nat. subst w1. cbn [trace served].
      simpl. rewrite ?take_0. repeat split; try lia; auto. }
    assert (Hgo : forall m1,
               web_pages net unescape rest m1 w1 = (r, w') ->
               exists k,
                 (k <= length (page :: rest))%nat
                 /\ (page :: rest <> [] -> 1 <= k)%nat
                 /\ trace w' = trace w ++ map (fun p => Request (WebGet p))
                                              (take k (page :: rest))
                 /\ served w' = (served w + k)%nat
                 /\ (r = Raise OtherError \/ exists m', r = Ok m')).
    { intros m1 Hrec. apply IH in Hrec as (k & Hk & _ & Ht & Hs & Hr).
      exists (S k). subst w1. cbn [trace served] in *.
      split; [simpl; lia|]. split; [lia|].
      split; [rewrite Ht, <- app_assoc; reflexivity|]. split; [lia|exact Hr]. }
    destruct (net (served w)) as [b| |].
    + destruct (as_html b) as [|row rows]; [apply Hgo|].
      destruct (ingest_web_rows unescape m (row :: rows)) as [m1 added].
      destruct (added =? 0); [apply Hstop; eauto|apply Hgo].
    + apply Hgo.
    + apply Hstop. auto.
Qed.

(** X5: the primary path asks for its pages in order, each page between
    one and three times in a row, without skipping a page and without
    going beyond the page at which it stops; it makes at most three
    requests per page of [max_pages] (none when [max_pages] is not
    positive), sleeps only 1.5 s or 3 s, and sends nothing else. *)
Theorem api_path_requests `{Str : StrMethods} (max_pages per_page : Z) w r w' :
  fetch_ranked_symbols net max_pages per_page w = (r, w') ->
  exists evs counts,
    trace w' = trace w ++ evs
    /\ served w' = (served w + length (requests_of evs))%nat
    /\ (length counts <= Z.to_nat max_pages)%nat
    /\ Forall (fun c => (1 <= c <= 3)%nat) counts
    /\ requests_of evs
       = repeated_requests (fun p => ApiGet p per_page)
                           (py_range 1 (max_pages + 1)) counts
    /\ (length (requests_of evs) <= 3 * Z.to_nat max_pages)%nat
    /\ Forall (api_event per_page) evs.
Proof.
  intros H. apply api_pages_shape in H
    as (evs & counts & Ht & Hs & Hlen & Hc & Hr & Hev & _).
  assert (Hpages : length (py_range 1 (max_pages + 1)) = Z.to_nat max_pages).
  { unfold py_range. rewrite length_map, length_seq. f_equal. lia. }
  exists evs, counts. rewrite Hpages in Hlen.
  repeat split; try assumption.
  rewrite Hr, <- Hpages. now apply repeated_requests_length.
Qed.

(** X6: the fallback path asks for each page at most once, in order,
    without skipping a page and without sleeping: its trace is the
    requests of the first [k] pages, with at least one request when there
    is a page; it returns a map or fails with an error that is not a
    network error. *)
Theorem web_path_requests `{Str : StrMethods} (max_pages : Z) w r w' :
  fetch_ranked_symbols_from_web net unescape max_pages w = (r, w') ->
  exists k,
    (k <= Z.to_nat max_pages)%nat
    /\ (0 < max_pages -> (1 <= k)%nat)
    /\ trace w' = trace w ++ map (fun p => Request (WebGet p))
                                 (take k (py_range 1 (max_pages + 1)))
    /\ served w' = (served w + k)%nat
    /\ (r = Raise OtherError \/ exists m', r = Ok m').
Proof.
  intros H. apply web_pages_shape in H as (k & Hk & Hpos & Ht & Hs & Hr).
  assert (Hpages : length (py_range 1 (max_pages + 1)) = Z.to_nat max_pages).
  { unfold py_range. rewrite length_map, length_seq. f_equal. lia. }
  exists k. rewrite Hpages in Hk. repeat split; try assumption.
  intros Hmp. apply Hpos. intros E. rewrite E in Hpages. simpl in Hpages. lia.
Qed.

End Sent.

Lemma api_path_requests_witness :
  exists evs counts,
    [Request (ApiGet 1 250); Sleep 1500; Request (ApiGet 1 250); Sleep 3000;
     Request (ApiGet 1 250)] = trace empty_world ++ evs
    /\ 3%nat = (served empty_world + length (requests_of evs))%nat
    /\ (length counts <= Z.to_nat 10)%nat
    /\ Forall (fun c => (1 <= c <= 3)%nat) counts
    /\ requests_of evs
       = repeated_requests (fun p => ApiGet p 250) (py_range 1 (10 + 1)) counts
    /\ (length (requests_of evs) <= 3 * Z.to_nat 10)%nat
    /\ Forall (api_event 250) evs.
Proof.
  apply (api_path_requests api_down_net 10 250 empty_world (Raise NetworkError)
           {| served := 3;
              trace := [Request (ApiGet 1 250); Sleep 1500; Request (ApiGet 1 250);
                        Sleep 3000; Request (ApiGet 1 250)] |}).
  vm_compute. reflexivity.
Defined.

Lemma web_path_requests_witness :
  exists k,
    (k <= Z.to_nat 10)%nat
    /\ (0 < 10 -> (1 <= k)%nat)
    /\ [Request (WebGet 1); Request (WebGet 2)]
       = trace empty_world ++ map (fun p => Request (WebGet p))
                                  (take k (py_range 1 (10 + 1)))
    /\ 2%nat = (served empty_world + k)%nat
    /\ ((Ok (<["eth" := coin "" "Ethereum" "eth" "2"]>
               (<["btc" := coin "" "Bitcoin" "btc" "1"]> ∅)) : result ranking)
        = Raise OtherError
        \/ exists m', (Ok (<["eth" := coin "" "Ethereum" "eth" "2"]>
                             (<["btc" := coin "" "Bitcoin" "btc" "1"]> ∅))
                        : result ranking) = Ok m').
Proof.
  apply (web_path_requests sample_web_net id 10 empty_world _
           {| served := 2; trace := [Request (WebGet 1); Request (WebGet 2)] |}).
  vm_compute. reflexivity.
Defined.

(* --------------------------------------------------------------------- *)
(** ** The entries the fallback path builds (l. 105-126) *)
(* --------------------------------------------------------------------- *)

Lemma insert_new_size (m : ranking) p :
  size (insert_new m p) = (if decide (is_Some (m !! p.1)) then size m else S (size m)).
Proof.
  unfold insert_new. destruct (decide (is_Some (m !! p.1))) as [|Hn]; [reflexivity|].
  apply map_size_insert_None. destruct (m !! p.1) eqn:E; [|reflexivity].
  exfalso. apply Hn. eauto.
Qed.

Lemma insert_new_subseteq (m : ranking) p : m ⊆ insert_new m p.
Proof.
  unfold insert_new. destruct (decide (is_Some (m !! p.1))) as [|Hn]; [reflexivity|].
  apply insert_subseteq. destruct (m !! p.1) eqn:E; [|reflexivity].
  exfalso. apply Hn. eauto.
Qed.

Lemma ingest_web_rows_count `{Str : StrMethods}
    unescape rows : forall (m : ranking) k m' k',
  fold_left (ingest_web_row unescape) rows (m, k) = (m', k') ->
  k' - k = Z.of_nat (size m') - Z.of_nat (size m)
  /\ m ⊆ m'
  /\ 0 <= k' - k <= Z.of_nat (length rows).
Proof.
  induction rows as [|r rows IH]; intros m k m' k'; cbn [fold_left].
  - intros [= <- <-]. split; [lia|]. split; [reflexivity|simpl; lia].
  - rewrite ingest_web_row_insert_new.
    assert (Hskip : fold_left (ingest_web_row unescape) rows (m, k) = (m', k') ->
                    k' - k = Z.of_nat (size m') - Z.of_nat (size m)
                    /\ m ⊆ m' /\ 0 <= k' - k <= Z.of_nat (length (r :: rows))).
    { intros H. apply IH in H as (H1 & H2 & H3). simpl length. repeat split; try assumption; lia. }
    destruct (web_record unescape r) as [p|]; [|exact Hskip].
    destruct (decide (is_Some (m !! p.1))) as [Hs|Hn]; [exact Hskip|].
    intros H. apply IH in H as (H1 & H2 & H3).
    pose proof (insert_new_size m p) as Hsize.
    destruct (decide (is_Some (m !! p.1))); [contradiction|].
    split; [lia|]. split; [|simpl length; lia].
    etransitivity; [apply (insert_new_subseteq m p)|exact H2].
Qed.

(** X7: the counter [page_added] of a scraped page is exactly the number
    of entries the page adds to the map; it lies between zero and the
    number of table rows of the page, the map only grows, and the counter
    is zero exactly when the page leaves the map unchanged. *)
Theorem page_added_counts_new_entries `{Str : StrMethods}
    (unescape : string -> string) (m : ranking) (rows : list tr_match) :
  let '(m', added) := ingest_web_rows unescape m rows in
  added = Z.of_nat (size m') - Z.of_nat (size m)
  /\ m ⊆ m'
  /\ 0 <= added <= Z.of_nat (length rows)
  /\ (added = 0 <-> m' = m).
Proof.
  unfold ingest_web_rows.
  destruct (fold_left (ingest_web_row unescape) rows (m, 0)) as [m' added] eqn:E.
  pose proof (ingest_web_rows_count _ _ _ _ _ _ E) as (H1 & H2 & H3).
  split; [lia|]. split; [exact H2|]. split; [lia|]. split.
  - intros ->. apply ingest_web_rows_added in E as [_ Heq]. now apply Heq.
  - intros ->. lia.
Qed.

Lemma fold_insert_new_inv (Q : RankedCoin -> Prop) (l : list (string * RankedCoin)) :
  forall m : ranking,
    (forall s c, m !! s = Some c -> Q c) ->
    Forall (fun p => Q p.2) l ->
    forall s c, fold_left insert_new l m !! s = Some c -> Q c.
Proof.
  induction l as [|p l IH]; intros m Hm Hl; simpl; [exact Hm|].
  inversion Hl; subst. apply IH; [|assumption].
  intros s c. unfold insert_new.
  destruct (decide (is_Some (m !! p.1))); [apply Hm|].
  destruct (decide (p.1 = s)) as [<-|Hne].
  - rewrite lookup_insert_eq. now intros [= <-].
  - rewrite lookup_insert_ne by exact Hne. apply Hm.
Qed.

Lemma web_record_no_id `{Str : StrMethods}
    unescape r p : web_record unescape r = Some p -> coin_id p.2 = "".
Proof.
  unfold web_record.
  destruct (rank_group r); [|discriminate].
  destruct (symbol_group r); [|discriminate].
  destruct (decide (_ = "")); [discriminate|]. now intros [= <-].
Qed.

(** X8: an entry of the map returned by the fallback path never has an
    identifier: its [coin_id] is the empty string. *)
Theorem fallback_entries_have_no_id `{Str : StrMethods}
    (net : nat -> reply) (unescape : string -> string)
    (max_pages : Z) w (m : ranking) w' s c :
  fetch_ranked_symbols_from_web net unescape max_pages w = (Ok m, w') ->
  m !! s = Some c ->
  coin_id c = "".
Proof.
  intros H. apply web_pages_served in H as (_ & ->).
  apply (fold_insert_new_inv (fun c => coin_id c = "")).
  - intros s' c'. rewrite lookup_empty. discriminate.
  - apply omap_Forall. apply web_record_no_id.
Qed.

Lemma fallback_entries_have_no_id_witness :
  coin_id (coin "" "Bitcoin" "btc" "1") = "".
Proof.
  apply (fallback_entries_have_no_id sample_web_net id 10 empty_world
           (<["eth" := coin "" "Ethereum" "eth" "2"]>
              (<["btc" := coin "" "Bitcoin" "btc" "1"]> ∅))
           {| served := 2; trace := [Request (WebGet 1); Request (WebGet 2)] |}
           "btc").
  - vm_compute. reflexivity.
  - vm_compute. reflexivity.
Defined.

(* --------------------------------------------------------------------- *)
(** ** The run as a whole (l. 198-225) *)
(* --------------------------------------------------------------------- *)


Section Whole.

Variable net : nat -> reply.
Variable unescape : string -> string.






End Whole.



(* --------------------------------------------------------------------- *)
(** ** Reading records and writing rows (l. 163-177, 214-217) *)
(* --------------------------------------------------------------------- *)

Lemma map_lookup {A B} (f : A -> B) (l : list A) i : map f l !! i = f <$> (l !! i).
Proof.
  revert i. induction l as [|x l IH]; intros [|i]; simpl; try reflexivity. apply IH.
Qed.

Lemma fold_pairs_lookup_notin (l : list (string * pyval)) : forall (d : row) k,
  k ∉ l.*1 ->
  fold_left (fun d kv => <[kv.1 := kv.2]> d) l d !! k = d !! k.
Proof.
  induction l as [|[k0 v0] l IH]; intros d k Hk; simpl; [reflexivity|].
  simpl in Hk. apply not_elem_of_cons in Hk as [Hne Hk].
  rewrite IH by exact Hk. now apply lookup_insert_ne.
Qed.

Lemma fold_pairs_lookup (l : list (string * pyval)) : forall (d : row) i k v,
  NoDup (l.*1) -> l !! i = Some (k, v) ->
  fold_left (fun d kv => <[kv.1 := kv.2]> d) l d !! k = Some v.
Proof.
  induction l as [|[k0 v0] l IH]; intros d i k v Hnd Hi; [discriminate|].
  simpl in Hnd. apply NoDup_cons in Hnd as [Hnotin Hnd]. simpl.
  destruct i as [|i]; simpl in Hi.
  - injection Hi as -> ->. rewrite fold_pairs_lookup_notin by exact Hnotin.
    apply lookup_insert_eq.
  - eapply IH; eassumption.
Qed.

Lemma padded_lookup (fields record : list string) i k :
  fields !! i = Some k ->
  (map PyStr record ++ replicate (length fields - length record) PyNone) !! i
  = Some (match record !! i with
          | Some s => PyStr s
          | None => PyNone
          end).
Proof.
  intros Hk. apply lookup_lt_Some in Hk.
  destruct (record !! i) as [s|] eqn:E.
  - apply lookup_app_l_Some. rewrite map_lookup, E. reflexivity.
  - apply lookup_ge_None_1 in E.
    rewrite lookup_app_r by (rewrite length_map; lia).
    apply lookup_replicate_2. rewrite length_map. lia.
Qed.

Lemma zip_fields_fst (fields record : list string) :
  (zip fields (map PyStr record
               ++ replicate (length fields - length record) PyNone)).*1 = fields.
Proof.
  apply fst_zip. rewrite length_app, length_map, length_replicate. lia.
Qed.

Lemma row_dict_lookup (fields record : list string) i k :
  NoDup fields -> fields !! i = Some k ->
  row_dict fields record !! k
  = Some (match record !! i with
          | Some s => PyStr s
          | None => PyNone
          end).
Proof.
  intros Hnd Hk. unfold row_dict.
  apply (fold_pairs_lookup _ _ i).
  - now rewrite zip_fields_fst.
  - apply lookup_zip_Some. split; [exact Hk|]. now apply (padded_lookup _ _ _ k).
Qed.

Lemma row_dict_lookup_other (fields record : list string) k :
  k ∉ fields -> row_dict fields record !! k = None.
Proof.
  intros Hk. unfold row_dict. rewrite fold_pairs_lookup_notin.
  - apply lookup_empty.
  - now rewrite zip_fields_fst.
Qed.

(** X12: [csv.DictReader] on a header of distinct names: the dict of a
    record maps the [i]-th name to the [i]-th field, to [None] when the
    record is too short to have one, and has no other key; a surplus of
    fields is not reachable under any name. *)
Theorem dict_reader_row (fields record : list string) :
  NoDup fields ->
  (forall i k, fields !! i = Some k ->
               row_dict fields record !! k
               = Some (match record !! i with
                       | Some s => PyStr s
                       | None => PyNone
                       end))
  /\ (forall k, k ∉ fields -> row_dict fields record !! k = None)
  /\ (forall k, is_Some (row_dict fields record !! k) <-> k ∈ fields).
Proof.
  intros Hnd. split; [|split].
  - intros i k. now apply row_dict_lookup.
  - apply row_dict_lookup_other.
  - intros k. split.
    + intros Hs. destruct (decide (k ∈ fields)) as [|Hn]; [assumption|].
      rewrite (row_dict_lookup_other _ _ _ Hn) in Hs. now destruct Hs.
    + intros Hin. apply list_elem_of_lookup in Hin as [i Hi].
      rewrite (row_dict_lookup _ record i k Hnd Hi). eauto.
Qed.

Lemma dict_reader_row_witness :
  row_dict ["snapped_at"; "price"; "market_cap"] ["2020-01-01"; "7100.5"] !! "market_cap"
  = Some PyNone.
Proof.
  apply (proj1 (dict_reader_row ["snapped_at"; "price"; "market_cap"]
                  ["2020-01-01"; "7100.5"]
                  ltac:(apply (bool_decide_unpack _); vm_compute; reflexivity))
               2%nat "market_cap").
  reflexivity.
Defined.

(** X13: what is read is written back: for a file whose header has
    distinct names, none of them one of the five fixed names, the line
    written for a record under the five fixed columns followed by that
    header is the rank, id, name and symbol of the coin, the file name,
    and then the record itself, cut to the length of the header or
    completed with empty fields. *)
Theorem written_line_is_record (c : RankedCoin) (n : string)
    (bh record : list string) :
  NoDup bh ->
  (forall k, In k fixed_headers -> k ∉ bh) ->
  render_row (fixed_headers ++ bh) (merged_row c n bh (row_dict bh record))
  = [coin_rank c; coin_id c; coin_name c; coin_symbol c; n]
    ++ take (length bh) (record ++ replicate (length bh - length record) "").
Proof.
  intros Hnd Hfix. unfold render_row. rewrite map_app. f_equal.
  - unfold fixed_headers. cbn [map].
    rewrite !merged_row_other by (apply Hfix; simpl; tauto).
    reflexivity.
  - apply list_eq. intros i. rewrite map_lookup.
    destruct (bh !! i) as [k|] eqn:Ek; simpl.
    + assert (Hin : k ∈ bh) by (eapply list_elem_of_lookup_2; exact Ek).
      rewrite (merged_row_base c n bh _ k Hin). unfold get_or_empty.
      rewrite (row_dict_lookup bh record i k Hnd Ek). simpl.
      pose proof (lookup_lt_Some _ _ _ Ek) as Hlt.
      rewrite lookup_take_lt by exact Hlt.
      destruct (record !! i) as [s|] eqn:Er.
      * symmetry. now apply lookup_app_l_Some.
      * apply lookup_ge_None_1 in Er.
        rewrite lookup_app_r by exact Er.
        symmetry. apply lookup_replicate_2. lia.
    + apply lookup_ge_None_1 in Ek. symmetry. now apply lookup_take_ge.
Qed.

Lemma written_line_is_record_witness :
  render_row (fixed_headers ++ ["snapped_at"; "price"])
             (merged_row (coin "bitcoin" "Bitcoin" "btc" "1") "btc-usd-max.csv"
                         ["snapped_at"; "price"]
                         (row_dict ["snapped_at"; "price"] ["2020-01-01"; "7100.5"]))
  = ["1"; "bitcoin"; "Bitcoin"; "btc"; "btc-usd-max.csv"]
    ++ take 2 (["2020-01-01"; "7100.5"] ++ replicate (2 - 2) "").
Proof.
  apply (written_line_is_record (coin "bitcoin" "Bitcoin" "btc" "1")
           "btc-usd-max.csv" ["snapped_at"; "price"] ["2020-01-01"; "7100.5"]).
  - apply (bool_decide_unpack _). vm_compute. reflexivity.
  - intros k Hk H. simpl in Hk.
    repeat (apply elem_of_cons in H as [H|H];
            [subst k; repeat (destruct Hk as [Hk|Hk]; [discriminate|]);
             contradiction|]).
    inversion H.
Defined.

(* --------------------------------------------------------------------- *)
(** ** The merge engine: keys of the rows and errors (l. 142-195) *)
(* --------------------------------------------------------------------- *)

Lemma merged_row_fixed_some c n bh (r0 : row) k :
  In k fixed_headers -> is_Some (merged_row c n bh r0 !! k).
Proof.
  intros Hk. destruct (decide (k ∈ bh)) as [Hin|Hnin].
  - rewrite merged_row_base by exact Hin. eauto.
  - rewrite merged_row_other by exact Hnin. simpl in Hk.
    destruct Hk as [<-|[<-|[<-|[<-|[<-|[]]]]]]; eexists; reflexivity.
Qed.

Lemma merged_row_key_in c n bh (r0 : row) k :
  is_Some (merged_row c n bh r0 !! k) -> In k fixed_headers \/ k ∈ bh.
Proof.
  intros Hs. destruct (decide (k ∈ bh)) as [Hin|Hnin]; [now right|left].
  rewrite merged_row_other in Hs by exact Hnin.
  destruct Hs as [v Hv].
  repeat (apply lookup_insert_Some in Hv as [[<- _]|[_ Hv]]; [simpl; tauto|]).
  rewrite lookup_empty in Hv. discriminate.
Qed.

Lemma sort_key_raise_fixed (r : row) e :
  is_Some (r !! "coin_rank") -> is_Some (r !! "coin_symbol") ->
  sort_key r = Raise e -> e = TypeError \/ e = ValueError.
Proof.
  intros [v Hv] [s Hs]. unfold sort_key, getitem, mbind, result_bind, rbind.
  rewrite Hv, Hs. unfold py_int. destruct v as [|t]; [intros [= <-]; auto|].
  destruct (py_int_str t); [discriminate|intros [= <-]; auto].
Qed.

(** X14: every row the merge engine returns has a value under each of
    the five fixed columns, and every key of the row is a column of the
    returned header: the writer never meets a key it has no column
    for. *)
Theorem merged_rows_fit_the_header `{Str : StrMethods}
    (files : list AssetFile) (m : ranking) hdr rows unm r :
  build_merged_rows files m = Ok (hdr, rows, unm) ->
  In r rows ->
  (forall k, In k fixed_headers -> is_Some (r !! k))
  /\ (forall k, is_Some (r !! k) -> k ∈ hdr).
Proof.
  unfold build_merged_rows. rewrite ingest_files_spec.
  cbn [all_rows base_headers unmatched_files].
  unfold mbind, result_bind, rbind.
  destruct (sort_rows (rows_from m [] files)) as [out|e] eqn:E; [|discriminate].
  intros [= <- <- <-] Hr.
  apply (Permutation_in _ (sort_rows_perm _ _ E)) in Hr.
  apply rows_from_elem in Hr as (f & _ & r0 & bh' & _ & Hbh & ->).
  rewrite headers_from_empty in Hbh.
  split; [intros k; apply merged_row_fixed_some|].
  intros k Hk. apply merged_row_key_in in Hk.
  change (k ∈ fixed_headers ++ first_headers files). apply elem_of_app.
  destruct Hk as [Hk|Hk]; [left; now apply list_elem_of_In|].
  destruct Hbh as [->| ->]; [inversion Hk|now right].
Qed.

Lemma merged_rows_fit_the_header_witness :
  exists hdr rows unm,
    build_merged_rows [sample_btc_file; sample_xrp_file] sample_ranking
    = Ok (hdr, rows, unm)
    /\ forall r, In r rows ->
                 (forall k, In k fixed_headers -> is_Some (r !! k))
                 /\ (forall k, is_Some (r !! k) -> k ∈ hdr).
Proof.
  destruct sample_merge_returns as (hdr & rows & unm & E).
  exists hdr, rows, unm. split; [exact E|].
  intros r Hr. exact (merged_rows_fit_the_header _ _ _ _ _ r E Hr).
Defined.

Lemma forallb_false {A} (p : A -> bool) (l : list A) :
  forallb p l = false -> exists x, In x l /\ p x = false.
Proof.
  induction l as [|x l IH]; simpl; [discriminate|].
  destruct (p x) eqn:E; simpl.
  - intros H. destruct (IH H) as (y & Hy & Hp). eauto.
  - intros _. eauto.
Qed.

Lemma sort_key_raise_cause (r : row) e :
  is_Some (r !! "coin_rank") -> is_Some (r !! "coin_symbol") ->
  sort_key r = Raise e ->
  (e = ValueError
   /\ exists t, r !! "coin_rank" = Some (PyStr t)
                /\ py_int (PyStr t) = Raise ValueError)
  \/ (e = TypeError /\ r !! "coin_rank" = Some PyNone).
Proof.
  intros [v Hv] [s Hs]. unfold sort_key, getitem, mbind, result_bind, rbind.
  rewrite Hv, Hs. destruct v as [|t]; [intros [= <-]; auto|].
  destruct (py_int (PyStr t)) as [z|e0] eqn:Ei; [discriminate|].
  intros [= <-]. left.
  assert (e0 = ValueError) as ->.
  { unfold py_int in Ei. destruct (py_int_str t); [discriminate|].
    now injection Ei as <-. }
  split; [reflexivity|]. exists t. split; [reflexivity|exact Ei].
Qed.

(** X15: the sort of l. 179-185, on the rows the engine has built from
    the files, fails only in two ways, and never with [KeyError], since
    every merged row has the keys the sort reads: with [ValueError],
    when [int] raises it on the [coin_rank] text of some row, or with
    [TypeError], when the [coin_rank] of some row is [None] or the keys
    of two rows cannot be compared. *)
Theorem sort_failure_is_value_or_type_error `{Str : StrMethods}
    (files : list AssetFile) (m : ranking) e :
  sort_rows (all_rows (ingest_files files m)) = Raise e ->
  (e = ValueError
   /\ exists r t, In r (all_rows (ingest_files files m))
                  /\ r !! "coin_rank" = Some (PyStr t)
                  /\ py_int (PyStr t) = Raise ValueError)
  \/ (e = TypeError
      /\ ((exists r, In r (all_rows (ingest_files files m))
                     /\ r !! "coin_rank" = Some PyNone)
          \/ exists r1 r2,
               In r1 (all_rows (ingest_files files m))
               /\ In r2 (all_rows (ingest_files files m))
               /\ comparable (key_of r1) (key_of r2) = false)).
Proof.
  rewrite ingest_files_spec. cbn [all_rows].
  intros E. unfold sort_rows, mbind, result_bind, rbind in E.
  destruct (mapR _ (rows_from m [] files)) as [kd|e''] eqn:Em.
  - destruct (forallb _ kd) eqn:Ec; [discriminate|]. injection E as <-.
    right. split; [reflexivity|]. right.
    apply mapR_keyed in Em as [_ ->].
    apply forallb_false in Ec as (a & Ha & Ec).
    apply forallb_false in Ec as (b & Hb & Ec).
    apply in_keyed in Ha as [Ea Ha]. apply in_keyed in Hb as [Eb Hb].
    rewrite Ea, Eb in Ec. eauto.
  - injection E as ->. apply mapR_raise in Em as (r & Hr & Hk).
    destruct (sort_key r) as [k|e0] eqn:Ek; simpl in Hk; [discriminate|].
    injection Hk as ->.
    pose proof Hr as Hin.
    apply rows_from_elem in Hr as (f & _ & r0 & bh' & _ & _ & Hrow).
    destruct (sort_key_raise_cause r e) as [[-> Hc]|[-> Hc]];
      [subst r; apply merged_row_fixed_some; simpl; tauto
      |subst r; apply merged_row_fixed_some; simpl; tauto
      |exact Ek| |].
    + left. split; [reflexivity|]. destruct Hc as (t & Ht & Hi). eauto.
    + right. split; [reflexivity|]. left. eauto.
Qed.

Lemma sort_failure_is_value_or_type_error_witness :
  exists r t,
    In r (all_rows (ingest_files [sample_btc_file]
                      (<["btc" := coin "bitcoin" "Bitcoin" "btc" "1.0"]> ∅)))
    /\ r !! "coin_rank" = Some (PyStr t)
    /\ py_int (PyStr t) = Raise ValueError.
Proof.
  destruct (sort_failure_is_value_or_type_error [sample_btc_file]
              (<["btc" := coin "bitcoin" "Bitcoin" "btc" "1.0"]> ∅) ValueError)
    as [[_ H]|[H _]].
  - vm_compute. reflexivity.
  - exact H.
  - discriminate H.
Defined.

(* --------------------------------------------------------------------- *)
(** ** The cleaner, row by row (clean_coingecko_data.py, l. 33-49) *)
(* --------------------------------------------------------------------- *)

Lemma omap_cons {A B} (f : A -> option B) (x : A) (l : list A) :
  omap f (x :: l) = match f x with
                    | Some y => y :: omap f l
                    | None => omap f l
                    end.
Proof. reflexivity. Qed.

Lemma omap_filter {A B} (p : A -> bool) (f : A -> option B) (l : list A) :
  omap f (List.filter p l) = omap (fun x => if p x then f x else None) l.
Proof.
  induction l as [|x l IH]; [reflexivity|].
  cbn [List.filter]. destruct (p x) eqn:E.
  - change (omap f (x :: List.filter p l))
      with (match f x with
            | Some y => y :: omap f (List.filter p l)
            | None => omap f (List.filter p l)
            end).
    rewrite IH. simpl. rewrite E. reflexivity.
  - rewrite IH. simpl. rewrite E. reflexivity.
Qed.

Lemma zip_with_Forall2_elem {A B C} (P : A -> B -> Prop) (f : A -> B -> C) l k x :
  Forall2 P l k -> In x (zip_with f l k) ->
  exists a b, x = f a b /\ In a l /\ P a b.
Proof.
  induction 1 as [|a b l k Hab _ IH]; simpl; [tauto|].
  intros [<-|Hx]; [exists a, b; auto|].
  destruct (IH Hx) as (a' & b' & -> & Ha & Hp). exists a', b'. auto.
Qed.

Section CleanerRows.

Variable parse_datetime : list cell -> string -> result cell.

Local Abbreviation read := (read_cell parse_datetime).

Lemma kept_rows_omap column R : forall stamps keep,
  Forall2 (fun r c => read column (str_replace_utc (cell_at r "snapped_at")) = Ok c)
          R stamps ->
  Forall2 (fun r b => ge_cutoff (cell_at r "snapped_at") = Ok b)
          (zip_with put_stamp R stamps) keep ->
  map fst (List.filter snd (zip (zip_with put_stamp R stamps) keep))
  = omap (fun r => stamped r (read column (str_replace_utc (cell_at r "snapped_at"))))
         R.
Proof.
  induction R as [|r R IH]; intros stamps keep H1 H2.
  - inversion H1; subst. simpl in H2. inversion H2; subst. reflexivity.
  - inversion H1 as [|? c ? stamps' Hc H1']; subst.
    simpl in H2. inversion H2 as [|? b ? keep' Hb H2']; subst.
    unfold put_stamp in Hb at 1. rewrite cell_at_insert in Hb.
    cbn [zip_with zip]. rewrite omap_cons, Hc.
    specialize (IH _ _ H1' H2').
    destruct c as [|s|t|t]; simpl in Hb; try discriminate;
      injection Hb as <-; cbn [stamped List.filter snd]; [exact IH|].
    destruct (cutoff_date <=? t); cbn [map fst]; now rewrite IH.
Qed.

(** X16: the cleaner treats the rows one by one.  When it returns, its
    rows are, in the order of the input, the rows that miss none of
    [price], [market_cap] and [total_volume] and whose [snapped_at]
    text, the [" UTC"] marker removed, is read as a zone-less timestamp
    not before 2020-02-19, each with that timestamp in its [snapped_at]
    cell; so every such row of the input is in the output. *)
Theorem cleaner_keeps_exactly (df out : DataFrame) :
  clean_coingecko_data parse_datetime df = Ok out ->
  data out = omap (cleaned_row parse_datetime (stamp_texts df)) (data df)
  /\ forall r s t,
       In r (data df) -> complete_b r = true ->
       cell_at r "snapped_at" = Text s ->
       parse_datetime (stamp_texts df) (remove_all " UTC" s) = Ok (Naive t) ->
       cutoff_date <= t ->
       In (<["snapped_at" := Naive t]> r) (data out).
Proof.
  intros H.
  assert (Hdata : data out
                  = omap (cleaned_row parse_datetime (stamp_texts df)) (data df)).
  { unfold clean_coingecko_data, dropna in H.
    destruct (forallb (has_column df) _); [|discriminate].
    cbn [mbind result_bind rbind columns data] in H.
    destruct (list_find _ (columns df)) as [[i [nm dt]]|]; [|discriminate].
    cbn [mbind result_bind rbind] in H.
    destruct (bool_decide (dt = ObjectDtype)); [|discriminate].
    cbn [negb] in H. unfold to_datetime in H.
    change ["price"; "market_cap"; "total_volume"] with required_columns in H.
    fold complete_b in H.
    change (List.filter (fun r => complete_b r) (data df))
      with (List.filter complete_b (data df)) in H.
    fold (stamp_texts df) in H.
    fold (read_cell parse_datetime (stamp_texts df)) in H.
    destruct (mapR (read (stamp_texts df)) (stamp_texts df)) as [stamps|e] eqn:Es;
      [|discriminate].
    cbn [mbind result_bind rbind] in H.
    destruct (mapR _ (zip_with _ _ stamps)) as [keep|e] eqn:Ek; [|discriminate].
    cbn [mbind result_bind rbind] in H. injection H as <-. cbn [data].
    apply mapR_ok in Es. unfold stamp_texts in Es at 2. apply Forall2_fmap_l in Es.
    apply mapR_ok in Ek.
    etransitivity; [exact (kept_rows_omap _ _ _ _ Es Ek)|].
    unfold cleaned_row. now rewrite omap_filter. }
  split; [exact Hdata|].
  intros r s t Hr Hc Hs Hp Ht. rewrite Hdata.
  apply list_elem_of_In, list_elem_of_omap. exists r.
  split; [now apply list_elem_of_In|].
  unfold cleaned_row. rewrite Hc, Hs. cbn [str_replace_utc read_cell]. rewrite Hp.
  cbn [stamped]. apply Z.leb_le in Ht. now rewrite Ht.
Qed.

(** X17: the ways the cleaner fails.  It raises [KeyError] when one of
    the three required columns or the [snapped_at] column is missing,
    [AttributeError] when the [snapped_at] column does not hold texts;
    otherwise the error comes from a row that misses none of the three
    columns: either the reader raised it on the [snapped_at] text of
    that row, or it is the [TypeError] of comparing with the cutoff a
    value the reader returned that is no zone-less timestamp. *)
Theorem cleaner_failures (df : DataFrame) (e : exn) :
  clean_coingecko_data parse_datetime df = Raise e ->
  (e = KeyError
   /\ (forallb (has_column df) required_columns = false
       \/ list_find (fun c => c.1 = "snapped_at") (columns df) = None))
  \/ (e = AttributeError
      /\ exists i nm dt,
           list_find (fun c => c.1 = "snapped_at") (columns df) = Some (i, (nm, dt))
           /\ dt <> ObjectDtype)
  \/ exists r s,
       In r (data df) /\ complete_b r = true
       /\ cell_at r "snapped_at" = Text s
       /\ (parse_datetime (stamp_texts df) (remove_all " UTC" s) = Raise e
           \/ e = TypeError
              /\ exists c, parse_datetime (stamp_texts df) (remove_all " UTC" s) = Ok c
                           /\ ((exists t, c = Aware t) \/ exists s', c = Text s')).
Proof.
  intros H. unfold clean_coingecko_data, dropna in H.
  change ["price"; "market_cap"; "total_volume"] with required_columns in H.
  destruct (forallb (has_column df) required_columns);
    [|injection H as <-; left; auto].
  cbn [mbind result_bind rbind columns data] in H.
  destruct (list_find _ (columns df)) as [[i [nm dt]]|];
    [|injection H as <-; left; auto].
  cbn [mbind result_bind rbind] in H.
  destruct (bool_decide (dt = ObjectDtype)) eqn:Edt; cbn [negb] in H;
    [|injection H as <-; right; left; split; [reflexivity|];
      exists i, nm, dt; split; [reflexivity|];
      now apply bool_decide_eq_false in Edt].
  right; right. unfold to_datetime in H.
  fold complete_b in H.
  change (List.filter (fun r => complete_b r) (data df))
    with (List.filter complete_b (data df)) in H.
  fold (stamp_texts df) in H.
  fold (read_cell parse_datetime (stamp_texts df)) in H.
  destruct (mapR (read (stamp_texts df)) (stamp_texts df)) as [stamps|e'] eqn:Es.
  - cbn [mbind result_bind rbind] in H.
    destruct (mapR _ (zip_with _ _ stamps)) as [keep|e'] eqn:Ek; [discriminate|].
    cbn [mbind result_bind rbind] in H. injection H as <-.
    apply mapR_ok in Es. unfold stamp_texts in Es at 2. apply Forall2_fmap_l in Es.
    apply mapR_raise in Ek as (x & Hx & Hge).
    destruct (zip_with_Forall2_elem _ (fun r t => <["snapped_at" := t]> r)
                _ _ _ Es Hx) as (r & c & -> & Hr & Hc).
    unfold compose in Hc. cbv beta in Hc, Hge. rewrite cell_at_insert in Hge.
    apply filter_In in Hr as [Hr Hcomplete].
    destruct (cell_at r "snapped_at") as [|s|t|t] eqn:Ecell;
      cbn [str_replace_utc read_cell] in Hc;
      try (injection Hc as <-; simpl in Hge; discriminate).
    exists r, s. repeat split; try assumption. right.
    destruct c as [|s'|t|t]; simpl in Hge; try discriminate;
      injection Hge as <-; (split; [reflexivity|]); eexists; split; eauto.
  - cbn [mbind result_bind rbind] in H. injection H as <-.
    apply mapR_raise in Es as (c & Hc & Hread).
    unfold stamp_texts in Hc. apply in_map_iff in Hc as (r & <- & Hr).
    apply filter_In in Hr as [Hr Hcomplete].
    destruct (cell_at r "snapped_at") as [|s|t|t] eqn:Ecell;
      cbn [str_replace_utc read_cell] in Hread; try discriminate.
    exists r, s. repeat split; try assumption. now left.
Qed.

End CleanerRows.

Lemma cleaner_keeps_exactly_witness :
  exists out,
    clean_coingecko_data sample_parse_datetime sample_snapshot = Ok out
    /\ data out
       = omap (cleaned_row sample_parse_datetime (stamp_texts sample_snapshot))
              (data sample_snapshot).
Proof.
  assert (H : exists out,
             clean_coingecko_data sample_parse_datetime sample_snapshot = Ok out)
    by (vm_compute; eexists; reflexivity).
  destruct H as [out E]. exists out. split; [exact E|].
  exact (proj1 (cleaner_keeps_exactly sample_parse_datetime sample_snapshot out E)).
Defined.

Lemma cleaner_failures_witness :
  exists i nm dt,
    list_find (fun c => c.1 = "snapped_at") (columns sample_numeric_snapshot)
    = Some (i, (nm, dt))
    /\ dt <> ObjectDtype.
Proof.
  destruct (cleaner_failures sample_parse_datetime sample_numeric_snapshot
              AttributeError eq_refl) as [[H _]|[[_ H]|(r & s & [] & _)]].
  - discriminate H.
  - exact H.
Defined.

(* --------------------------------------------------------------------- *)
(** ** Ranks: written with [str], read back with [int] (l. 74, 181) *)
(* --------------------------------------------------------------------- *)

Lemma digit_of_pretty_char (y : N) :
  (y < 10)%N ->
  digit_of (pretty_N_char y) = Some (Z.of_N y)
  /\ is_int_space (pretty_N_char y) = false.
Proof.
  intros Hy.
  do 10 (destruct y as [|y] using N.peano_ind; [split; reflexivity|];
         apply N.succ_lt_mono in Hy || (exfalso; lia)).
  exfalso. lia.
Qed.

Lemma int_digits_pretty (x : N) :
  (0 < x)%N ->
  exists k : nat,
    (0 < k)%nat
    /\ 10 ^ (Z.of_nat k - 1) <= Z.of_N x
    /\ forall s acc n,
         int_digits acc n (pretty_N_go x s)
         = int_digits (acc * 10 ^ Z.of_nat k + Z.of_N x) (n + k) s.
Proof.
  induction (N.lt_wf_0 x) as [x _ IH]. intros Hx.
  assert (Hm : (x `mod` 10 < 10)%N) by (apply N.mod_lt; lia).
  destruct (digit_of_pretty_char _ Hm) as [Hd _].
  destruct (decide (x `div` 10 = 0)%N) as [Hz|Hnz].
  - exists 1%nat. split; [lia|]. split; [simpl; lia|].
    intros s acc n. rewrite pretty_N_go_step by exact Hx.
    rewrite Hz, pretty_N_go_0. cbn [int_digits]. rewrite Hd.
    f_equal; [|lia].
    assert (x `mod` 10 = x)%N by (apply N.mod_small; apply N.div_small_iff in Hz; lia).
    change (10 ^ Z.of_nat 1) with 10. lia.
  - destruct (IH (x `div` 10)%N) as (k & Hk & Hlow & Heq).
    + apply N.div_lt; lia.
    + now apply N.neq_0_lt_0.
    + exists (S k). split; [lia|]. split.
      * replace (Z.of_nat (S k) - 1) with (Z.succ (Z.of_nat k - 1)) by lia.
        rewrite Z.pow_succ_r by lia.
        pose proof (N.div_mod x 10 ltac:(lia)) as E.
        revert E Hlow. generalize (x `div` 10)%N (x `mod` 10)%N. intros y r E Hlow.
        lia.
      * intros s acc n. rewrite pretty_N_go_step by exact Hx.
        rewrite Heq. cbn [int_digits]. rewrite Hd.
        f_equal; [|lia].
        rewrite Nat2Z.inj_succ, Z.pow_succ_r by lia.
        pose proof (N.div_mod x 10 ltac:(lia)) as E.
        revert E. generalize (x `div` 10)%N (x `mod` 10)%N. intros y r E.
        lia.
Qed.

Lemma pretty_N_go_head (x : N) : forall s,
  (0 < x)%N ->
  exists c r d, pretty_N_go x s = String c r /\ digit_of c = Some d.
Proof.
  induction (N.lt_wf_0 x) as [x _ IH]. intros s Hx.
  rewrite pretty_N_go_step by exact Hx.
  destruct (decide (x `div` 10 = 0)%N) as [Hz|Hnz].
  - rewrite Hz, pretty_N_go_0.
    destruct (digit_of_pretty_char (x `mod` 10)) as [Hd _]; [apply N.mod_lt; lia|].
    eauto.
  - apply IH; [apply N.div_lt; lia|now apply N.neq_0_lt_0].
Qed.

Lemma pretty_N_go_no_blank (x : N) : forall s,
  no_blank s = true -> no_blank (pretty_N_go x s) = true.
Proof.
  induction (N.lt_wf_0 x) as [x _ IH]. intros s Hs.
  destruct (decide (x = 0)%N) as [->|Hx]; [now rewrite pretty_N_go_0|].
  rewrite pretty_N_go_step by lia.
  apply IH; [apply N.div_lt; lia|].
  destruct (digit_of_pretty_char (x `mod` 10)) as [_ Hb]; [apply N.mod_lt; lia|].
  cbn [no_blank]. now rewrite Hb, Hs.
Qed.

Lemma int_rstrip_no_blank s : no_blank s = true -> int_rstrip s = s.
Proof.
  induction s as [|c r IH]; [reflexivity|]. cbn [no_blank int_rstrip].
  intros H. apply andb_true_iff in H as [Hc Hr]. rewrite (IH Hr).
  destruct r; [|reflexivity]. apply negb_true_iff in Hc. now rewrite Hc.
Qed.

Lemma int_lstrip_no_blank s : no_blank s = true -> int_lstrip s = s.
Proof.
  destruct s as [|c r]; [reflexivity|]. cbn [no_blank int_lstrip].
  intros H. apply andb_true_iff in H as [Hc _]. apply negb_true_iff in Hc.
  now rewrite Hc.
Qed.

Lemma digit_not_sign c d r :
  digit_of c = Some d ->
  match String c r with
  | String "+" r' => int_unsigned r'
  | String "-" r' => Z.opp <$> int_unsigned r'
  | t => int_unsigned t
  end = int_digits d 1 r.
Proof.
  intros H.
  destruct c as [[] [] [] [] [] [] [] []]; vm_compute in H; try discriminate;
    injection H as <-; reflexivity.
Qed.

Lemma digits_within_limit (k : nat) (x : Z) :
  10 ^ (Z.of_nat k - 1) <= x -> x < 10 ^ 4300 -> (k <= 4300)%nat.
Proof.
  intros Hlow Hlt.
  assert (H : 10 ^ (Z.of_nat k - 1) < 10 ^ 4300)
    by (eapply Z.le_lt_trans; eassumption).
  clear Hlow Hlt.
  apply (Z.pow_lt_mono_r_iff 10) in H; [lia|reflexivity|discriminate].
Qed.

Lemma int_unsigned_pretty (x : N) :
  (0 < x)%N -> Z.of_N x < 10 ^ 4300 ->
  no_blank (pretty_N_go x "") = true
  /\ int_unsigned (pretty_N_go x "") = Some (Z.of_N x)
  /\ py_int_str (pretty_N_go x "") = Some (Z.of_N x).
Proof.
  intros Hx Hlt.
  assert (Hnb : no_blank (pretty_N_go x "") = true)
    by now apply pretty_N_go_no_blank.
  destruct (int_digits_pretty x Hx) as (k & Hk & Hlow & Heq).
  destruct (pretty_N_go_head x "" Hx) as (c & r & d & Hs & Hd).
  pose proof (digits_within_limit k _ Hlow Hlt) as Hk'.
  clear Hlow Hlt.
  assert (Hu : int_digits d 1 r = Some (Z.of_N x)).
  { specialize (Heq "" 0 0%nat). rewrite Hs in Heq. cbn [int_digits] in Heq.
    rewrite Hd in Heq. change (10 * 0 + d) with d in Heq.
    rewrite Heq. cbn [int_digits].
    change (0 * 10 ^ Z.of_nat k + Z.of_N x) with (Z.of_N x).
    destruct (4300 <? 0 + k)%nat eqn:E; [|reflexivity].
    apply Nat.ltb_lt in E. lia. }
  split; [exact Hnb|]. split.
  - rewrite Hs. unfold int_unsigned. now rewrite Hd.
  - unfold py_int_str.
    rewrite (int_lstrip_no_blank _ Hnb), (int_rstrip_no_blank _ Hnb), Hs.
    now rewrite (digit_not_sign c d r Hd).
Qed.

Lemma py_int_str_pretty (z : Z) :
  Z.abs z < 10 ^ 4300 -> py_int_str (pretty z) = Some z.
Proof.
  intros Hz. destruct z as [|p|p].
  - reflexivity.
  - change (pretty (Z.pos p)) with (pretty_N_go (N.pos p) "").
    destruct (int_unsigned_pretty (N.pos p)) as (_ & _ & H);
      [reflexivity|exact Hz|exact H].
  - change (pretty (Z.neg p)) with ("-" +:+ pretty_N_go (N.pos p) "").
    destruct (int_unsigned_pretty (N.pos p)) as (Hnb & Hu & _);
      [reflexivity|exact Hz|].
    clear Hz. unfold py_int_str.
    change ("-" +:+ pretty_N_go (N.pos p) "")
      with (String "-" (pretty_N_go (N.pos p) "")).
    assert (Hnb' : no_blank (String "-" (pretty_N_go (N.pos p) "")) = true)
      by (cbn [no_blank]; now rewrite Hnb).
    rewrite (int_lstrip_no_blank _ Hnb'), (int_rstrip_no_blank _ Hnb').
    rewrite Hu. reflexivity.
Qed.

(** X18: a rank the listing gives as a JSON integer is stored with
    [str] and read back by the sort with [int]: the entry the primary
    path makes of such a record has as [coin_rank] a text that [int]
    reads as that very integer (below the limit of 4300 digits), so
    these ranks are ordered by value and never make the sort fail. *)
Theorem integer_rank_round_trip `{Str : StrMethods}
    (m : ranking) (row : json_row) (z : Z) k c :
  j_market_cap_rank row = Some (JInt z) ->
  Z.abs z < 10 ^ 4300 ->
  m !! k = None ->
  ingest_api_row m row !! k = Some c ->
  py_int (PyStr (coin_rank c)) = Ok z.
Proof.
  intros Hrank Hz Hk Hc. unfold ingest_api_row in Hc. rewrite Hrank in Hc.
  cbn [get_rank] in Hc.
  destruct (decide (strip (lower (get_str (j_symbol row))) = ""));
    [rewrite Hk in Hc; discriminate|].
  destruct (decide (is_Some (m !! strip (lower (get_str (j_symbol row))))));
    [rewrite Hk in Hc; discriminate|].
  apply lookup_insert_Some in Hc as [[_ <-]|[_ Hc]];
    [|rewrite Hk in Hc; discriminate].
  cbn [coin_rank py_str py_int]. now rewrite py_int_str_pretty.
Qed.

Lemma integer_rank_round_trip_witness :
  py_int (PyStr (coin_rank (coin "bitcoin" "Bitcoin" "btc" "1"))) = Ok 1.
Proof.
  apply (integer_rank_round_trip ∅ (api_row "BTC" (JInt 1) "bitcoin" "Bitcoin")
           1 "btc").
  - reflexivity.
  - apply Z.pow_gt_1; [reflexivity|reflexivity].
  - reflexivity.
  - vm_compute. reflexivity.
Defined.

(* --------------------------------------------------------------------- *)
(** ** Ties of the sort (l. 179-185) *)
(* --------------------------------------------------------------------- *)

Lemma insert_sorted_class {A} (leb : A -> A -> bool) (sel : A -> bool) x l :
  (forall a b, sel a = true -> sel b = true -> leb a b = true) ->
  List.filter sel (insert_sorted leb x l) = List.filter sel (x :: l).
Proof.
  intros Hsel. induction l as [|y l IH]; [reflexivity|].
  cbn [insert_sorted]. destruct (leb x y) eqn:E; [reflexivity|].
  cbn [List.filter] in *. rewrite IH.
  destruct (sel x) eqn:Ex, (sel y) eqn:Ey; try reflexivity.
  rewrite (Hsel x y Ex Ey) in E. discriminate.
Qed.

Lemma stable_sort_class {A} (leb : A -> A -> bool) (sel : A -> bool) l :
  (forall a b, sel a = true -> sel b = true -> leb a b = true) ->
  List.filter sel (stable_sort leb l) = List.filter sel l.
Proof.
  intros Hsel. induction l as [|x l IH]; [reflexivity|].
  unfold stable_sort in *. cbn [foldr].
  rewrite insert_sorted_class by exact Hsel. cbn [List.filter]. now rewrite IH.
Qed.

Lemma with_key_keyed k (l : list (sort_key_t * row)) :
  (forall p, In p l -> p.1 = key_of p.2) ->
  with_key k (map snd l)
  = map snd (List.filter (fun p => bool_decide (p.1 = k)) l).
Proof.
  unfold with_key. induction l as [|p l IH]; intros H; [reflexivity|].
  cbn [map List.filter]. rewrite (H p) by now left.
  rewrite IH by (intros q Hq; apply H; now right).
  now destruct (bool_decide (key_of p.2 = k)).
Qed.

Lemma keyed_fst rows p : In p (keyed rows) -> p.1 = key_of p.2.
Proof.
  unfold keyed. intros H. apply in_map_iff in H as (r & <- & _). reflexivity.
Qed.

Lemma sort_rows_stable rows out k :
  sort_rows rows = Ok out -> with_key k out = with_key k rows.
Proof.
  intros H. apply sort_rows_ok in H as (_ & _ & ->).
  rewrite with_key_keyed.
  - rewrite stable_sort_class.
    + rewrite <- with_key_keyed by apply keyed_fst. now rewrite map_snd_keyed.
    + intros a b Ha Hb. apply bool_decide_eq_true in Ha, Hb.
      unfold keyed_leb. rewrite Ha, Hb. apply key_le_leb, key_le_refl.
  - intros p Hp. apply keyed_fst with (rows := rows).
    eapply Permutation_in; [apply stable_sort_perm|exact Hp].
Qed.

(** X19: the sort is stable: among the returned rows, those with the
    same composite key (rank, symbol, [snapped_at]) are in the order in
    which they were ingested, file after file in the order of the file
    list and line after line within a file. *)
Theorem ties_keep_ingestion_order `{Str : StrMethods}
    (files : list AssetFile) (m : ranking) hdr rows unm :
  build_merged_rows files m = Ok (hdr, rows, unm) ->
  forall k, with_key k rows = with_key k (rows_from m [] files).
Proof.
  unfold build_merged_rows. rewrite ingest_files_spec.
  cbn [all_rows base_headers unmatched_files].
  unfold mbind, result_bind, rbind.
  destruct (sort_rows (rows_from m [] files)) as [out|e] eqn:E; [|discriminate].
  intros [= <- <- <-] k. now apply sort_rows_stable.
Qed.

Lemma ties_keep_ingestion_order_witness :
  exists hdr rows unm,
    build_merged_rows [sample_btc_file; sample_btc_upper_file] sample_ranking
    = Ok (hdr, rows, unm)
    /\ map (fun r => r !! "source_file")
           (with_key (1, PyStr "btc", PyStr "2020-01-01 00:00:00 UTC") rows)
       = [Some (PyStr "btc-usd-max.csv"); Some (PyStr "BTC-usd-max.csv")].
Proof.
  destruct (build_merged_rows_returns [sample_btc_file; sample_btc_upper_file]
              sample_ranking) as (hdr & rows & unm & E).
  - intros H. cbn in H.
    repeat (apply elem_of_cons in H as [H|H]; [discriminate|]). inversion H.
  - intros H. cbn in H.
    repeat (apply elem_of_cons in H as [H|H]; [discriminate|]). inversion H.
  - repeat (apply Forall_cons_2;
            [unfold no_short_record; simpl;
             repeat (apply Forall_cons_2; [right; simpl; lia|]);
             apply Forall_nil_2|]).
    apply Forall_nil_2.
  - exact sample_ranking_ranks.
  - exists hdr, rows, unm. split; [exact E|].
    rewrite (ties_keep_ingestion_order _ _ _ _ _ E). vm_compute. reflexivity.
Defined.
